(** * Maya voice assistant: the audio pipeline of [App.tsx], both revisions

    The repository holds two revisions of [App.tsx]: the earlier one
    (module [V1] below) and the later, "enhanced" one (module [V2]).  Both
    are embedded here function by function, over one model of the browser
    objects they drive (audio contexts, media streams, the remote session,
    buffer sources), and the properties of the specification are stated on
    these embeddings.

    Conventions of the embedding:
    - a JavaScript [number] holding a sample is [number] below: NaN, the
      two infinities, or an exact rational.  A [Float32Array] element
      widened to a double and multiplied by 32768 (a power of two) is
      exact in IEEE arithmetic, so the model agrees with the code on every
      Float32 input;
    - times on the audio clock (seconds) are doubles, held as the
      rationals they denote; a sum of two times is rounded to the nearest
      double, ties to even ([double_add]);
    - an [async] function is embedded whole (a call that no other
      handler interrupts) and also run by run, one definition for every
      run between two of its [await]s, so that other handlers can be run
      in between; only [stopSession] of the later revision is embedded
      whole and no more;
    - browser objects live in a [World]: a heap of audio contexts, an
      allocation counter and the trace of the calls made on the platform. *)

From Stdlib Require Import ZArith QArith Qminmax Qround Qabs Qpower.
From Stdlib Require Import List String Ascii Bool Lia Lqa.
Import ListNotations.

Set Implicit Arguments.
Local Open Scope Z_scope.

(** ** JavaScript numbers, as far as the PCM encoder needs them *)

Inductive number : Type :=
| NaN
| Infinity (negative : bool)
| Fin (q : Q).

(** [x * y] on numbers, for a finite non-zero right operand (the code
    multiplies by the literal 32768). *)
Definition mul_const (x : number) (k : Q) : number :=
  match x with
  | NaN => NaN
  | Infinity s => Infinity (if Qlt_le_dec k 0 then negb s else s)
  | Fin q => Fin (q * k)
  end.

(** [Math.min] and [Math.max] on two arguments: NaN is contagious. *)
Definition Math_min (a b : number) : number :=
  match a, b with
  | NaN, _ | _, NaN => NaN
  | Infinity true, _ | _, Infinity true => Infinity true
  | Infinity false, x | x, Infinity false => x
  | Fin p, Fin q => Fin (Qmin p q)
  end.

Definition Math_max (a b : number) : number :=
  match a, b with
  | NaN, _ | _, NaN => NaN
  | Infinity false, _ | _, Infinity false => Infinity false
  | Infinity true, x | x, Infinity true => x
  | Fin p, Fin q => Fin (Qmax p q)
  end.

(** Rounding towards zero, the first step of every integer conversion. *)
Definition truncate (q : Q) : Z := Z.quot (Qnum q) (Z.pos (Qden q)).

(** ECMAScript [ToInt16], the conversion applied by a store into an
    [Int16Array]: NaN and the infinities give 0, anything else is
    truncated and wrapped modulo 2^16 into [-32768, 32767]. *)
Definition ToInt16 (x : number) : Z :=
  match x with
  | Fin q =>
      let int16bit := truncate q mod 65536 in
      if 32768 <=? int16bit then int16bit - 65536 else int16bit
  | _ => 0
  end.

(** [new Uint8Array(int16.buffer)]: the two bytes of every element, low
    byte first (little-endian hosts). *)
Definition bytes_of_int16 (v : Z) : list Z :=
  let u := v mod 65536 in [u mod 256; u / 256].

Definition Uint8Array_of_Int16Array (a : list Z) : list Z :=
  flat_map bytes_of_int16 a.

Record Blob : Type := { data : string; mimeType : string }.

(** The for loop of [createBlob] stores [f data[i]] at every index [i] of a
    fresh [Int16Array] of the same length. *)
Definition Int16Array_from (f : number -> number) (data : list number) : list Z :=
  map (fun x => ToInt16 (f x)) data.

(** ** Browser objects and the platform *)

(** Objects created by the platform (audio contexts, media streams,
    sessions, buffer sources) are named by the order of their creation. *)
Definition handle := nat.

Inductive AudioContextState : Type := suspended | running | closed.

Definition AudioContextState_eqb (a b : AudioContextState) : bool :=
  match a, b with
  | suspended, suspended | running, running | closed, closed => true
  | _, _ => false
  end.

(** *** Doubles

    The times the code computes are IEEE 754 binary64 numbers.  A finite
    double is held as the rational it denotes; the sum of two doubles is
    the exact sum rounded to the nearest double, ties to the even
    significand.  (Overflow is left out: no time comes near 2^1024.) *)

(** The binary exponent of a positive rational: [2^k <= x < 2^(k+1)]. *)
Definition Qlog2 (x : Q) : Z :=
  let k := Z.log2 (Qnum x) - Z.log2 (Z.pos (Qden x)) in
  if Qle_bool (2 ^ k) x then k else k - 1.

(** The exponent of the unit in the last place of the doubles around [x]:
    53 bits of significand, and the subnormal spacing 2^-1074. *)
Definition ulp_exponent (x : Q) : Z := Z.max (-1074) (Qlog2 (Qabs x) - 52).

(** The nearest integer, ties to even. *)
Definition round_half_even (q : Q) : Z :=
  let f := Qfloor q in
  match (q - inject_Z f ?= 1 # 2)%Q with
  | Lt => f
  | Gt => f + 1
  | Eq => if Z.even f then f else f + 1
  end.

Definition round_double (x : Q) : Q :=
  if Qeq_bool x 0 then 0%Q
  else let e := ulp_exponent x in
       Qred (inject_Z (round_half_even (x / 2 ^ e)) * 2 ^ e).

(** [x + y] on doubles. *)
Definition double_add (x y : Q) : Q := round_double (x + y).

Definition is_double (x : Q) : Prop := (round_double x == x)%Q.

(** An [AudioBuffer] of [frames] sample frames ([buffer.length]):
    [duration] is [length / sampleRate] by the Web Audio specification,
    as a double. *)
Record AudioBuffer : Type := { frames : nat; sampleRate : positive }.

Definition duration (b : AudioBuffer) : Q :=
  round_double (Z.of_nat (frames b) # sampleRate b).

(** *** Thrown values

    A handler may be handed any value as its error.  [message] is what
    [err?.message] evaluates to and [exn_string] what [String(err)] gives.
    For a message that is an object, the model records what its
    [includes] method answers and what its [substring(0, 50)] converts to
    in a template string, where the object has such a method ([None]: the
    call [msg.includes(..)], or [msg.substring(..)], throws). *)
Inductive Value : Type :=
| undefined
| null
| Bool (b : bool)
| Num (n : number)
| Str (s : string)
| Obj (includes_ : option (string -> bool)) (substring_ : option string).

Record Exn : Type := { message : Value; exn_string : string }.

(** [err?.message], where it is a string. *)
Definition exn_message (e : Exn) : option string :=
  match message e with Str s => Some s | _ => None end.

Definition InvalidStateError : Exn :=
  {| message := Str "InvalidStateError"; exn_string := "InvalidStateError"%string |}.
Definition NotAllowedError : Exn :=
  {| message := Str "Permission denied";
     exn_string := "NotAllowedError: Permission denied"%string |}.
Definition TypeError : Exn :=
  {| message := Str "TypeError"; exn_string := "TypeError"%string |}.

Inductive Role : Type := user | maya.

(** A conversational turn.  The earlier revision creates neither [id] nor
    [imageUrl]. *)
Record Message : Type := {
  id : option string;
  role : Role;
  text : string;
  timestamp : Z;
  imageUrl : option string
}.

(** The calls made on the platform, in the order they were made. *)
Inductive Effect : Type :=
| SessionClose (session : handle)
| TrackStop (stream : handle)
| ContextNew (ctx : handle) (rate : Z)
| ContextResume (ctx : handle)
| ContextClose (ctx : handle)
| GetUserMedia (stream : handle)
| Connect (session : handle) (voiceName : string)
| CaptureGraph (ctx stream : handle)
| SourceStart (source : handle) (buffer : AudioBuffer) (when : Q)
| SourceStop (source : handle)
| SendRealtimeInput (session : handle) (media : Blob)
| GenerateContent (model contents : string)
| Alert (msg : string).

Record World : Type := {
  contexts : handle -> AudioContextState;  (* [ctx.state] of every context *)
  currentTime : handle -> Q;               (* [ctx.currentTime] *)
  next_handle : handle;
  trace : list Effect;
  Date_now : Z;                            (* [new Date()] *)
  random_calls : nat;                      (* calls of [Math.random] so far *)
  localStorage : option (list Message)     (* item 'maya_neural_link' *)
}.

(** What the code cannot control: the helpers of [utils/audio], the
    environment variable, and how the browser and the remote service
    answer. *)
Record Platform : Type := {
  encode : list Z -> string;
  decode : string -> list Z;
  decodeAudioData : list Z -> Z -> Z -> AudioBuffer;
  rms : list number -> number;             (* [Math.sqrt(sum / length)] *)
  API_KEY : option string;
  random_id : nat -> string;               (* [Math.random().toString(36).substr(2, 9)] *)
  starts_suspended : handle -> bool;       (* autoplay policy *)
  session_close_throws : handle -> bool;
  source_stop_throws : handle -> bool;
  microphone_granted : World -> bool;
  handshake_succeeds : World -> bool;
  MODELS_IMAGE : string                    (* absent from [constants.ts] *)
}.

(** ** Handlers: state and exceptions *)

Inductive Completion (A : Type) : Type :=
| Normal (a : A)
| Throw (e : Exn).
Arguments Normal {A} a.
Arguments Throw {A} e.

Definition M (S A : Type) : Type := S -> Completion A * S.

Definition ret {S A} (a : A) : M S A := fun s => (Normal a, s).

Definition bind {S A B} (m : M S A) (k : A -> M S B) : M S B :=
  fun s => match m s with
           | (Normal a, s') => k a s'
           | (Throw e, s') => (Throw e, s')
           end.

Definition throw {S A} (e : Exn) : M S A := fun s => (Throw e, s).

(** [try { m } catch (e) { h e }] *)
Definition try_catch {S A} (m : M S A) (h : Exn -> M S A) : M S A :=
  fun s => match m s with
           | (Normal a, s') => (Normal a, s')
           | (Throw e, s') => h e s'
           end.

(** [try { m } finally { f }] *)
Definition try_finally {S A} (m : M S A) (f : M S unit) : M S A :=
  fun s => match m s with
           | (r, s') => match f s' with
                        | (Normal _, s'') => (r, s'')
                        | (Throw e, s'') => (Throw e, s'')
                        end
           end.

Definition gets {S A} (f : S -> A) : M S A := fun s => (Normal (f s), s).
Definition modify {S} (f : S -> S) : M S unit := fun s => (Normal tt, f s).
Definition when {S} (b : bool) (m : M S unit) : M S unit := if b then m else ret tt.

Arguments ret {S A} a s /.
Arguments bind {S A B} m k s /.
Arguments throw {S A} e s /.
Arguments try_catch {S A} m h s /.
Arguments try_finally {S A} m f s /.
Arguments gets {S A} f s /.
Arguments modify {S} f s /.
Arguments when {S} !b m s /.

Declare Scope js_scope.
Delimit Scope js_scope with js.
Notation "x <- m ;; k" := (bind m (fun x => k))
  (at level 61, m at next level, right associativity) : js_scope.
Notation "m ;; k" := (bind m (fun _ => k))
  (at level 61, right associativity) : js_scope.

(** [xs.forEach(f)], also the body of a [for ... of] loop. *)
Fixpoint forEach {S A} (xs : list A) (f : A -> M S unit) : M S unit :=
  match xs with
  | [] => ret tt
  | x :: rest => (f x ;; forEach rest f)%js
  end.

Definition exec {S A} (m : M S A) (s : S) : S := snd (m s).
Definition completion {S A} (m : M S A) (s : S) : Completion A := fst (m s).

Definition completes {A} (c : Completion A) : bool :=
  match c with Normal _ => true | Throw _ => false end.

(** States that carry a [World]. *)
Class HasWorld (S : Type) : Type := {
  get_world : S -> World;
  set_world : World -> S -> S
}.

Definition lift {S A} `{HasWorld S} (m : M World A) : M S A :=
  fun s => match m (get_world s) with (r, w) => (r, set_world w s) end.

Arguments lift {S A H} m s /.

(** *** Operations of the platform *)

Definition set_contexts (f : handle -> AudioContextState) (w : World) : World :=
  {| contexts := f; currentTime := currentTime w; next_handle := next_handle w;
     trace := trace w; Date_now := Date_now w; random_calls := random_calls w;
     localStorage := localStorage w |}.

Definition set_currentTime (f : handle -> Q) (w : World) : World :=
  {| contexts := contexts w; currentTime := f; next_handle := next_handle w;
     trace := trace w; Date_now := Date_now w; random_calls := random_calls w;
     localStorage := localStorage w |}.

Definition set_next_handle (n : handle) (w : World) : World :=
  {| contexts := contexts w; currentTime := currentTime w; next_handle := n;
     trace := trace w; Date_now := Date_now w; random_calls := random_calls w;
     localStorage := localStorage w |}.

Definition set_trace (t : list Effect) (w : World) : World :=
  {| contexts := contexts w; currentTime := currentTime w; next_handle := next_handle w;
     trace := t; Date_now := Date_now w; random_calls := random_calls w;
     localStorage := localStorage w |}.

Definition set_random_calls (n : nat) (w : World) : World :=
  {| contexts := contexts w; currentTime := currentTime w; next_handle := next_handle w;
     trace := trace w; Date_now := Date_now w; random_calls := n;
     localStorage := localStorage w |}.

Definition set_localStorage (v : option (list Message)) (w : World) : World :=
  {| contexts := contexts w; currentTime := currentTime w; next_handle := next_handle w;
     trace := trace w; Date_now := Date_now w; random_calls := random_calls w;
     localStorage := v |}.

Definition update {A} (f : handle -> A) (h : handle) (v : A) : handle -> A :=
  fun h' => if Nat.eqb h' h then v else f h'.

Definition emit (e : Effect) : M World unit :=
  modify (fun w => set_trace (trace w ++ [e]) w).

Definition alloc : M World handle :=
  fun w => (Normal (next_handle w), set_next_handle (S (next_handle w)) w).

Section PlatformOperations.
Variable P : Platform.
Local Open Scope js_scope.

(** [session.close()]: the session is opaque and may throw. *)
Definition session_close (session : handle) : M World unit :=
  emit (SessionClose session) ;;
  if session_close_throws P session then throw InvalidStateError else ret tt.

(** [stream.getTracks().forEach(t => t.stop())] *)
Definition stream_stop_tracks (stream : handle) : M World unit :=
  emit (TrackStop stream).

Definition ctx_state (ctx : handle) : M World AudioContextState :=
  gets (fun w => contexts w ctx).

(** [ctx.close()]: rejects on a context that is already closed. *)
Definition ctx_close (ctx : handle) : M World unit :=
  st <- ctx_state ctx ;;
  match st with
  | closed => throw InvalidStateError
  | _ => emit (ContextClose ctx) ;;
         modify (fun w => set_contexts (update (contexts w) ctx closed) w)
  end.

(** [ctx.resume()]: rejects on a closed context. *)
Definition ctx_resume (ctx : handle) : M World unit :=
  st <- ctx_state ctx ;;
  match st with
  | closed => throw InvalidStateError
  | _ => emit (ContextResume ctx) ;;
         modify (fun w => set_contexts (update (contexts w) ctx running) w)
  end.

(** [new AudioContext({ sampleRate })]: its clock starts at 0. *)
Definition AudioContext_new (rate : Z) : M World handle :=
  ctx <- alloc ;;
  emit (ContextNew ctx rate) ;;
  modify (fun w => set_contexts
            (update (contexts w) ctx (if starts_suspended P ctx then suspended else running))
            (set_currentTime (update (currentTime w) ctx 0%Q) w)) ;;
  ret ctx.

Definition ctx_currentTime (ctx : handle) : M World Q :=
  gets (fun w => currentTime w ctx).

(** [await navigator.mediaDevices.getUserMedia({ audio: true })] *)
Definition getUserMedia : M World handle :=
  granted <- gets (microphone_granted P) ;;
  if granted then (stream <- alloc ;; emit (GetUserMedia stream) ;; ret stream)
  else throw NotAllowedError.

(** [ai.live.connect(...)], awaited: the session, or the handshake error. *)
Definition live_connect (voiceName : string) : M World handle :=
  ok <- gets (handshake_succeeds P) ;;
  if ok then (session <- alloc ;; emit (Connect session voiceName) ;; ret session)
  else throw {| message := Str "handshake failed";
                exn_string := "Error: handshake failed"%string |}.

(** [ctx.createBufferSource()], [source.buffer = b], [source.connect(..)] *)
Definition createBufferSource : M World handle := alloc.

Definition source_start (source : handle) (b : AudioBuffer) (when_ : Q) : M World unit :=
  emit (SourceStart source b when_).

(** [source.stop()]: some browsers throw on a source that has finished. *)
Definition source_stop (source : handle) : M World unit :=
  emit (SourceStop source) ;;
  if source_stop_throws P source then throw InvalidStateError else ret tt.

Definition sendRealtimeInput (session : handle) (media : Blob) : M World unit :=
  emit (SendRealtimeInput session media).

Definition alert (msg : string) : M World unit := emit (Alert msg).

Definition new_Date : M World Z := gets Date_now.

Definition Math_random_id : M World string :=
  n <- gets random_calls ;;
  modify (set_random_calls (S n)) ;;
  ret (random_id P n).

End PlatformOperations.

(** JavaScript truthiness of the values the handlers test. *)
Definition truthy_string (s : string) : bool :=
  match s with EmptyString => false | _ => true end.

Definition truthy (v : Value) : bool :=
  match v with
  | undefined | null => false
  | Bool b => b
  | Num NaN => false
  | Num (Infinity _) => true
  | Num (Fin q) => negb (Qeq_bool q 0)
  | Str s => truthy_string s
  | Obj _ _ => true
  end.

Definition truthy_opt_string (s : option string) : bool :=
  match s with Some s => truthy_string s | None => false end.

Definition truthy_opt_bool (b : option bool) : bool :=
  match b with Some true => true | _ => false end.

(** A JavaScript [Set] of objects, in insertion order. *)
Definition Set_add (h : handle) (s : list handle) : list handle :=
  if existsb (Nat.eqb h) s then s else s ++ [h].

Definition Set_delete (h : handle) (s : list handle) : list handle :=
  filter (fun x => negb (Nat.eqb x h)) s.

(** ** Messages of the remote session ([LiveServerMessage]) *)

Record Transcription : Type := { transcription_text : option string }.
Record InlineData : Type := { inline_data : option string }.
Record Part : Type := { inlineData : option InlineData }.
Record ModelTurn : Type := { parts : option (list Part) }.
Record ServerContent : Type := {
  inputTranscription : option Transcription;
  outputTranscription : option Transcription;
  turnComplete : option bool;
  modelTurn : option ModelTurn;
  interrupted : option bool
}.
Record LiveServerMessage : Type := { serverContent : option ServerContent }.

(** [o?.f] *)
Definition opt_chain {A B} (o : option A) (f : A -> option B) : option B :=
  match o with Some a => f a | None => None end.

(** String concatenation with a possibly undefined right operand. *)
Definition js_concat (s : string) (t : option string) : string :=
  (s ++ match t with Some t => t | None => "undefined" end)%string.

(** The answer of [ai.models.generateContent]: [response.text], and
    [response.candidates[0].content.parts] ([None] where that path
    dereferences [undefined]). *)
Record GenerateContentResponse : Type := {
  response_text : option string;
  candidate_parts : option (list Part)
}.

(** [constants.ts] *)
Module MODELS.
Definition LIVE : string := "gemini-2.5-flash-native-audio-preview-12-2025".
Definition LITE : string := "gemini-2.5-flash-lite-latest".
Definition THINKING : string := "gemini-3-pro-preview".
Definition SEARCH : string := "gemini-3-flash-preview".
End MODELS.

(** [s.trim()] is empty: [s] is made of the white space and the line
    terminators of ECMAScript only.  These are U+0009 to U+000D, U+0020,
    U+00A0, U+1680, U+2000 to U+200A, U+2028, U+2029, U+202F, U+205F,
    U+3000 and U+FEFF.  A character of a [string] holds a code unit up to
    U+00FF, so U+00A0 is the character 160; the characters beyond that
    range are recognised where a string holds them as the bytes of their
    UTF-8 encoding, and so is U+00A0. *)
Definition is_white_space (c : ascii) : bool :=
  match nat_of_ascii c with
  | 9%nat | 10%nat | 11%nat | 12%nat | 13%nat | 32%nat | 160%nat => true
  | _ => false
  end.

(** U+00A0 is the bytes C2 A0. *)
Definition is_white_space2 (c1 c2 : ascii) : bool :=
  Nat.eqb (nat_of_ascii c1) 194 && Nat.eqb (nat_of_ascii c2) 160.

(** U+1680 is E1 9A 80; U+2000 to U+200A are E2 80 80 to E2 80 8A; U+2028,
    U+2029 and U+202F are E2 80 A8, E2 80 A9 and E2 80 AF; U+205F is
    E2 81 9F; U+3000 is E3 80 80; U+FEFF is EF BB BF. *)
Definition is_white_space3 (c1 c2 c3 : ascii) : bool :=
  let b1 := nat_of_ascii c1 in
  let b2 := nat_of_ascii c2 in
  let b3 := nat_of_ascii c3 in
  Nat.eqb b1 225 && Nat.eqb b2 154 && Nat.eqb b3 128 ||
  Nat.eqb b1 226 && Nat.eqb b2 128 &&
    (Nat.leb 128 b3 && Nat.leb b3 138 || Nat.eqb b3 168 || Nat.eqb b3 169 ||
     Nat.eqb b3 175) ||
  Nat.eqb b1 226 && Nat.eqb b2 129 && Nat.eqb b3 159 ||
  Nat.eqb b1 227 && Nat.eqb b2 128 && Nat.eqb b3 128 ||
  Nat.eqb b1 239 && Nat.eqb b2 187 && Nat.eqb b3 191.

Fixpoint trim_is_empty (s : string) : bool :=
  match s with
  | EmptyString => true
  | String c1 r1 =>
      is_white_space c1 && trim_is_empty r1 ||
      match r1 with
      | EmptyString => false
      | String c2 r2 =>
          is_white_space2 c1 c2 && trim_is_empty r2 ||
          match r2 with
          | EmptyString => false
          | String c3 r3 => is_white_space3 c1 c2 c3 && trim_is_empty r3
          end
      end
  end.

(** [s.includes(t)] *)
Fixpoint prefix_of (t s : string) : bool :=
  match t, s with
  | EmptyString, _ => true
  | String a t', String b s' => Ascii.eqb a b && prefix_of t' s'
  | String _ _, EmptyString => false
  end.

Fixpoint includes (s t : string) : bool :=
  prefix_of t s ||
  match s with
  | EmptyString => false
  | String _ s' => includes s' t
  end.

(** ** The earlier revision of [App.tsx] *)

Module V1.

Inductive MayaMode : Type := LIVE | DEEP_THOUGHT | SEARCH.

(** The [useState] cells and the [useRef] cells of the component, and the
    world they act on. *)
Record App : Type := {
  messages : list Message;
  mode : MayaMode;
  isActive : bool;
  isThinking : bool;
  inputLevel : number;
  inputAudioCtxRef : option handle;
  outputAudioCtxRef : option handle;
  sourcesRef : list handle;
  nextStartTimeRef : Q;
  sessionRef : option handle;
  streamRef : option handle;
  currentInputTranscription : string;
  currentOutputTranscription : string;
  world : World
}.

Definition with_messages (v : list Message) (a : App) : App :=
  {| messages := v; mode := mode a; isActive := isActive a; isThinking := isThinking a;
     inputLevel := inputLevel a; inputAudioCtxRef := inputAudioCtxRef a;
     outputAudioCtxRef := outputAudioCtxRef a; sourcesRef := sourcesRef a;
     nextStartTimeRef := nextStartTimeRef a; sessionRef := sessionRef a;
     streamRef := streamRef a; currentInputTranscription := currentInputTranscription a;
     currentOutputTranscription := currentOutputTranscription a; world := world a |}.

Definition with_mode (v : MayaMode) (a : App) : App :=
  {| messages := messages a; mode := v; isActive := isActive a; isThinking := isThinking a;
     inputLevel := inputLevel a; inputAudioCtxRef := inputAudioCtxRef a;
     outputAudioCtxRef := outputAudioCtxRef a; sourcesRef := sourcesRef a;
     nextStartTimeRef := nextStartTimeRef a; sessionRef := sessionRef a;
     streamRef := streamRef a; currentInputTranscription := currentInputTranscription a;
     currentOutputTranscription := currentOutputTranscription a; world := world a |}.

Definition with_isActive (v : bool) (a : App) : App :=
  {| messages := messages a; mode := mode a; isActive := v; isThinking := isThinking a;
     inputLevel := inputLevel a; inputAudioCtxRef := inputAudioCtxRef a;
     outputAudioCtxRef := outputAudioCtxRef a; sourcesRef := sourcesRef a;
     nextStartTimeRef := nextStartTimeRef a; sessionRef := sessionRef a;
     streamRef := streamRef a; currentInputTranscription := currentInputTranscription a;
     currentOutputTranscription := currentOutputTranscription a; world := world a |}.

Definition with_isThinking (v : bool) (a : App) : App :=
  {| messages := messages a; mode := mode a; isActive := isActive a; isThinking := v;
     inputLevel := inputLevel a; inputAudioCtxRef := inputAudioCtxRef a;
     outputAudioCtxRef := outputAudioCtxRef a; sourcesRef := sourcesRef a;
     nextStartTimeRef := nextStartTimeRef a; sessionRef := sessionRef a;
     streamRef := streamRef a; currentInputTranscription := currentInputTranscription a;
     currentOutputTranscription := currentOutputTranscription a; world := world a |}.

Definition with_inputLevel (v : number) (a : App) : App :=
  {| messages := messages a; mode := mode a; isActive := isActive a; isThinking := isThinking a;
     inputLevel := v; inputAudioCtxRef := inputAudioCtxRef a;
     outputAudioCtxRef := outputAudioCtxRef a; sourcesRef := sourcesRef a;
     nextStartTimeRef := nextStartTimeRef a; sessionRef := sessionRef a;
     streamRef := streamRef a; currentInputTranscription := currentInputTranscription a;
     currentOutputTranscription := currentOutputTranscription a; world := world a |}.

Definition with_inputAudioCtxRef (v : option handle) (a : App) : App :=
  {| messages := messages a; mode := mode a; isActive := isActive a; isThinking := isThinking a;
     inputLevel := inputLevel a; inputAudioCtxRef := v;
     outputAudioCtxRef := outputAudioCtxRef a; sourcesRef := sourcesRef a;
     nextStartTimeRef := nextStartTimeRef a; sessionRef := sessionRef a;
     streamRef := streamRef a; currentInputTranscription := currentInputTranscription a;
     currentOutputTranscription := currentOutputTranscription a; world := world a |}.

Definition with_outputAudioCtxRef (v : option handle) (a : App) : App :=
  {| messages := messages a; mode := mode a; isActive := isActive a; isThinking := isThinking a;
     inputLevel := inputLevel a; inputAudioCtxRef := inputAudioCtxRef a;
     outputAudioCtxRef := v; sourcesRef := sourcesRef a;
     nextStartTimeRef := nextStartTimeRef a; sessionRef := sessionRef a;
     streamRef := streamRef a; currentInputTranscription := currentInputTranscription a;
     currentOutputTranscription := currentOutputTranscription a; world := world a |}.

Definition with_sourcesRef (v : list handle) (a : App) : App :=
  {| messages := messages a; mode := mode a; isActive := isActive a; isThinking := isThinking a;
     inputLevel := inputLevel a; inputAudioCtxRef := inputAudioCtxRef a;
     outputAudioCtxRef := outputAudioCtxRef a; sourcesRef := v;
     nextStartTimeRef := nextStartTimeRef a; sessionRef := sessionRef a;
     streamRef := streamRef a; currentInputTranscription := currentInputTranscription a;
     currentOutputTranscription := currentOutputTranscription a; world := world a |}.

Definition with_nextStartTimeRef (v : Q) (a : App) : App :=
  {| messages := messages a; mode := mode a; isActive := isActive a; isThinking := isThinking a;
     inputLevel := inputLevel a; inputAudioCtxRef := inputAudioCtxRef a;
     outputAudioCtxRef := outputAudioCtxRef a; sourcesRef := sourcesRef a;
     nextStartTimeRef := v; sessionRef := sessionRef a;
     streamRef := streamRef a; currentInputTranscription := currentInputTranscription a;
     currentOutputTranscription := currentOutputTranscription a; world := world a |}.

Definition with_sessionRef (v : option handle) (a : App) : App :=
  {| messages := messages a; mode := mode a; isActive := isActive a; isThinking := isThinking a;
     inputLevel := inputLevel a; inputAudioCtxRef := inputAudioCtxRef a;
     outputAudioCtxRef := outputAudioCtxRef a; sourcesRef := sourcesRef a;
     nextStartTimeRef := nextStartTimeRef a; sessionRef := v;
     streamRef := streamRef a; currentInputTranscription := currentInputTranscription a;
     currentOutputTranscription := currentOutputTranscription a; world := world a |}.

Definition with_streamRef (v : option handle) (a : App) : App :=
  {| messages := messages a; mode := mode a; isActive := isActive a; isThinking := isThinking a;
     inputLevel := inputLevel a; inputAudioCtxRef := inputAudioCtxRef a;
     outputAudioCtxRef := outputAudioCtxRef a; sourcesRef := sourcesRef a;
     nextStartTimeRef := nextStartTimeRef a; sessionRef := sessionRef a;
     streamRef := v; currentInputTranscription := currentInputTranscription a;
     currentOutputTranscription := currentOutputTranscription a; world := world a |}.

Definition with_currentInputTranscription (v : string) (a : App) : App :=
  {| messages := messages a; mode := mode a; isActive := isActive a; isThinking := isThinking a;
     inputLevel := inputLevel a; inputAudioCtxRef := inputAudioCtxRef a;
     outputAudioCtxRef := outputAudioCtxRef a; sourcesRef := sourcesRef a;
     nextStartTimeRef := nextStartTimeRef a; sessionRef := sessionRef a;
     streamRef := streamRef a; currentInputTranscription := v;
     currentOutputTranscription := currentOutputTranscription a; world := world a |}.

Definition with_currentOutputTranscription (v : string) (a : App) : App :=
  {| messages := messages a; mode := mode a; isActive := isActive a; isThinking := isThinking a;
     inputLevel := inputLevel a; inputAudioCtxRef := inputAudioCtxRef a;
     outputAudioCtxRef := outputAudioCtxRef a; sourcesRef := sourcesRef a;
     nextStartTimeRef := nextStartTimeRef a; sessionRef := sessionRef a;
     streamRef := streamRef a; currentInputTranscription := currentInputTranscription a;
     currentOutputTranscription := v; world := world a |}.

Definition with_world (v : World) (a : App) : App :=
  {| messages := messages a; mode := mode a; isActive := isActive a; isThinking := isThinking a;
     inputLevel := inputLevel a; inputAudioCtxRef := inputAudioCtxRef a;
     outputAudioCtxRef := outputAudioCtxRef a; sourcesRef := sourcesRef a;
     nextStartTimeRef := nextStartTimeRef a; sessionRef := sessionRef a;
     streamRef := streamRef a; currentInputTranscription := currentInputTranscription a;
     currentOutputTranscription := currentOutputTranscription a; world := v |}.

#[global] Instance App_HasWorld : HasWorld App :=
  {| get_world := world; set_world := with_world |}.

(** The component as first rendered. *)
Definition initial (w : World) : App :=
  {| messages := []; mode := LIVE; isActive := false; isThinking := false;
     inputLevel := Fin 0; inputAudioCtxRef := None; outputAudioCtxRef := None;
     sourcesRef := []; nextStartTimeRef := 0%Q; sessionRef := None; streamRef := None;
     currentInputTranscription := ""; currentOutputTranscription := ""; world := w |}.

(** [createBlob]: its loop, then the value it returns. *)
Definition createBlob_int16 (data : list number) : list Z :=
  Int16Array_from (fun x => mul_const x 32768) data.

Section Handlers.
Variable P : Platform.
Local Open Scope js_scope.

Definition createBlob (data : list number) : Blob :=
  let int16 := createBlob_int16 data in
  {| data := encode P (Uint8Array_of_Int16Array int16);
     mimeType := "audio/pcm;rate=16000" |}.

Definition addMessage (role : Role) (text : string) : M App unit :=
  now <- lift new_Date ;;
  modify (fun a => with_messages
    (messages a ++ [{| id := None; role := role; text := text;
                       timestamp := now; imageUrl := None |}]) a).

(** [ref.current.m(...)] on a reference that holds [null] is a TypeError. *)
Definition deref (ref : App -> option handle) : M App handle :=
  r <- gets ref ;;
  match r with Some h => ret h | None => throw TypeError end.

Definition stopSession : M App unit :=
  modify (with_isActive false) ;;
  modify (with_inputLevel (Fin 0)) ;;
  (r <- gets sessionRef ;;
   match r with
   | Some session =>
       modify (with_sessionRef None) ;;
       try_catch (lift (session_close P session)) (fun _ => ret tt)
   | None => ret tt
   end) ;;
  (r <- gets streamRef ;;
   match r with
   | Some stream =>
       lift (stream_stop_tracks stream) ;;
       modify (with_streamRef None)
   | None => ret tt
   end) ;;
  (r <- gets inputAudioCtxRef ;;
   match r with
   | Some ctx =>
       st <- lift (ctx_state ctx) ;;
       when (negb (AudioContextState_eqb st closed))
            (try_catch (lift (ctx_close ctx)) (fun _ => ret tt)) ;;
       modify (with_inputAudioCtxRef None)
   | None => ret tt
   end) ;;
  (r <- gets outputAudioCtxRef ;;
   match r with
   | Some ctx =>
       st <- lift (ctx_state ctx) ;;
       when (negb (AudioContextState_eqb st closed))
            (try_catch (lift (ctx_close ctx)) (fun _ => ret tt)) ;;
       modify (with_outputAudioCtxRef None)
   | None => ret tt
   end) ;;
  (srcs <- gets sourcesRef ;;
   forEach srcs (fun s => try_catch (lift (source_stop P s)) (fun _ => ret tt))) ;;
  modify (with_sourcesRef []) ;;
  modify (with_nextStartTimeRef 0%Q).

(** The [onaudioprocess] handler installed by [onopen]; [session] is the
    value [sessionPromise] resolved to. *)
Definition onaudioprocess (session : handle) (inputData : list number) : M App unit :=
  modify (with_inputLevel (rms P inputData)) ;;
  let pcmBlob := createBlob inputData in
  r <- gets sessionRef ;;
  match r with
  | Some _ => lift (sendRealtimeInput session pcmBlob)
  | None => ret tt
  end.

Definition onopen (stream : handle) : M App unit :=
  r <- gets inputAudioCtxRef ;;
  match r with
  | None => ret tt
  | Some ctx => lift (emit (CaptureGraph ctx stream))
  end.

(** The ['ended'] listener of a buffer source. *)
Definition source_onended (source : handle) : M App unit :=
  modify (fun a => with_sourcesRef (Set_delete source (sourcesRef a)) a).

(** One iteration of [for (const part of parts)], in the three runs its
    two [await]s cut it into.  [play_part_decoded]: from the resolution of
    [decodeAudioData] on. *)
Definition play_part_decoded (audioBuffer : AudioBuffer) : M App unit :=
  ctx <- deref outputAudioCtxRef ;;
  source <- lift createBufferSource ;;
  t <- gets nextStartTimeRef ;;
  lift (source_start source audioBuffer t) ;;
  modify (fun a => with_nextStartTimeRef
                     (double_add (nextStartTimeRef a) (duration audioBuffer)) a) ;;
  modify (fun a => with_sourcesRef (Set_add source (sourcesRef a)) a).

(** From the resolution of [resume()] on (from the test of the state,
    where the context was not suspended). *)
Definition play_part_resumed (b : string) : M App unit :=
  (ctx <- deref outputAudioCtxRef ;;
   now <- lift (ctx_currentTime ctx) ;;
   modify (fun a => with_nextStartTimeRef (Qmax (nextStartTimeRef a) now) a)) ;;
  play_part_decoded (decodeAudioData P (decode P b) 24000 1).

Definition play_part (part : Part) : M App unit :=
  let base64Audio := opt_chain (inlineData part) inline_data in
  out <- gets outputAudioCtxRef ;;
  match base64Audio, out with
  | Some b, Some _ =>
      if truthy_string b then
        (ctx <- deref outputAudioCtxRef ;;
         st <- lift (ctx_state ctx) ;;
         when (AudioContextState_eqb st suspended) (lift (ctx_resume ctx))) ;;
        play_part_resumed b
      else ret tt
  | _, _ => ret tt
  end.

(** The end of the handler: [if (message.serverContent?.interrupted)]. *)
Definition onmessage_interrupted (message : LiveServerMessage) : M App unit :=
  when (truthy_opt_bool (opt_chain (serverContent message) interrupted))
    ((srcs <- gets sourcesRef ;;
      forEach srcs (fun s => try_catch (lift (source_stop P s)) (fun _ => ret tt))) ;;
     modify (with_sourcesRef []) ;;
     modify (with_nextStartTimeRef 0%Q)).

(** The handler from an [await] of one of its parts on: the rest of that
    part, the parts after it, and the end of the handler. *)
Definition onmessage_resumed (b : string) (rest : list Part) (message : LiveServerMessage)
  : M App unit :=
  play_part_resumed b ;;
  forEach rest play_part ;;
  onmessage_interrupted message.

Definition onmessage_decoded (audioBuffer : AudioBuffer) (rest : list Part)
  (message : LiveServerMessage) : M App unit :=
  play_part_decoded audioBuffer ;;
  forEach rest play_part ;;
  onmessage_interrupted message.

Definition onmessage (message : LiveServerMessage) : M App unit :=
  let sc := serverContent message in
  (match opt_chain sc inputTranscription with
   | Some t => modify (fun a => with_currentInputTranscription
                 (js_concat (currentInputTranscription a) (transcription_text t)) a)
   | None => ret tt
   end) ;;
  (match opt_chain sc outputTranscription with
   | Some t => modify (fun a => with_currentOutputTranscription
                 (js_concat (currentOutputTranscription a) (transcription_text t)) a)
   | None => ret tt
   end) ;;
  when (truthy_opt_bool (opt_chain sc turnComplete))
    (userInput <- gets currentInputTranscription ;;
     mayaOutput <- gets currentOutputTranscription ;;
     when (truthy_string userInput) (addMessage user userInput) ;;
     when (truthy_string mayaOutput) (addMessage maya mayaOutput) ;;
     modify (with_currentInputTranscription "") ;;
     modify (with_currentOutputTranscription "")) ;;
  (let parts := match opt_chain (opt_chain sc modelTurn) parts with
                | Some ps => ps
                | None => []
                end in
   forEach parts play_part) ;;
  onmessage_interrupted message.

Definition onerror : M App unit := stopSession.

Definition onclose : M App unit :=
  r <- gets sessionRef ;;
  match r with Some _ => stopSession | None => ret tt end.

(** [startLiveSession], in the runs its [await]s cut it into (all of them
    inside its [try]).  [start_contexts]: up to the [await] of the first
    [resume()]. *)
Definition start_contexts : M App unit :=
  modify (with_isActive true) ;;
  (ctx <- lift (AudioContext_new P 16000) ;; modify (with_inputAudioCtxRef (Some ctx))) ;;
  (ctx <- lift (AudioContext_new P 24000) ;; modify (with_outputAudioCtxRef (Some ctx))) ;;
  (ctx <- deref inputAudioCtxRef ;;
   st <- lift (ctx_state ctx) ;;
   when (AudioContextState_eqb st suspended) (lift (ctx_resume ctx))).

(** From there to the [await] of the second [resume()]; only the call of
    [getUserMedia] lies between that and the next [await]. *)
Definition start_resumed : M App unit :=
  ctx <- deref outputAudioCtxRef ;;
  st <- lift (ctx_state ctx) ;;
  when (AudioContextState_eqb st suspended) (lift (ctx_resume ctx)).

(** From the answer of [getUserMedia] to the [await] of the session. *)
Definition start_stream : M App handle :=
  stream <- lift (getUserMedia P) ;;
  modify (with_streamRef (Some stream)) ;;
  ret stream.

(** From the answer of the service on: [onopen] is called, then the
    [await] of the session resumes. *)
Definition start_session (stream : handle) : M App unit :=
  session <- lift (live_connect P "Kore") ;;
  onopen stream ;;
  modify (with_sessionRef (Some session)).

Definition startLiveSession : M App unit :=
  try_catch
    (if negb (truthy_opt_string (API_KEY P)) then lift (alert "API Key missing")
     else
       start_contexts ;;
       start_resumed ;;
       stream <- start_stream ;;
       start_session stream)
    (fun _ => stopSession).

(** A call of [startLiveSession] in two runs, each under the [catch] of the
    function: up to the [await] of [getUserMedia] ([false] where the call
    is over by then), and from the answer of [getUserMedia] on. *)
Definition start_begin : M App bool :=
  try_catch
    (if negb (truthy_opt_string (API_KEY P)) then lift (alert "API Key missing") ;; ret false
     else
       start_contexts ;;
       start_resumed ;;
       ret true)
    (fun _ => stopSession ;; ret false).

Definition start_resume : M App unit :=
  try_catch
    (stream <- start_stream ;;
     start_session stream)
    (fun _ => stopSession).

(** [handleDeepPrompt] up to its [await]: whether a request is now in
    flight. *)
Definition handleDeepPrompt (text : string) : M App bool :=
  if trim_is_empty text then ret false
  else
    modify (with_isThinking true) ;;
    addMessage user text ;;
    m <- gets mode ;;
    match m with
    | DEEP_THOUGHT => lift (emit (GenerateContent MODELS.THINKING text))
    | _ => lift (emit (GenerateContent MODELS.SEARCH text))
    end ;;
    ret true.

(** [handleDeepPrompt] from its [await] on: the request resolved with a
    response, or failed. *)
Definition handleDeepPrompt_resume (r : Exn + GenerateContentResponse) : M App unit :=
  try_finally
    (try_catch
       (match r with
        | inr response =>
            let textOutput :=
              match response_text response with
              | Some t => if truthy_string t then t
                          else "I'm sorry, I couldn't process that."%string
              | None => "I'm sorry, I couldn't process that."%string
              end in
            addMessage maya textOutput
        | inl err => throw err
        end)
       (fun _ => addMessage maya
          "Oops, something went wrong while I was thinking. Let's try again."))
    (modify (with_isThinking false)).

(** The elements of the page: the main button, the mode buttons and the
    text input (disabled in Live mode and while thinking). *)
Definition button_onClick : M App unit :=
  a <- gets isActive ;;
  if a then stopSession else startLiveSession.

(** Three clicks on the main button, the second and the third while the
    call of [startLiveSession] made by the first waits for the microphone:
    the first call runs up to its [await]; the button, which now offers to
    stop, is clicked; the button, which offers to start again, is clicked
    and a second call runs up to its [await]; then the microphone and the
    service answer the first call, and after that the second. *)
Definition overlapping_starts : M App unit :=
  first <- start_begin ;;
  button_onClick ;;
  second <- start_begin ;;
  when (first && second) (start_resume ;; start_resume).

Definition mode_onClick (m : MayaMode) : M App unit :=
  a <- gets isActive ;;
  when a stopSession ;;
  modify (with_mode m).

Definition input_disabled (a : App) : bool :=
  match mode a with LIVE => true | _ => isThinking a end.

Definition input_onKeyDown_Enter (value : string) : M App bool :=
  d <- gets input_disabled ;;
  if d then ret false else handleDeepPrompt value.

End Handlers.
End V1.

(** ** The later revision of [App.tsx] *)

Module V2.

Inductive MayaMode : Type := LIVE | DEEP_THOUGHT | SEARCH | IMAGE.

(** The [useState] and [useRef] cells that the handlers read or write (the
    search box and the scroll position only drive the rendering). *)
Record App : Type := {
  messages : list Message;
  mode : MayaMode;
  isActive : bool;
  isThinking : bool;
  isMayaSpeaking : bool;
  inputLevel : number;
  inputAudioCtxRef : option handle;
  outputAudioCtxRef : option handle;
  outputNodeRef : option handle;
  sourcesRef : list handle;
  nextStartTimeRef : Q;
  sessionRef : option handle;
  streamRef : option handle;
  world : World
}.

Definition with_messages (v : list Message) (a : App) : App :=
  {| messages := v; mode := mode a; isActive := isActive a; isThinking := isThinking a;
     isMayaSpeaking := isMayaSpeaking a; inputLevel := inputLevel a;
     inputAudioCtxRef := inputAudioCtxRef a; outputAudioCtxRef := outputAudioCtxRef a;
     outputNodeRef := outputNodeRef a; sourcesRef := sourcesRef a;
     nextStartTimeRef := nextStartTimeRef a; sessionRef := sessionRef a;
     streamRef := streamRef a; world := world a |}.

Definition with_mode (v : MayaMode) (a : App) : App :=
  {| messages := messages a; mode := v; isActive := isActive a;
     isThinking := isThinking a; isMayaSpeaking := isMayaSpeaking a;
     inputLevel := inputLevel a; inputAudioCtxRef := inputAudioCtxRef a;
     outputAudioCtxRef := outputAudioCtxRef a; outputNodeRef := outputNodeRef a;
     sourcesRef := sourcesRef a; nextStartTimeRef := nextStartTimeRef a;
     sessionRef := sessionRef a; streamRef := streamRef a; world := world a |}.

Definition with_isActive (v : bool) (a : App) : App :=
  {| messages := messages a; mode := mode a; isActive := v; isThinking := isThinking a;
     isMayaSpeaking := isMayaSpeaking a; inputLevel := inputLevel a;
     inputAudioCtxRef := inputAudioCtxRef a; outputAudioCtxRef := outputAudioCtxRef a;
     outputNodeRef := outputNodeRef a; sourcesRef := sourcesRef a;
     nextStartTimeRef := nextStartTimeRef a; sessionRef := sessionRef a;
     streamRef := streamRef a; world := world a |}.

Definition with_isThinking (v : bool) (a : App) : App :=
  {| messages := messages a; mode := mode a; isActive := isActive a; isThinking := v;
     isMayaSpeaking := isMayaSpeaking a; inputLevel := inputLevel a;
     inputAudioCtxRef := inputAudioCtxRef a; outputAudioCtxRef := outputAudioCtxRef a;
     outputNodeRef := outputNodeRef a; sourcesRef := sourcesRef a;
     nextStartTimeRef := nextStartTimeRef a; sessionRef := sessionRef a;
     streamRef := streamRef a; world := world a |}.

Definition with_isMayaSpeaking (v : bool) (a : App) : App :=
  {| messages := messages a; mode := mode a; isActive := isActive a;
     isThinking := isThinking a; isMayaSpeaking := v; inputLevel := inputLevel a;
     inputAudioCtxRef := inputAudioCtxRef a; outputAudioCtxRef := outputAudioCtxRef a;
     outputNodeRef := outputNodeRef a; sourcesRef := sourcesRef a;
     nextStartTimeRef := nextStartTimeRef a; sessionRef := sessionRef a;
     streamRef := streamRef a; world := world a |}.

Definition with_inputLevel (v : number) (a : App) : App :=
  {| messages := messages a; mode := mode a; isActive := isActive a;
     isThinking := isThinking a; isMayaSpeaking := isMayaSpeaking a; inputLevel := v;
     inputAudioCtxRef := inputAudioCtxRef a; outputAudioCtxRef := outputAudioCtxRef a;
     outputNodeRef := outputNodeRef a; sourcesRef := sourcesRef a;
     nextStartTimeRef := nextStartTimeRef a; sessionRef := sessionRef a;
     streamRef := streamRef a; world := world a |}.

Definition with_inputAudioCtxRef (v : option handle) (a : App) : App :=
  {| messages := messages a; mode := mode a; isActive := isActive a;
     isThinking := isThinking a; isMayaSpeaking := isMayaSpeaking a;
     inputLevel := inputLevel a; inputAudioCtxRef := v;
     outputAudioCtxRef := outputAudioCtxRef a; outputNodeRef := outputNodeRef a;
     sourcesRef := sourcesRef a; nextStartTimeRef := nextStartTimeRef a;
     sessionRef := sessionRef a; streamRef := streamRef a; world := world a |}.

Definition with_outputAudioCtxRef (v : option handle) (a : App) : App :=
  {| messages := messages a; mode := mode a; isActive := isActive a;
     isThinking := isThinking a; isMayaSpeaking := isMayaSpeaking a;
     inputLevel := inputLevel a; inputAudioCtxRef := inputAudioCtxRef a;
     outputAudioCtxRef := v; outputNodeRef := outputNodeRef a;
     sourcesRef := sourcesRef a; nextStartTimeRef := nextStartTimeRef a;
     sessionRef := sessionRef a; streamRef := streamRef a; world := world a |}.

Definition with_outputNodeRef (v : option handle) (a : App) : App :=
  {| messages := messages a; mode := mode a; isActive := isActive a;
     isThinking := isThinking a; isMayaSpeaking := isMayaSpeaking a;
     inputLevel := inputLevel a; inputAudioCtxRef := inputAudioCtxRef a;
     outputAudioCtxRef := outputAudioCtxRef a; outputNodeRef := v;
     sourcesRef := sourcesRef a; nextStartTimeRef := nextStartTimeRef a;
     sessionRef := sessionRef a; streamRef := streamRef a; world := world a |}.

Definition with_sourcesRef (v : list handle) (a : App) : App :=
  {| messages := messages a; mode := mode a; isActive := isActive a;
     isThinking := isThinking a; isMayaSpeaking := isMayaSpeaking a;
     inputLevel := inputLevel a; inputAudioCtxRef := inputAudioCtxRef a;
     outputAudioCtxRef := outputAudioCtxRef a; outputNodeRef := outputNodeRef a;
     sourcesRef := v; nextStartTimeRef := nextStartTimeRef a; sessionRef := sessionRef a;
     streamRef := streamRef a; world := world a |}.

Definition with_nextStartTimeRef (v : Q) (a : App) : App :=
  {| messages := messages a; mode := mode a; isActive := isActive a;
     isThinking := isThinking a; isMayaSpeaking := isMayaSpeaking a;
     inputLevel := inputLevel a; inputAudioCtxRef := inputAudioCtxRef a;
     outputAudioCtxRef := outputAudioCtxRef a; outputNodeRef := outputNodeRef a;
     sourcesRef := sourcesRef a; nextStartTimeRef := v; sessionRef := sessionRef a;
     streamRef := streamRef a; world := world a |}.

Definition with_sessionRef (v : option handle) (a : App) : App :=
  {| messages := messages a; mode := mode a; isActive := isActive a;
     isThinking := isThinking a; isMayaSpeaking := isMayaSpeaking a;
     inputLevel := inputLevel a; inputAudioCtxRef := inputAudioCtxRef a;
     outputAudioCtxRef := outputAudioCtxRef a; outputNodeRef := outputNodeRef a;
     sourcesRef := sourcesRef a; nextStartTimeRef := nextStartTimeRef a; sessionRef := v;
     streamRef := streamRef a; world := world a |}.

Definition with_streamRef (v : option handle) (a : App) : App :=
  {| messages := messages a; mode := mode a; isActive := isActive a;
     isThinking := isThinking a; isMayaSpeaking := isMayaSpeaking a;
     inputLevel := inputLevel a; inputAudioCtxRef := inputAudioCtxRef a;
     outputAudioCtxRef := outputAudioCtxRef a; outputNodeRef := outputNodeRef a;
     sourcesRef := sourcesRef a; nextStartTimeRef := nextStartTimeRef a;
     sessionRef := sessionRef a; streamRef := v; world := world a |}.

Definition with_world (v : World) (a : App) : App :=
  {| messages := messages a; mode := mode a; isActive := isActive a;
     isThinking := isThinking a; isMayaSpeaking := isMayaSpeaking a;
     inputLevel := inputLevel a; inputAudioCtxRef := inputAudioCtxRef a;
     outputAudioCtxRef := outputAudioCtxRef a; outputNodeRef := outputNodeRef a;
     sourcesRef := sourcesRef a; nextStartTimeRef := nextStartTimeRef a;
     sessionRef := sessionRef a; streamRef := streamRef a; world := v |}.

#[global] Instance App_HasWorld : HasWorld App :=
  {| get_world := world; set_world := with_world |}.

(** [xs.slice(-n)]: the last [n] elements. *)
Definition slice_last {A} (n : nat) (xs : list A) : list A :=
  skipn (List.length xs - n) xs.

(** [createBlob]: its loop, then the value it returns. *)
Definition createBlob_int16 (data : list number) : list Z :=
  Int16Array_from
    (fun x => Math_max (Fin (-32768)) (Math_min (Fin 32767) (mul_const x 32768))) data.

Section Handlers.
Variable P : Platform.
Local Open Scope js_scope.

Definition createBlob (data : list number) : Blob :=
  let int16 := createBlob_int16 data in
  {| data := encode P (Uint8Array_of_Int16Array int16);
     mimeType := "audio/pcm;rate=16000" |}.

(** The initializer of the [messages] cell: the saved journal, where every
    entry without an [id] gets a fresh one. *)
Fixpoint restore (saved : list Message) : M World (list Message) :=
  match saved with
  | [] => ret []
  | m :: rest =>
      i <- (if truthy_opt_string (id m) then ret (id m)
            else (r <- Math_random_id P ;; ret (Some r))) ;;
      rest' <- restore rest ;;
      ret ({| id := i; role := role m; text := text m; timestamp := timestamp m;
              imageUrl := imageUrl m |} :: rest')
  end.

Definition initial (w : World) : App :=
  let (r, w') := match localStorage w with
                 | Some saved => restore saved w
                 | None => (Normal [], w)
                 end in
  {| messages := match r with Normal l => l | Throw _ => [] end;
     mode := LIVE; isActive := false; isThinking := false; isMayaSpeaking := false;
     inputLevel := Fin 0; inputAudioCtxRef := None; outputAudioCtxRef := None;
     outputNodeRef := None; sourcesRef := []; nextStartTimeRef := 0%Q;
     sessionRef := None; streamRef := None; world := w' |}.

(** The effect on [[messages]]: the journal is written back to storage. *)
Definition useEffect_messages : M App unit :=
  ms <- gets messages ;;
  lift (modify (set_localStorage (Some ms))).

Definition addMessage (role : Role) (text : string) (imageUrl : option string) : M App unit :=
  i <- lift (Math_random_id P) ;;
  now <- lift new_Date ;;
  let newMessage := {| id := Some i; role := role; text := text; timestamp := now;
                       imageUrl := imageUrl |} in
  modify (fun a => with_messages (slice_last 50 (messages a ++ [newMessage])) a).

Definition deleteMessage (i : string) : M App unit :=
  modify (fun a => with_messages
    (filter (fun m => negb match id m with
                           | Some j => String.eqb j i
                           | None => false
                           end) (messages a)) a).

Definition clearMemories (confirmed : bool) : M App unit :=
  when confirmed
    (modify (with_messages []) ;;
     lift (modify (set_localStorage None))).

(** [err?.message || String(err)] *)
Definition message_or_string (err : Exn) : Value :=
  if truthy (message err) then message err else Str (exn_string err).

(** [handleApiError(err: any)].  [msg] is a string, or whatever truthy
    value the error carries as its message; on a value without an
    [includes] method (a number, say) the test throws. *)
Definition handleApiError (err : Exn) : M App unit :=
  let saturated :=
    addMessage maya
      "[System: Neural Link saturated. Please wait a moment for the pathways to clear.]" None in
  let failure (head : string) :=
    addMessage maya ("[System Link Failure: " ++ head ++ "...]")%string None in
  match message_or_string err with
  | Str msg =>
      if includes msg "429" || includes msg "quota" then saturated
      else failure (substring 0 50 msg)
  | Obj (Some includes_) substring_ =>
      if includes_ "429"%string || includes_ "quota"%string then saturated
      else match substring_ with
           | Some head => failure head
           | None => throw TypeError
           end
  | _ => throw TypeError
  end.

(** A call whose promise is dropped: a rejection reaches nobody. *)
Definition unawaited (m : M App unit) : M App unit :=
  try_catch m (fun _ => ret tt).

Definition stopSession : M App unit :=
  modify (with_isActive false) ;;
  modify (with_isMayaSpeaking false) ;;
  modify (with_inputLevel (Fin 0)) ;;
  (r <- gets sessionRef ;;
   match r with
   | Some session =>
       try_catch (lift (session_close P session)) (fun _ => ret tt) ;;
       modify (with_sessionRef None)
   | None => ret tt
   end) ;;
  (r <- gets streamRef ;;
   match r with
   | Some stream =>
       lift (stream_stop_tracks stream) ;;
       modify (with_streamRef None)
   | None => ret tt
   end) ;;
  (r <- gets inputAudioCtxRef ;;
   match r with
   | Some ctx =>
       st <- lift (ctx_state ctx) ;;
       when (negb (AudioContextState_eqb st closed)) (lift (ctx_close ctx)) ;;
       modify (with_inputAudioCtxRef None)
   | None => ret tt
   end) ;;
  (r <- gets outputAudioCtxRef ;;
   match r with
   | Some ctx =>
       st <- lift (ctx_state ctx) ;;
       when (negb (AudioContextState_eqb st closed)) (lift (ctx_close ctx)) ;;
       modify (with_outputAudioCtxRef None)
   | None => ret tt
   end) ;;
  (srcs <- gets sourcesRef ;;
   forEach srcs (fun s => try_catch (lift (source_stop P s)) (fun _ => ret tt))) ;;
  modify (with_sourcesRef []) ;;
  modify (with_nextStartTimeRef 0%Q).

(** The [onaudioprocess] handler installed by [onopen]; [session] is the
    value [sessionPromise] resolved to. *)
Definition onaudioprocess (session : handle) (inputData : list number) : M App unit :=
  modify (with_inputLevel (rms P inputData)) ;;
  let pcmBlob := createBlob inputData in
  lift (sendRealtimeInput session pcmBlob).

Definition onopen (inputCtx stream : handle) : M App unit :=
  lift (emit (CaptureGraph inputCtx stream)) ;;
  addMessage maya "[System: Neural Link established. Talk to Maya.]" None.

(** The ['ended'] listener of a buffer source. *)
Definition source_onended (source : handle) : M App unit :=
  modify (fun a => with_sourcesRef (Set_delete source (sourcesRef a)) a) ;;
  srcs <- gets sourcesRef ;;
  when (Nat.eqb (List.length srcs) 0) (modify (with_isMayaSpeaking false)).

(** [onmessage]; [outputCtx] is the context created by the call of
    [startLiveSession] that installed the handler. *)
(** The audio branch of [onmessage] from the resolution of
    [decodeAudioData] on. *)
Definition play_decoded (audioBuffer : AudioBuffer) : M App unit :=
  source <- lift createBufferSource ;;
  t <- gets nextStartTimeRef ;;
  lift (source_start source audioBuffer t) ;;
  modify (fun a => with_nextStartTimeRef
                     (double_add (nextStartTimeRef a) (duration audioBuffer)) a) ;;
  modify (fun a => with_sourcesRef (Set_add source (sourcesRef a)) a).

(** The end of the handler: [if (message.serverContent?.interrupted)]. *)
Definition onmessage_interrupted (message : LiveServerMessage) : M App unit :=
  when (truthy_opt_bool (opt_chain (serverContent message) interrupted))
    ((srcs <- gets sourcesRef ;;
      forEach srcs (fun s => try_catch (lift (source_stop P s)) (fun _ => ret tt))) ;;
     modify (with_sourcesRef []) ;;
     modify (with_nextStartTimeRef 0%Q) ;;
     modify (with_isMayaSpeaking false)).

(** The handler from its [await] on. *)
Definition onmessage_decoded (audioBuffer : AudioBuffer) (message : LiveServerMessage)
  : M App unit :=
  play_decoded audioBuffer ;;
  onmessage_interrupted message.

Definition onmessage (outputCtx : handle) (message : LiveServerMessage) : M App unit :=
  let sc := serverContent message in
  let base64Audio :=
    opt_chain (opt_chain (opt_chain (opt_chain (opt_chain sc modelTurn) parts)
                                    (fun ps => nth_error ps 0)) inlineData) inline_data in
  when (truthy_opt_string base64Audio)
    (modify (with_isMayaSpeaking true) ;;
     (now <- lift (ctx_currentTime outputCtx) ;;
      modify (fun a => with_nextStartTimeRef (Qmax (nextStartTimeRef a) now) a)) ;;
     play_decoded
       (decodeAudioData P (decode P match base64Audio with Some b => b | None => "" end)
                        24000 1)) ;;
  onmessage_interrupted message.

(** [handleApiError] is [async] and its promise is dropped by every caller. *)
Definition onerror (e : Exn) : M App unit :=
  unawaited (handleApiError e) ;;
  unawaited stopSession.

(** [onclose] tests the [isActive] of the render that created it.  It is
    created by [startLiveSession], which the main button offers in an idle
    render only: the handler that is installed is [onclose false]. *)
Definition onclose (isActive_rendered : bool) : M App unit :=
  when isActive_rendered (unawaited stopSession).

(** [startLiveSession], in the runs its [await]s cut it into (all of them
    inside its [try]).  [start_contexts]: from the return of
    [await stopSession()] to the [await] of [getUserMedia]; it yields the
    constants [inputCtx] and [outputCtx] of the call. *)
Definition start_contexts : M App (handle * handle) :=
  modify (with_isActive true) ;;
  inputCtx <- lift (AudioContext_new P 16000) ;;
  outputCtx <- lift (AudioContext_new P 24000) ;;
  modify (with_inputAudioCtxRef (Some inputCtx)) ;;
  modify (with_outputAudioCtxRef (Some outputCtx)) ;;
  outputNode <- lift alloc ;;
  modify (with_outputNodeRef (Some outputNode)) ;;
  ret (inputCtx, outputCtx).

(** From the answer of [getUserMedia] to the [await] of the session. *)
Definition start_stream : M App handle :=
  stream <- lift (getUserMedia P) ;;
  modify (with_streamRef (Some stream)) ;;
  ret stream.

(** From the answer of the service on: [onopen] is called, then the
    [await] of the session resumes. *)
Definition start_session (inputCtx stream : handle) : M App unit :=
  session <- lift (live_connect P "Zephyr") ;;
  onopen inputCtx stream ;;
  modify (with_sessionRef (Some session)).

Definition startLiveSession : M App unit :=
  try_catch
    (if negb (truthy_opt_string (API_KEY P)) then lift (alert "API Key missing")
     else
       stopSession ;;
       ctxs <- start_contexts ;;
       stream <- start_stream ;;
       start_session (fst ctxs) stream)
    (fun _ => unawaited stopSession).

(** A call of [startLiveSession] in two runs, each under the [catch] of the
    function: up to the [await] of [getUserMedia] (it yields the constants
    [inputCtx] and [outputCtx], or [None] where the call is over by then),
    and from the answer of [getUserMedia] on. *)
Definition start_begin : M App (option (handle * handle)) :=
  try_catch
    (if negb (truthy_opt_string (API_KEY P)) then lift (alert "API Key missing") ;; ret None
     else
       stopSession ;;
       ctxs <- start_contexts ;;
       ret (Some ctxs))
    (fun _ => unawaited stopSession ;; ret None).

Definition start_resume (ctxs : handle * handle) : M App unit :=
  try_catch
    (stream <- start_stream ;;
     start_session (fst ctxs) stream)
    (fun _ => unawaited stopSession).

(** [handleDeepPrompt] up to its [await]: the mode of the request now in
    flight, if there is one. *)
Definition handleDeepPrompt (text : string) : M App (option MayaMode) :=
  busy <- gets isThinking ;;
  if trim_is_empty text || busy then ret None
  else
    modify (with_isThinking true) ;;
    addMessage user text None ;;
    m <- gets mode ;;
    match m with
    | DEEP_THOUGHT =>
        lift (emit (GenerateContent MODELS.THINKING text)) ;; ret (Some m)
    | SEARCH =>
        lift (emit (GenerateContent MODELS.SEARCH text)) ;; ret (Some m)
    | IMAGE =>
        lift (emit (GenerateContent (MODELS_IMAGE P)
                      ("A visual interpretation of: " ++ text)%string)) ;;
        ret (Some m)
    | LIVE =>
        modify (with_isThinking false) ;; ret None
    end.

Definition or_default (t : option string) (d : string) : string :=
  match t with
  | Some s => if truthy_string s then s else d
  | None => d
  end.

(** [handleDeepPrompt] from its [await] on, for the request of mode [m]:
    it resolved with a response, or failed. *)
Definition handleDeepPrompt_resume (m : MayaMode) (r : Exn + GenerateContentResponse)
  : M App unit :=
  try_finally
    (try_catch
       (match r with
        | inl err => throw err
        | inr response =>
            match m with
            | DEEP_THOUGHT =>
                addMessage maya (or_default (response_text response)
                                            "Thinking is a complex dance.") None
            | SEARCH =>
                addMessage maya (or_default (response_text response)
                                            "Gathered some fresh insights for you.") None
            | IMAGE =>
                match candidate_parts response with
                | None => throw TypeError
                | Some ps =>
                    let imageUrl :=
                      fold_left (fun url part =>
                        match inlineData part with
                        | Some d => js_concat "data:image/png;base64," (inline_data d)
                        | None => url
                        end) ps ""%string in
                    addMessage maya "Vision manifestation complete." (Some imageUrl)
                end
            | LIVE => ret tt
            end
        end)
       (fun err => unawaited (handleApiError err)))
    (modify (with_isThinking false)).

(** The elements of the page: the main button, the mode buttons and the
    text input (disabled in Live mode and while thinking). *)
Definition button_onClick : M App unit :=
  a <- gets isActive ;;
  if a then unawaited stopSession else unawaited startLiveSession.

(** Three clicks on the main button, the second and the third while the
    call of [startLiveSession] made by the first waits for the microphone:
    the first call runs up to its [await]; the button, which now offers to
    stop, is clicked; the button, which offers to start again, is clicked
    and a second call runs up to its [await]; then the microphone and the
    service answer the first call, and after that the second. *)
Definition overlapping_starts : M App unit :=
  first <- start_begin ;;
  button_onClick ;;
  second <- start_begin ;;
  match first, second with
  | Some ctxs1, Some ctxs2 => start_resume ctxs1 ;; start_resume ctxs2
  | _, _ => ret tt
  end.

Definition mode_onClick (m : MayaMode) : M App unit :=
  unawaited stopSession ;;
  modify (with_mode m).

Definition input_disabled (a : App) : bool :=
  match mode a with LIVE => true | _ => isThinking a end.

Definition input_onKeyDown_Enter (value : string) : M App (option MayaMode) :=
  d <- gets input_disabled ;;
  if d then ret None else handleDeepPrompt value.

(** [condenseHistory] up to its [await]: whether a request is now in
    flight.  The history is one line per message, [role: text]. *)
Definition role_name (r : Role) : string :=
  match r with user => "user" | maya => "maya" end.

Definition historyText (ms : list Message) : string :=
  String.concat (String (ascii_of_nat 10) EmptyString)
    (map (fun m => (role_name (role m) ++ ": " ++ text m)%string) ms).

Definition condense_prompt (ms : list Message) : string :=
  ("Summarize this conversation into a concise "
   ++ String (ascii_of_nat 34) "Neural Memory"
   ++ String (ascii_of_nat 34) " block. Text: "
   ++ String (ascii_of_nat 10) (historyText ms))%string.

Definition condenseHistory : M App bool :=
  ms <- gets messages ;;
  if Nat.ltb (List.length ms) 4 then ret false
  else
    modify (with_isThinking true) ;;
    lift (emit (GenerateContent MODELS.THINKING (condense_prompt ms))) ;;
    ret true.

(** [condenseHistory] from its [await] on. *)
Definition condenseHistory_resume (r : Exn + GenerateContentResponse) : M App unit :=
  try_finally
    (try_catch
       (match r with
        | inl err => throw err
        | inr response =>
            let summary := or_default (response_text response) "History condensed." in
            addMessage maya ("[System: Memory Condensed] " ++ summary)%string None
        end)
       (fun err => unawaited (handleApiError err)))
    (modify (with_isThinking false)).

End Handlers.
End V2.

(** ** Vocabulary of the specification *)

(** Clamping to the signed 16-bit range. *)
Definition clamp16 (z : Z) : Z := Z.max (-32768) (Z.min 32767 z).

(** "Scale by 32768 and clamp to the representable bounds", sample by
    sample. *)
Definition scaled_clamped (x : number) : Z :=
  match x with
  | NaN => 0
  | Infinity false => 32767
  | Infinity true => -32768
  | Fin q => clamp16 (truncate (q * 32768))
  end.

(** The sample is a value of at least [k] (plus infinity included). *)
Definition at_least (k : Q) (x : number) : Prop :=
  match x with
  | Fin q => (k <= q)%Q
  | Infinity false => True
  | _ => False
  end.

(** The sample lies in [[-1.0, 32767/32768]]. *)
Definition in_range (x : number) : Prop :=
  match x with
  | Fin q => (-1 <= q /\ q <= 32767 # 32768)%Q
  | _ => False
  end.

(** A platform and a world for running the handlers on concrete inputs:
    bytes are written as characters, a decoded buffer holds one frame for
    every two bytes, new contexts start suspended, and closing a session
    or stopping a source throws. *)
Definition reference_platform : Platform :=
  {| encode := fun bytes =>
       string_of_list_ascii (map (fun b => ascii_of_nat (Z.to_nat b)) bytes);
     decode := fun s =>
       map (fun c => Z.of_nat (nat_of_ascii c)) (list_ascii_of_string s);
     decodeAudioData := fun bytes rate _ =>
       {| frames := Nat.div (List.length bytes) 2; sampleRate := Z.to_pos rate |};
     rms := fun _ => Fin 0;
     API_KEY := Some "key"%string;
     random_id := fun _ => "k3x9q0a1z"%string;
     starts_suspended := fun _ => true;
     session_close_throws := fun _ => true;
     source_stop_throws := fun _ => true;
     microphone_granted := fun _ => true;
     handshake_succeeds := fun _ => true;
     MODELS_IMAGE := "gemini-2.5-flash-image"%string |}.

Definition empty_world : World :=
  {| contexts := fun _ => closed; currentTime := fun _ => 0%Q; next_handle := 0%nat;
     trace := []; Date_now := 0; random_calls := 0%nat; localStorage := None |}.

(** What a teardown does to the world: the calls it makes, in order, and
    the contexts it closes. *)
Definition log (e : Effect) (w : World) : World := set_trace (trace w ++ [e]) w.

Definition log_opt (f : handle -> Effect) (h : option handle) (w : World) : World :=
  match h with Some x => log (f x) w | None => w end.

Definition close_context (ctx : option handle) (w : World) : World :=
  match ctx with
  | Some c =>
      match contexts w c with
      | closed => w
      | _ => set_contexts (update (contexts w) c closed) (log (ContextClose c) w)
      end
  | None => w
  end.

Definition teardown_world (session stream inputCtx outputCtx : option handle)
  (sources : list handle) (w : World) : World :=
  let w1 := log_opt SessionClose session w in
  let w2 := log_opt TrackStop stream w1 in
  let w3 := close_context inputCtx w2 in
  let w4 := close_context outputCtx w3 in
  set_trace (trace w4 ++ map SourceStop sources) w4.

(** The state a teardown leaves behind, in each revision. *)
Definition V1_torn_down (a : V1.App) : V1.App :=
  {| V1.messages := V1.messages a; V1.mode := V1.mode a; V1.isActive := false;
     V1.isThinking := V1.isThinking a; V1.inputLevel := Fin 0;
     V1.inputAudioCtxRef := None; V1.outputAudioCtxRef := None; V1.sourcesRef := [];
     V1.nextStartTimeRef := 0%Q; V1.sessionRef := None; V1.streamRef := None;
     V1.currentInputTranscription := V1.currentInputTranscription a;
     V1.currentOutputTranscription := V1.currentOutputTranscription a;
     V1.world := teardown_world (V1.sessionRef a) (V1.streamRef a)
                   (V1.inputAudioCtxRef a) (V1.outputAudioCtxRef a)
                   (V1.sourcesRef a) (V1.world a) |}.

Definition V2_torn_down (a : V2.App) : V2.App :=
  {| V2.messages := V2.messages a; V2.mode := V2.mode a; V2.isActive := false;
     V2.isThinking := V2.isThinking a; V2.isMayaSpeaking := false;
     V2.inputLevel := Fin 0;
     V2.inputAudioCtxRef := None; V2.outputAudioCtxRef := None;
     V2.outputNodeRef := V2.outputNodeRef a; V2.sourcesRef := [];
     V2.nextStartTimeRef := 0%Q; V2.sessionRef := None; V2.streamRef := None;
     V2.world := teardown_world (V2.sessionRef a) (V2.streamRef a)
                   (V2.inputAudioCtxRef a) (V2.outputAudioCtxRef a)
                   (V2.sourcesRef a) (V2.world a) |}.

(** Every resource reference is empty: the state teardown must leave. *)
Definition V1_released (a : V1.App) : Prop :=
  V1.sessionRef a = None /\ V1.streamRef a = None /\
  V1.inputAudioCtxRef a = None /\ V1.outputAudioCtxRef a = None /\
  V1.sourcesRef a = [] /\ V1.nextStartTimeRef a = 0%Q.

Definition V2_released (a : V2.App) : Prop :=
  V2.sessionRef a = None /\ V2.streamRef a = None /\
  V2.inputAudioCtxRef a = None /\ V2.outputAudioCtxRef a = None /\
  V2.sourcesRef a = [] /\ V2.nextStartTimeRef a = 0%Q.

(** What the handlers of the live session do, as functions on states. *)

(** The payload a part carries, if it is played at all. *)
Definition audio_of (part : Part) : option string :=
  match opt_chain (inlineData part) inline_data with
  | Some b => if truthy_string b then Some b else None
  | None => None
  end.

(** The context is resumed first if it is suspended (earlier revision). *)
Definition resumed (c : handle) (w : World) : World :=
  match contexts w c with
  | suspended => set_contexts (update (contexts w) c running) (log (ContextResume c) w)
  | _ => w
  end.

(** A buffer source is created and started at [start]. *)
Definition started (buf : AudioBuffer) (start : Q) (w : World) : World :=
  log (SourceStart (next_handle w) buf start) (set_next_handle (S (next_handle w)) w).

Definition V1_played (P : Platform) (b : string) (c : handle) (a : V1.App) : V1.App :=
  let w := resumed c (V1.world a) in
  let start := Qmax (V1.nextStartTimeRef a) (currentTime w c) in
  let buf := decodeAudioData P (decode P b) 24000 1 in
  V1.with_sourcesRef (Set_add (next_handle w) (V1.sourcesRef a))
    (V1.with_nextStartTimeRef (double_add start (duration buf))
       (V1.with_world (started buf start w) a)).

Definition V1_play_part (P : Platform) (a : V1.App) (part : Part) : V1.App :=
  match audio_of part, V1.outputAudioCtxRef a with
  | Some b, Some c => V1_played P b c a
  | _, _ => a
  end.

Definition V2_played (P : Platform) (b : string) (c : handle) (a : V2.App) : V2.App :=
  let w := V2.world a in
  let start := Qmax (V2.nextStartTimeRef a) (currentTime w c) in
  let buf := decodeAudioData P (decode P b) 24000 1 in
  V2.with_sourcesRef (Set_add (next_handle w) (V2.sourcesRef a))
    (V2.with_nextStartTimeRef (double_add start (duration buf))
       (V2.with_world (started buf start w) (V2.with_isMayaSpeaking true a))).

(** The interruption: every active source is stopped, the set is cleared
    and the cursor is reset. *)
Definition V1_interrupted (a : V1.App) : V1.App :=
  V1.with_nextStartTimeRef 0%Q
    (V1.with_sourcesRef []
       (V1.with_world
          (set_trace (trace (V1.world a) ++ map SourceStop (V1.sourcesRef a)) (V1.world a))
          a)).

Definition V2_interrupted (a : V2.App) : V2.App :=
  V2.with_isMayaSpeaking false
    (V2.with_nextStartTimeRef 0%Q
       (V2.with_sourcesRef []
          (V2.with_world
             (set_trace (trace (V2.world a) ++ map SourceStop (V2.sourcesRef a))
                        (V2.world a))
             a))).

(** The transcript buffers once the fragments of a message are appended. *)
Definition pending_input (sc : option ServerContent) (a : V1.App) : string :=
  match opt_chain sc inputTranscription with
  | Some t => js_concat (V1.currentInputTranscription a) (transcription_text t)
  | None => V1.currentInputTranscription a
  end.

Definition pending_output (sc : option ServerContent) (a : V1.App) : string :=
  match opt_chain sc outputTranscription with
  | Some t => js_concat (V1.currentOutputTranscription a) (transcription_text t)
  | None => V1.currentOutputTranscription a
  end.

(** The messages a turn-complete signal emits from the two buffers. *)
Definition turn_messages (now : Z) (userInput mayaOutput : string) : list Message :=
  (if truthy_string userInput
   then [{| id := None; role := user; text := userInput; timestamp := now;
            imageUrl := None |}]
   else []) ++
  (if truthy_string mayaOutput
   then [{| id := None; role := maya; text := mayaOutput; timestamp := now;
            imageUrl := None |}]
   else []).

Definition parts_of (sc : option ServerContent) : list Part :=
  match opt_chain (opt_chain sc modelTurn) parts with
  | Some ps => ps
  | None => []
  end.

Definition V1_onmessage_result (P : Platform) (message : LiveServerMessage) (a : V1.App)
  : V1.App :=
  let sc := serverContent message in
  let a1 := V1.with_currentOutputTranscription (pending_output sc a)
              (V1.with_currentInputTranscription (pending_input sc a) a) in
  let a2 := if truthy_opt_bool (opt_chain sc turnComplete)
            then V1.with_currentOutputTranscription ""
                   (V1.with_currentInputTranscription ""
                      (V1.with_messages
                         (V1.messages a ++
                          turn_messages (Date_now (V1.world a))
                            (pending_input sc a) (pending_output sc a)) a1))
            else a1 in
  let a3 := fold_left (V1_play_part P) (parts_of sc) a2 in
  if truthy_opt_bool (opt_chain sc interrupted) then V1_interrupted a3 else a3.

(** A message that carries one audio chunk and nothing else. *)
Definition audio_message (b : string) : LiveServerMessage :=
  {| serverContent := Some
       {| inputTranscription := None; outputTranscription := None;
          turnComplete := None;
          modelTurn := Some {| parts := Some [{| inlineData :=
                                 Some {| inline_data := Some b |} |}] |};
          interrupted := None |} |}.

(** The same message without the interruption signal. *)
Definition without_interruption (message : LiveServerMessage) : LiveServerMessage :=
  {| serverContent :=
       match serverContent message with
       | Some sc =>
           Some {| inputTranscription := inputTranscription sc;
                   outputTranscription := outputTranscription sc;
                   turnComplete := turnComplete sc;
                   modelTurn := modelTurn sc;
                   interrupted := None |}
       | None => None
       end |}.

(** Playing audio and handling an interruption leave the journal and the
    transcript buffers alone. *)
Definition same_journal (a b : V1.App) : Prop :=
  V1.messages b = V1.messages a /\
  V1.currentInputTranscription b = V1.currentInputTranscription a /\
  V1.currentOutputTranscription b = V1.currentOutputTranscription a.

(** [message.serverContent?.modelTurn?.parts?.[0]?.inlineData?.data], where
    it is a non-empty string. *)
Definition first_audio (sc : option ServerContent) : option string :=
  match opt_chain (opt_chain (opt_chain (opt_chain (opt_chain sc modelTurn) parts)
                                        (fun ps => nth_error ps 0)) inlineData) inline_data
  with
  | Some b => if truthy_string b then Some b else None
  | None => None
  end.

Definition V2_onmessage_result (P : Platform) (outputCtx : handle)
  (message : LiveServerMessage) (a : V2.App) : V2.App :=
  let sc := serverContent message in
  let a1 := match first_audio sc with
            | Some b => V2_played P b outputCtx a
            | None => a
            end in
  if truthy_opt_bool (opt_chain sc interrupted) then V2_interrupted a1 else a1.

(** The audio clock of context [c] reads [now]. *)
Definition set_clock (c : handle) (now : Q) (w : World) : World :=
  set_currentTime (update (currentTime w) c now) w.

(** What the player receives between two interruptions: audio chunks, each
    at some reading of the output clock, and the end of sources. *)
Inductive PlayerEvent : Type :=
| Chunk (now : Q) (b : string)
| Ended (source : handle).

Section Receive.
Variable P : Platform.
Variable c : handle.
Local Open Scope js_scope.

Fixpoint V1_receive (events : list PlayerEvent) : M V1.App unit :=
  match events with
  | [] => ret tt
  | Chunk now b :: rest =>
      modify (fun a => V1.with_world (set_clock c now (V1.world a)) a) ;;
      V1.onmessage P (audio_message b) ;;
      V1_receive rest
  | Ended source :: rest =>
      V1.source_onended source ;;
      V1_receive rest
  end.

Fixpoint V2_receive (events : list PlayerEvent) : M V2.App unit :=
  match events with
  | [] => ret tt
  | Chunk now b :: rest =>
      modify (fun a => V2.with_world (set_clock c now (V2.world a)) a) ;;
      V2.onmessage P c (audio_message b) ;;
      V2_receive rest
  | Ended source :: rest =>
      V2.source_onended source ;;
      V2_receive rest
  end.

(** The schedule the specification describes: every chunk starts at
    [max(cursor, now)] and moves the cursor to its end. *)
Fixpoint schedule (cursor : Q) (events : list PlayerEvent) : list (Q * AudioBuffer) :=
  match events with
  | [] => []
  | Chunk now b :: rest =>
      if truthy_string b then
        let start := Qmax cursor now in
        let buf := decodeAudioData P (decode P b) 24000 1 in
        (start, buf) :: schedule (double_add start (duration buf)) rest
      else schedule cursor rest
  | Ended _ :: rest => schedule cursor rest
  end.

End Receive.

(** The start time and buffer of every source started in a trace. *)
Definition starts_of (t : list Effect) : list (Q * AudioBuffer) :=
  flat_map (fun e => match e with
                     | SourceStart _ buf start => [(start, buf)]
                     | _ => []
                     end) t.

(** Every source starts no earlier than the previous one ends (and so no
    earlier than it starts), the end being the exact sum of the start and
    the duration. *)
Fixpoint no_overlap (l : list (Q * AudioBuffer)) : Prop :=
  match l with
  | (s1, b1) :: (((s2, _) :: _) as rest) =>
      (s1 + duration b1 <= s2)%Q /\ (s1 <= s2)%Q /\ no_overlap rest
  | _ => True
  end.

(** The same with the end the program computes: the double nearest to the
    sum of the start and the duration. *)
Fixpoint in_sequence (l : list (Q * AudioBuffer)) : Prop :=
  match l with
  | (s1, b1) :: (((s2, _) :: _) as rest) =>
      (double_add s1 (duration b1) <= s2)%Q /\ (s1 <= s2)%Q /\ in_sequence rest
  | _ => True
  end.

(** Every reading of the clock is a double. *)
Definition read_doubles (events : list PlayerEvent) : Prop :=
  Forall (fun e => match e with
                   | Chunk now _ => is_double now
                   | Ended _ => True
                   end) events.

(** A platform on which every chunk decodes to half a second of audio. *)
Definition half_second_platform : Platform :=
  {| encode := encode reference_platform;
     decode := decode reference_platform;
     decodeAudioData := fun _ _ _ => {| frames := 12; sampleRate := 24 |};
     rms := rms reference_platform;
     API_KEY := API_KEY reference_platform;
     random_id := random_id reference_platform;
     starts_suspended := starts_suspended reference_platform;
     session_close_throws := session_close_throws reference_platform;
     source_stop_throws := source_stop_throws reference_platform;
     microphone_granted := microphone_granted reference_platform;
     handshake_succeeds := handshake_succeeds reference_platform;
     MODELS_IMAGE := MODELS_IMAGE reference_platform |}.

(** A rejection that carries a status code as its message:
    [{ message: 429 }]. *)
Definition status_429 : Exn :=
  {| message := Num (Fin 429); exn_string := "[object Object]"%string |}.

(** Two chunks received when the clock of the output context reads one
    render quantum (128 frames at 24 kHz), as a double. *)
Definition after_one_quantum : list PlayerEvent :=
  [Chunk (round_double (128 # 24000)) "ab"; Chunk (round_double (128 # 24000)) "cd"].

(** States and messages used to run the handlers on concrete inputs. *)
Definition V1_playing : V1.App :=
  V1.with_sourcesRef [3%nat; 4%nat]
    (V1.with_nextStartTimeRef 5%Q
       (V1.with_outputAudioCtxRef (Some 0%nat) (V1.initial empty_world))).

Definition only_interrupted : ServerContent :=
  {| inputTranscription := None; outputTranscription := None; turnComplete := None;
     modelTurn := None; interrupted := Some true |}.

(** A message that carries one chunk and the interruption signal. *)
Definition interrupted_chunk : ServerContent :=
  {| inputTranscription := None; outputTranscription := None; turnComplete := None;
     modelTurn := Some {| parts := Some [{| inlineData :=
                            Some {| inline_data := Some "ab"%string |} |}] |};
     interrupted := Some true |}.

(** ** Resources that are live along a trace *)

(** A kind of resource: the call that acquires one and the call that
    releases one. *)
Record Resource : Type := {
  acquired : Effect -> option handle;
  released : Effect -> option handle
}.

Definition microphones : Resource :=
  {| acquired := fun e => match e with GetUserMedia m => Some m | _ => None end;
     released := fun e => match e with TrackStop m => Some m | _ => None end |}.

Definition sessions : Resource :=
  {| acquired := fun e => match e with Connect s _ => Some s | _ => None end;
     released := fun e => match e with SessionClose s => Some s | _ => None end |}.

Definition live_step (r : Resource) (live : list handle) (e : Effect) : list handle :=
  match acquired r e with
  | Some h => Set_add h live
  | None => match released r e with
            | Some h => Set_delete h live
            | None => live
            end
  end.

(** The resources live after the calls of [t], from those live before. *)
Definition live_from (r : Resource) (live : list handle) (t : list Effect) : list handle :=
  fold_left (live_step r) t live.

Definition live_after (r : Resource) (t : list Effect) : list handle :=
  live_from r [] t.

Definition option_list {A} (o : option A) : list A :=
  match o with Some x => [x] | None => [] end.

(** The calls a teardown makes, in order. *)
Definition closing (c : option handle) (w : World) : list Effect :=
  match c with
  | Some h => match contexts w h with closed => [] | _ => [ContextClose h] end
  | None => []
  end.

Definition teardown_events (session stream inputCtx outputCtx : option handle)
  (sources : list handle) (w : World) : list Effect :=
  map SessionClose (option_list session) ++
  map TrackStop (option_list stream) ++
  closing inputCtx w ++
  closing outputCtx (close_context inputCtx w) ++
  map SourceStop sources.

Definition V2_teardown_events (a : V2.App) : list Effect :=
  teardown_events (V2.sessionRef a) (V2.streamRef a) (V2.inputAudioCtxRef a)
    (V2.outputAudioCtxRef a) (V2.sourcesRef a) (V2.world a).

Definition V1_teardown_events (a : V1.App) : list Effect :=
  teardown_events (V1.sessionRef a) (V1.streamRef a) (V1.inputAudioCtxRef a)
    (V1.outputAudioCtxRef a) (V1.sourcesRef a) (V1.world a).

(** The state holds what is live, and nothing else is: the invariant of the
    session lifecycle. *)
Definition V2_consistent (a : V2.App) : Prop :=
  live_after microphones (trace (V2.world a)) = option_list (V2.streamRef a) /\
  live_after sessions (trace (V2.world a)) = option_list (V2.sessionRef a).

Definition V1_consistent (a : V1.App) : Prop :=
  live_after microphones (trace (V1.world a)) = option_list (V1.streamRef a) /\
  live_after sessions (trace (V1.world a)) = option_list (V1.sessionRef a).

(** How many calls of a trace acquire a resource of kind [r]. *)
Definition acquisitions (r : Resource) (t : list Effect) : nat :=
  List.length (filter (fun e => match acquired r e with Some _ => true | None => false end) t).

(** A call that neither acquires nor releases a resource of kind [r]. *)
Definition foreign (r : Resource) (e : Effect) : Prop :=
  acquired r e = None /\ released r e = None.

(** The stages of [startLiveSession] in the later revision, as functions on
    states: the contexts and the gain node are created on the torn-down
    state, then the microphone stream is acquired, then the session is
    connected and the capture graph is wired. *)
Definition new_context (P : Platform) (rate : Z) (w : World) : World :=
  set_contexts
    (update (contexts w) (next_handle w)
       (if starts_suspended P (next_handle w) then suspended else running))
    (set_currentTime (update (currentTime w) (next_handle w) 0%Q)
       (log (ContextNew (next_handle w) rate) (set_next_handle (S (next_handle w)) w))).

Definition V2_acquiring (P : Platform) (a : V2.App) : V2.App :=
  let a0 := V2_torn_down a in
  let w0 := V2.world a0 in
  let w1 := new_context P 16000 w0 in
  let w2 := new_context P 24000 w1 in
  V2.with_outputNodeRef (Some (next_handle w2))
    (V2.with_world (set_next_handle (S (next_handle w2)) w2)
       (V2.with_outputAudioCtxRef (Some (next_handle w1))
          (V2.with_inputAudioCtxRef (Some (next_handle w0))
             (V2.with_isActive true a0)))).

Definition V2_with_stream (a : V2.App) : V2.App :=
  let w := V2.world a in
  V2.with_streamRef (Some (next_handle w))
    (V2.with_world (log (GetUserMedia (next_handle w)) (set_next_handle (S (next_handle w)) w))
       a).

Definition V2_connected (P : Platform) (a : V2.App) : V2.App :=
  let w := V2.world a in
  let session := next_handle w in
  let w1 := log (Connect session "Zephyr") (set_next_handle (S session) w) in
  let w2 := match V2.inputAudioCtxRef a, V2.streamRef a with
            | Some inputCtx, Some stream => log (CaptureGraph inputCtx stream) w1
            | _, _ => w1
            end in
  V2.with_sessionRef (Some session)
    (exec (V2.addMessage P maya "[System: Neural Link established. Talk to Maya.]" None)
          (V2.with_world w2 a)).

(** The same for the input context and the stream a call holds in its
    constants, whatever the state refers to by then. *)
Definition V2_opened (P : Platform) (inputCtx stream : handle) (a : V2.App) : V2.App :=
  let w := V2.world a in
  let session := next_handle w in
  let w1 := log (CaptureGraph inputCtx stream)
              (log (Connect session "Zephyr") (set_next_handle (S session) w)) in
  V2.with_sessionRef (Some session)
    (exec (V2.addMessage P maya "[System: Neural Link established. Talk to Maya.]" None)
          (V2.with_world w1 a)).

Definition V2_started (P : Platform) (a : V2.App) : V2.App :=
  let a1 := V2_acquiring P a in
  if microphone_granted P (V2.world a1) then
    let a2 := V2_with_stream a1 in
    if handshake_succeeds P (V2.world a2) then V2_connected P a2
    else V2_torn_down a2
  else V2_torn_down a1.

(** ** The journal panel *)

(** [s.toLowerCase()], on the letters of ASCII. *)
Definition lower (c : ascii) : ascii :=
  let n := nat_of_ascii c in
  if (Nat.leb 65 n && Nat.leb n 90)%bool then ascii_of_nat (n + 32) else c.

Fixpoint toLowerCase (s : string) : string :=
  match s with
  | EmptyString => EmptyString
  | String c rest => String (lower c) (toLowerCase rest)
  end.

(** The [useMemo] of the later revision: the messages shown for a search
    query. *)
Definition filteredMessages (searchQuery : string) (messages : list Message)
  : list Message :=
  if truthy_string searchQuery
  then filter (fun m => includes (toLowerCase (text m)) (toLowerCase searchQuery)) messages
  else messages.

(** The part carries audio that is played. *)
Definition plays (part : Part) : bool :=
  match audio_of part with Some _ => true | None => false end.

(** A platform on which the microphone is refused, and one on which the
    handshake with the service fails. *)
Definition refusing_platform : Platform :=
  {| encode := encode reference_platform;
     decode := decode reference_platform;
     decodeAudioData := decodeAudioData reference_platform;
     rms := rms reference_platform;
     API_KEY := API_KEY reference_platform;
     random_id := random_id reference_platform;
     starts_suspended := starts_suspended reference_platform;
     session_close_throws := session_close_throws reference_platform;
     source_stop_throws := source_stop_throws reference_platform;
     microphone_granted := fun _ => false;
     handshake_succeeds := handshake_succeeds reference_platform;
     MODELS_IMAGE := MODELS_IMAGE reference_platform |}.

Definition offline_platform : Platform :=
  {| encode := encode reference_platform;
     decode := decode reference_platform;
     decodeAudioData := decodeAudioData reference_platform;
     rms := rms reference_platform;
     API_KEY := API_KEY reference_platform;
     random_id := random_id reference_platform;
     starts_suspended := starts_suspended reference_platform;
     session_close_throws := session_close_throws reference_platform;
     source_stop_throws := source_stop_throws reference_platform;
     microphone_granted := microphone_granted reference_platform;
     handshake_succeeds := fun _ => false;
     MODELS_IMAGE := MODELS_IMAGE reference_platform |}.

Definition keyless_platform : Platform :=
  {| encode := encode reference_platform;
     decode := decode reference_platform;
     decodeAudioData := decodeAudioData reference_platform;
     rms := rms reference_platform;
     API_KEY := None;
     random_id := random_id reference_platform;
     starts_suspended := starts_suspended reference_platform;
     session_close_throws := session_close_throws reference_platform;
     source_stop_throws := source_stop_throws reference_platform;
     microphone_granted := microphone_granted reference_platform;
     handshake_succeeds := handshake_succeeds reference_platform;
     MODELS_IMAGE := MODELS_IMAGE reference_platform |}.

(** A journal entry as [addMessage] of the later revision stores it. *)
Definition entry (i : string) (r : Role) (t : string) : Message :=
  {| id := Some i; role := r; text := t; timestamp := 0; imageUrl := None |}.

(** The later revision holding a journal. *)
Definition V2_with_journal (ms : list Message) : V2.App :=
  V2.with_messages ms (V2.initial reference_platform empty_world).

(** The journal renders an entry as a system note when its text starts
    with [[System:]. *)
Definition system_styled (m : Message) : bool := prefix_of "[System:" (text m).

(** The earlier revision in Search mode with a request in flight. *)
Definition V1_busy : V1.App :=
  V1.with_isThinking true (V1.with_mode V1.SEARCH (V1.initial empty_world)).

(** A message that only carries the turn-complete signal. *)
Definition turn_complete_message : LiveServerMessage :=
  {| serverContent := Some
       {| inputTranscription := None; outputTranscription := None;
          turnComplete := Some true; modelTurn := None; interrupted := None |} |}.

(** The later revision with a live session, started on the reference
    platform. *)
Definition V2_live : V2.App :=
  exec (V2.startLiveSession reference_platform) (V2.initial reference_platform empty_world).

(** The stages of [startLiveSession] in the earlier revision, as functions
    on states: the two contexts are created (and resumed where the browser
    created them suspended) on the state as it is, then the microphone
    stream is acquired, then the session is connected and the capture
    graph is wired. *)
Definition V1_contexts (P : Platform) (a : V1.App) : V1.App :=
  let w0 := V1.world a in
  let w1 := new_context P 16000 w0 in
  let w2 := new_context P 24000 w1 in
  let w3 := resumed (next_handle w0) w2 in
  V1.with_world w3
    (V1.with_outputAudioCtxRef (Some (next_handle w1))
       (V1.with_inputAudioCtxRef (Some (next_handle w0))
          (V1.with_isActive true a))).

Definition V1_acquiring (P : Platform) (a : V1.App) : V1.App :=
  let w0 := V1.world a in
  let w1 := new_context P 16000 w0 in
  let w2 := new_context P 24000 w1 in
  let w3 := resumed (next_handle w0) w2 in
  let w4 := resumed (next_handle w1) w3 in
  V1.with_world w4
    (V1.with_outputAudioCtxRef (Some (next_handle w1))
       (V1.with_inputAudioCtxRef (Some (next_handle w0))
          (V1.with_isActive true a))).

Definition V1_with_stream (a : V1.App) : V1.App :=
  let w := V1.world a in
  V1.with_streamRef (Some (next_handle w))
    (V1.with_world (log (GetUserMedia (next_handle w)) (set_next_handle (S (next_handle w)) w))
       a).

Definition V1_connected (a : V1.App) : V1.App :=
  let w := V1.world a in
  let session := next_handle w in
  let w1 := log (Connect session "Kore") (set_next_handle (S session) w) in
  let w2 := match V1.inputAudioCtxRef a, V1.streamRef a with
            | Some inputCtx, Some stream => log (CaptureGraph inputCtx stream) w1
            | _, _ => w1
            end in
  V1.with_sessionRef (Some session) (V1.with_world w2 a).

Definition V1_started (P : Platform) (a : V1.App) : V1.App :=
  let a1 := V1_acquiring P a in
  if microphone_granted P (V1.world a1) then
    let a2 := V1_with_stream a1 in
    if handshake_succeeds P (V1.world a2) then V1_connected a2
    else V1_torn_down a2
  else V1_torn_down a1.

(** The earlier revision with a live session, started on the reference
    platform. *)
Definition V1_live : V1.App :=
  exec (V1.startLiveSession reference_platform) (V1.initial empty_world).

(** The calls of the player: a source is started or stopped. *)
Definition player_call (e : Effect) : bool :=
  match e with
  | SourceStart _ _ _ | SourceStop _ => true
  | _ => false
  end.

(** * Properties *)

(** ** Double-precision rounding *)

Section Doubles.
Local Open Scope Q_scope.

Lemma pow2_pos (k : Z) : 0 < 2 ^ k.
Proof. apply Qpower_0_lt. reflexivity. Qed.

Lemma pow2_le (a b : Z) : (a <= b)%Z -> 2 ^ a <= 2 ^ b.
Proof. intro H. apply Qpower_le_compat_l; [exact H | discriminate]. Qed.

Lemma pow2_lt (a b : Z) : (a < b)%Z -> 2 ^ a < 2 ^ b.
Proof. intro H. apply Qpower_lt_compat_l; [exact H | reflexivity]. Qed.

Lemma pow2_Z (a : Z) : (0 <= a)%Z -> 2 ^ a == inject_Z (2 ^ a).
Proof. intro H. symmetry. apply (Zpower_Qpower 2 a H). Qed.

Lemma pow2_plus (a b : Z) : 2 ^ (a + b) == 2 ^ a * 2 ^ b.
Proof. apply Qpower_plus. discriminate. Qed.

Lemma pow2_minus (a b : Z) : 2 ^ (a - b) == 2 ^ a / 2 ^ b.
Proof. apply Qpower_minus. discriminate. Qed.

(** A fraction of two integers with known binary lengths. *)
Lemma fraction_bounds (n : Z) (d : positive) (a b : Z) :
  (0 <= a)%Z -> (0 <= b)%Z ->
  (2 ^ a <= n < 2 ^ (a + 1))%Z -> (2 ^ b <= Z.pos d < 2 ^ (b + 1))%Z ->
  2 ^ (a - b - 1) <= n # d /\ n # d < 2 ^ (a - b + 1).
Proof.
  intros A B [N1 N2] [D1 D2].
  assert (PA : (0 < 2 ^ a)%Z) by (apply Z.pow_pos_nonneg; lia).
  assert (PB : (0 < 2 ^ b)%Z) by (apply Z.pow_pos_nonneg; lia).
  rewrite Z.pow_add_r in N2, D2 by lia. change (2 ^ 1)%Z with 2%Z in N2, D2.
  split.
  - replace (a - b - 1)%Z with (a - (b + 1))%Z by lia. rewrite pow2_minus.
    apply Qle_shift_div_r; [apply pow2_pos |].
    rewrite (@pow2_Z a A), (@pow2_Z (b + 1)) by lia.
    rewrite Z.pow_add_r by lia. change (2 ^ 1)%Z with 2%Z.
    unfold Qle. cbn [Qnum Qden Qmult inject_Z]. nia.
  - replace (a - b + 1)%Z with (a + 1 - b)%Z by lia. rewrite pow2_minus.
    apply Qlt_shift_div_l; [apply pow2_pos |].
    rewrite (@pow2_Z b B), (@pow2_Z (a + 1)) by lia.
    rewrite Z.pow_add_r by lia. change (2 ^ 1)%Z with 2%Z.
    unfold Qlt. cbn [Qnum Qden Qmult inject_Z]. nia.
Qed.

Lemma Qlog2_spec (x : Q) : 0 < x -> 2 ^ Qlog2 x <= x /\ x < 2 ^ (Qlog2 x + 1).
Proof.
  intro P. destruct x as [n d].
  assert (N : (0 < n)%Z) by (unfold Qlt in P; cbn in P; lia).
  pose proof (Z.log2_spec n N) as Sn.
  pose proof (Z.log2_spec (Z.pos d) (Pos2Z.is_pos d)) as Sd.
  pose proof (Z.log2_nonneg n) as An.
  pose proof (Z.log2_nonneg (Z.pos d)) as Ad.
  rewrite <- !Z.add_1_r in Sn, Sd.
  destruct (@fraction_bounds n d _ _ An Ad Sn Sd) as [Lo Hi].
  unfold Qlog2. cbn [Qnum Qden].
  destruct (Qle_bool (2 ^ (Z.log2 n - Z.log2 (Z.pos d))) (n # d)) eqn:E.
  - apply Qle_bool_iff in E. split; [exact E | exact Hi].
  - split; [exact Lo |].
    replace (Z.log2 n - Z.log2 (Z.pos d) - 1 + 1)%Z
      with (Z.log2 n - Z.log2 (Z.pos d))%Z by lia.
    apply Qnot_le_lt. intro H. apply Qle_bool_iff in H. congruence.
Qed.

Lemma Qlog2_unique (x : Q) (k : Z) :
  2 ^ k <= x -> x < 2 ^ (k + 1) -> Qlog2 x = k.
Proof.
  intros Lo Hi.
  assert (P : 0 < x) by (eapply Qlt_le_trans; [apply (pow2_pos k) | exact Lo]).
  destruct (@Qlog2_spec x P) as [Lo' Hi'].
  destruct (Z.lt_trichotomy (Qlog2 x) k) as [H | [H | H]]; [| exact H |].
  - exfalso. assert (2 ^ (Qlog2 x + 1) <= 2 ^ k) by (apply pow2_le; lia).
    apply (Qlt_irrefl x). eapply Qlt_le_trans; [exact Hi' |].
    eapply Qle_trans; eassumption.
  - exfalso. assert (2 ^ (k + 1) <= 2 ^ Qlog2 x) by (apply pow2_le; lia).
    apply (Qlt_irrefl x). eapply Qlt_le_trans; [exact Hi |].
    eapply Qle_trans; eassumption.
Qed.

Lemma Qlog2_comp (x y : Q) : 0 < x -> x == y -> Qlog2 x = Qlog2 y.
Proof.
  intros P E. destruct (@Qlog2_spec x P) as [Lo Hi]. symmetry.
  apply Qlog2_unique; now rewrite <- E.
Qed.

Lemma Qlog2_mono (x y : Q) : 0 < x -> x <= y -> (Qlog2 x <= Qlog2 y)%Z.
Proof.
  intros P L.
  assert (Py : 0 < y) by (eapply Qlt_le_trans; eassumption).
  destruct (@Qlog2_spec x P) as [Lo _]. destruct (@Qlog2_spec y Py) as [_ Hi].
  destruct (Z.le_gt_cases (Qlog2 x) (Qlog2 y)) as [H | H]; [exact H |].
  exfalso. assert (2 ^ (Qlog2 y + 1) <= 2 ^ Qlog2 x) by (apply pow2_le; lia).
  apply (Qlt_irrefl y). eapply Qlt_le_trans; [exact Hi |].
  eapply Qle_trans; [eassumption |]. eapply Qle_trans; eassumption.
Qed.

(** Rounding to the nearest integer, ties to even. *)
Lemma round_half_even_comp (p q : Q) : p == q -> round_half_even p = round_half_even q.
Proof.
  intro E. unfold round_half_even. rewrite (Qfloor_comp p q E).
  assert (C : (p - inject_Z (Qfloor q) ?= 1 # 2) = (q - inject_Z (Qfloor q) ?= 1 # 2))
    by (apply Qcompare_comp; [now rewrite E | reflexivity]).
  now rewrite C.
Qed.

Lemma round_half_even_near (q : Q) :
  (Qfloor q <= round_half_even q <= Qfloor q + 1)%Z.
Proof.
  unfold round_half_even.
  destruct (q - inject_Z (Qfloor q) ?= 1 # 2); [destruct (Z.even (Qfloor q)) | |]; lia.
Qed.

Lemma round_half_even_half (q : Q) :
  q - (1 # 2) <= inject_Z (round_half_even q) /\
  inject_Z (round_half_even q) <= q + (1 # 2).
Proof.
  pose proof (Qfloor_le q) as L. pose proof (Qlt_floor q) as U.
  rewrite inject_Z_plus in U. change (inject_Z 1) with 1 in U.
  unfold round_half_even.
  destruct (Qcompare_spec (q - inject_Z (Qfloor q)) (1 # 2)) as [H | H | H].
  - destruct (Z.even (Qfloor q)).
    + split; lra.
    + rewrite inject_Z_plus. change (inject_Z 1) with 1. split; lra.
  - split; lra.
  - rewrite inject_Z_plus. change (inject_Z 1) with 1. split; lra.
Qed.

Lemma round_half_even_Z (z : Z) : round_half_even (inject_Z z) = z.
Proof.
  unfold round_half_even. rewrite Qfloor_Z.
  destruct (Qcompare_spec (inject_Z z - inject_Z z) (1 # 2)) as [H | H | H].
  - exfalso. lra.
  - reflexivity.
  - exfalso. lra.
Qed.

Lemma round_half_even_mono (p q : Q) : p <= q -> (round_half_even p <= round_half_even q)%Z.
Proof.
  intro L. pose proof (Qfloor_resp_le p q L) as F.
  pose proof (round_half_even_near p) as Np.
  pose proof (round_half_even_near q) as Nq.
  destruct (Z.eq_dec (Qfloor p) (Qfloor q)) as [E | N]; [| lia].
  unfold round_half_even. rewrite E.
  destruct (Qcompare_spec (p - inject_Z (Qfloor q)) (1 # 2)) as [H1 | H1 | H1];
    destruct (Qcompare_spec (q - inject_Z (Qfloor q)) (1 # 2)) as [H2 | H2 | H2];
    try lia; try (destruct (Z.even (Qfloor q)); lia); exfalso; lra.
Qed.

Lemma round_half_even_lower (q : Q) (n : Z) : inject_Z n <= q -> (n <= round_half_even q)%Z.
Proof.
  intro H. rewrite <- (round_half_even_Z n). now apply round_half_even_mono.
Qed.

Lemma round_half_even_upper (q : Q) (n : Z) : q <= inject_Z n -> (round_half_even q <= n)%Z.
Proof.
  intro H. rewrite <- (round_half_even_Z n). now apply round_half_even_mono.
Qed.

End Doubles.

Section Rounding.
Local Open Scope Q_scope.

Lemma round_double_eq (x : Q) :
  ~ x == 0 ->
  round_double x
  == inject_Z (round_half_even (x / 2 ^ ulp_exponent x)) * 2 ^ ulp_exponent x.
Proof.
  intro N. unfold round_double. destruct (Qeq_bool x 0) eqn:E.
  - apply Qeq_bool_iff in E. contradiction.
  - cbv zeta. apply Qred_correct.
Qed.

Lemma round_double_zero (x : Q) : x == 0 -> round_double x = 0.
Proof.
  intro E. unfold round_double. apply Qeq_bool_iff in E. now rewrite E.
Qed.

(** Rounding moves a number by half a unit in the last place at most. *)
Lemma round_double_within (x : Q) :
  x - 2 ^ ulp_exponent x / 2 <= round_double x /\
  round_double x <= x + 2 ^ ulp_exponent x / 2.
Proof.
  pose proof (pow2_pos (ulp_exponent x)) as U.
  destruct (Qeq_dec x 0) as [Z | NZ].
  - rewrite (round_double_zero Z).
    assert (H : 0 <= 2 ^ ulp_exponent x / 2) by (apply Qle_shift_div_l; lra).
    split; lra.
  - rewrite (round_double_eq NZ).
    set (u := 2 ^ ulp_exponent x) in *.
    destruct (round_half_even_half (x / u)) as (L & H).
    set (k := inject_Z (round_half_even (x / u))) in *.
    assert (E : x == x / u * u) by (field; lra).
    assert (L' : (x / u - (1 # 2)) * u <= k * u) by (apply Qmult_le_compat_r; lra).
    assert (H' : k * u <= (x / u + (1 # 2)) * u) by (apply Qmult_le_compat_r; lra).
    assert (D : u / 2 == (1 # 2) * u) by (field; lra).
    rewrite D. split.
    + setoid_replace (x - (1 # 2) * u) with ((x / u - (1 # 2)) * u); [exact L' |].
      rewrite E at 1. ring.
    + setoid_replace (x + (1 # 2) * u) with ((x / u + (1 # 2)) * u); [exact H' |].
      rewrite E at 1. ring.
Qed.

Lemma ulp_exponent_pos (x : Q) :
  0 < x -> ulp_exponent x = Z.max (-1074) (Qlog2 x - 52).
Proof.
  intro P. unfold ulp_exponent.
  assert (A : Qabs x == x) by (apply Qabs_pos; now apply Qlt_le_weak).
  rewrite (@Qlog2_comp (Qabs x) x); [reflexivity | now rewrite A | exact A].
Qed.

Lemma pow2_53 : 2 ^ 53 == inject_Z (2 ^ 53).
Proof. apply pow2_Z. lia. Qed.

Lemma pow2_52 : 2 ^ 52 == inject_Z (2 ^ 52).
Proof. apply pow2_Z. lia. Qed.

(** The exponent and the significand of the double nearest to a positive
    number. *)
Lemma significand_bounds (x : Q) :
  0 < x ->
  (-1074 <= ulp_exponent x)%Z /\
  (0 <= round_half_even (x / 2 ^ ulp_exponent x) <= 2 ^ 53)%Z /\
  x < 2 ^ (ulp_exponent x + 53) /\
  ((-1074 < ulp_exponent x)%Z ->
   (2 ^ 52 <= round_half_even (x / 2 ^ ulp_exponent x))%Z /\
   2 ^ (ulp_exponent x + 52) <= x).
Proof.
  intro P. rewrite (ulp_exponent_pos P).
  destruct (Qlog2_spec P) as [Lo Hi].
  set (e := Z.max (-1074) (Qlog2 x - 52)).
  assert (E1 : (-1074 <= e)%Z) by (subst e; lia).
  assert (E2 : (Qlog2 x - 52 <= e)%Z) by (subst e; lia).
  assert (Up : x < 2 ^ (e + 53)).
  { eapply Qlt_le_trans; [exact Hi |]. apply pow2_le. lia. }
  pose proof (pow2_pos e) as Pe.
  split; [exact E1 |]. split; [split |]. 
  - apply round_half_even_lower. apply Qle_shift_div_l; [exact Pe |].
    rewrite Qmult_0_l. now apply Qlt_le_weak.
  - apply round_half_even_upper. apply Qle_shift_div_r; [exact Pe |].
    rewrite <- pow2_53, <- pow2_plus. apply Qlt_le_weak.
    now replace (53 + e)%Z with (e + 53)%Z by lia.
  - split; [exact Up |]. intro N.
    assert (E3 : e = (Qlog2 x - 52)%Z) by (subst e; lia).
    assert (Low : 2 ^ (e + 52) <= x).
    { replace (e + 52)%Z with (Qlog2 x) by lia. exact Lo. }
    split; [| exact Low].
    apply round_half_even_lower. apply Qle_shift_div_l; [exact Pe |].
    rewrite <- pow2_52, <- pow2_plus.
    now replace (52 + e)%Z with (e + 52)%Z by lia.
Qed.

Lemma inject_Z_le (a b : Z) : (a <= b)%Z -> inject_Z a <= inject_Z b.
Proof. intro H. now rewrite <- Zle_Qle. Qed.

Lemma inject_Z_lt (a b : Z) : (a < b)%Z -> inject_Z a < inject_Z b.
Proof. intro H. now rewrite <- Zlt_Qlt. Qed.

Lemma round_double_nonneg (x : Q) : 0 <= x -> 0 <= round_double x.
Proof.
  intro N. destruct (Qeq_dec x 0) as [Z | NZ].
  - rewrite (round_double_zero Z). apply Qle_refl.
  - assert (P : 0 < x) by (apply Qle_lteq in N; destruct N as [N | N];
      [exact N | exfalso; apply NZ; now symmetry]).
    rewrite (round_double_eq NZ).
    destruct (significand_bounds P) as (_ & [M _] & _).
    apply Qmult_le_0_compat; [now apply (@inject_Z_le 0) |].
    apply Qlt_le_weak, pow2_pos.
Qed.

(** Rounding is monotone. *)
Lemma round_double_mono (x y : Q) :
  0 <= x -> x <= y -> round_double x <= round_double y.
Proof.
  intros N L.
  assert (Ny : 0 <= y) by (eapply Qle_trans; eassumption).
  destruct (Qeq_dec x 0) as [Z | NZ].
  { rewrite (round_double_zero Z). now apply round_double_nonneg. }
  assert (P : 0 < x) by (apply Qle_lteq in N; destruct N as [N | N];
    [exact N | exfalso; apply NZ; now symmetry]).
  assert (Py : 0 < y) by (eapply Qlt_le_trans; eassumption).
  assert (NZy : ~ y == 0) by (intro H; rewrite H in Py; discriminate).
  rewrite (round_double_eq NZ), (round_double_eq NZy).
  destruct (significand_bounds P) as (E1 & [M0 M1] & _ & _).
  destruct (significand_bounds Py) as (_ & _ & _ & Normal).
  assert (Le : (ulp_exponent x <= ulp_exponent y)%Z).
  { rewrite (ulp_exponent_pos P), (ulp_exponent_pos Py).
    pose proof (Qlog2_mono P L). lia. }
  set (ex := ulp_exponent x) in *. set (ey := ulp_exponent y) in *.
  destruct (Z.eq_dec ex ey) as [Same | Diff].
  - rewrite <- Same. apply Qmult_le_compat_r; [| apply Qlt_le_weak, pow2_pos].
    apply inject_Z_le. apply round_half_even_mono.
    unfold Qdiv. apply Qmult_le_compat_r; [exact L |].
    apply Qlt_le_weak, Qinv_lt_0_compat, pow2_pos.
  - destruct (Normal ltac:(lia)) as [M2 _].
    apply Qle_trans with (inject_Z (2 ^ 53) * 2 ^ ex).
    { apply Qmult_le_compat_r; [now apply inject_Z_le | apply Qlt_le_weak, pow2_pos]. }
    apply Qle_trans with (inject_Z (2 ^ 52) * 2 ^ ey).
    { rewrite <- pow2_53, <- pow2_52, <- !pow2_plus. apply pow2_le. lia. }
    apply Qmult_le_compat_r; [now apply inject_Z_le | apply Qlt_le_weak, pow2_pos].
Qed.

Lemma round_double_comp (x y : Q) :
  0 <= x -> x == y -> round_double x == round_double y.
Proof.
  intros N E. apply Qle_antisym; apply round_double_mono; rewrite <- ?E; try exact N;
    rewrite E; apply Qle_refl.
Qed.

(** A number on the grid of the doubles is its own rounding. *)
Lemma round_double_grid (m e : Z) (y : Q) :
  (0 < m <= 2 ^ 53)%Z -> (-1074 <= e)%Z ->
  ((-1074 < e)%Z -> (2 ^ 52 <= m)%Z) ->
  y == inject_Z m * 2 ^ e ->
  round_double y == y.
Proof.
  intros [M0 M1] E1 Normal Y.
  pose proof (pow2_pos e) as Pe.
  assert (Py : 0 < y).
  { rewrite Y. apply Qmult_lt_0_compat; [| exact Pe].
    now apply (@inject_Z_lt 0). }
  assert (NZ : ~ y == 0) by (intro H; rewrite H in Py; discriminate).
  pose proof (Z.log2_spec m M0) as [L0 L1]. rewrite <- Z.add_1_r in L1.
  pose proof (Z.log2_nonneg m) as Ln.
  assert (Lg : Qlog2 y = (Z.log2 m + e)%Z).
  { apply Qlog2_unique; rewrite Y.
    - rewrite pow2_plus, (@pow2_Z (Z.log2 m) Ln).
      apply Qmult_le_compat_r; [now apply inject_Z_le | now apply Qlt_le_weak].
    - replace (Z.log2 m + e + 1)%Z with (Z.log2 m + 1 + e)%Z by lia.
      rewrite pow2_plus, (@pow2_Z (Z.log2 m + 1)) by lia.
      apply Qmult_lt_compat_r; [exact Pe |]. now apply inject_Z_lt. }
  rewrite (round_double_eq NZ), (ulp_exponent_pos Py), Lg.
  destruct (Z.eq_dec m (2 ^ 53)) as [Top | Below].
  - assert (L53 : Z.log2 m = 53%Z) by (rewrite Top; reflexivity).
    rewrite L53. replace (Z.max (-1074) (53 + e - 52)) with (e + 1)%Z by lia.
    assert (D : y / 2 ^ (e + 1) == inject_Z (2 ^ 52)).
    { rewrite Y, Top, pow2_plus. change (2 ^ 1) with 2.
      change (inject_Z (2 ^ 53)) with (inject_Z (2 ^ 52) * 2).
      field. intro H. rewrite H in Pe. discriminate. }
    rewrite (round_half_even_comp D), round_half_even_Z, Y, Top, pow2_plus.
    change (2 ^ 1) with 2. change (inject_Z (2 ^ 53)) with (inject_Z (2 ^ 52) * 2).
    ring.
  - assert (L52 : (Z.log2 m < 53)%Z) by (apply Z.log2_lt_pow2; lia).
    assert (Ex : Z.max (-1074) (Z.log2 m + e - 52) = e).
    { destruct (Z.eq_dec e (-1074)) as [Sub | Nor]; [lia |].
      assert (52 <= Z.log2 m)%Z by (apply Z.log2_le_pow2; [lia | apply Normal; lia]).
      lia. }
    rewrite Ex.
    assert (D : y / 2 ^ e == inject_Z m).
    { rewrite Y. field. intro H. rewrite H in Pe. discriminate. }
    rewrite (round_half_even_comp D), round_half_even_Z. now rewrite Y.
Qed.

(** Rounding twice is rounding once: the rounding of a number is a double. *)
Lemma round_double_idem (x : Q) : 0 <= x -> is_double (round_double x).
Proof.
  intro N. unfold is_double. destruct (Qeq_dec x 0) as [Z | NZ].
  { rewrite (round_double_zero Z). reflexivity. }
  assert (P : 0 < x) by (apply Qle_lteq in N; destruct N as [N | N];
    [exact N | exfalso; apply NZ; now symmetry]).
  destruct (significand_bounds P) as (E1 & [M0 M1] & _ & Normal).
  pose proof (round_double_eq NZ) as Y.
  destruct (Z.eq_dec (round_half_even (x / 2 ^ ulp_exponent x)) 0) as [Zero | Pos].
  - rewrite Zero in Y. rewrite Qmult_0_l in Y. now rewrite (round_double_zero Y), Y.
  - apply (@round_double_grid (round_half_even (x / 2 ^ ulp_exponent x))
             (ulp_exponent x)); [lia | exact E1 | | exact Y].
    intro H. now destruct (Normal H).
Qed.

Lemma is_double_zero : is_double 0.
Proof. reflexivity. Qed.

Lemma is_double_max (a b : Q) : is_double a -> is_double b -> is_double (Qmax a b).
Proof.
  intros A B. unfold Qmax, GenericMinMax.gmax. destruct (a ?= b); assumption.
Qed.

(** Adding a duration to a double never gives less than the double. *)
Lemma double_add_ge (x y : Q) :
  0 <= x -> is_double x -> 0 <= y -> x <= double_add x y.
Proof.
  intros N D Ny. unfold double_add. unfold is_double in D. rewrite <- D at 1.
  apply round_double_mono; [exact N | lra].
Qed.

End Rounding.


(** ** The PCM encoder *)

Section Truncation.

Lemma truncate_comp (p q : Q) : (p == q)%Q -> truncate p = truncate q.
Proof.
  unfold Qeq, truncate. destruct p as [a b], q as [c d]; simpl. intro E.
  rewrite <- (Z.quot_mul_cancel_r a (Z.pos b) (Z.pos d)) by lia.
  rewrite <- (Z.quot_mul_cancel_r c (Z.pos d) (Z.pos b)) by lia.
  rewrite E. f_equal. lia.
Qed.

Lemma truncate_le (p q : Q) : (p <= q)%Q -> truncate p <= truncate q.
Proof.
  unfold Qle, truncate. destruct p as [a b], q as [c d]; simpl. intro L.
  rewrite <- (Z.quot_mul_cancel_r a (Z.pos b) (Z.pos d)) by lia.
  rewrite <- (Z.quot_mul_cancel_r c (Z.pos d) (Z.pos b)) by lia.
  replace (Z.pos d * Z.pos b) with (Z.pos b * Z.pos d) by lia.
  apply Z.quot_le_mono; lia.
Qed.

Lemma truncate_inject_Z (z : Z) : truncate (inject_Z z) = z.
Proof. unfold truncate; simpl. apply Z.quot_1_r. Qed.

Lemma truncate_lower (z : Z) (q : Q) : (inject_Z z <= q)%Q -> z <= truncate q.
Proof. intro L. apply truncate_le in L. now rewrite truncate_inject_Z in L. Qed.

Lemma truncate_upper (z : Z) (q : Q) : (q <= inject_Z z)%Q -> truncate q <= z.
Proof. intro L. apply truncate_le in L. now rewrite truncate_inject_Z in L. Qed.

Lemma ToInt16_small (q : Q) :
  -32768 <= truncate q <= 32767 -> ToInt16 (Fin q) = truncate q.
Proof.
  intro B. unfold ToInt16. cbv zeta.
  destruct (Z_lt_le_dec (truncate q) 0) as [N | N].
  - assert (E : truncate q mod 65536 = truncate q + 65536).
    { symmetry. apply (Z.mod_unique _ _ (-1)); lia. }
    rewrite E. destruct (Z.leb_spec 32768 (truncate q + 65536)); lia.
  - rewrite Z.mod_small by lia.
    destruct (Z.leb_spec 32768 (truncate q)); lia.
Qed.

Lemma ToInt16_range (x : number) : -32768 <= ToInt16 x <= 32767.
Proof.
  destruct x as [| s | q]; simpl; try lia.
  pose proof (Z.mod_pos_bound (truncate q) 65536 ltac:(lia)).
  destruct (Z.leb_spec 32768 (truncate q mod 65536)); lia.
Qed.

Lemma truncate_Qmin (b : Z) (x : Q) :
  truncate (Qmin (inject_Z b) x) = Z.min b (truncate x).
Proof.
  destruct (Q.min_spec (inject_Z b) x) as [[L E] | [L E]];
    rewrite (truncate_comp E).
  - rewrite truncate_inject_Z.
    apply Qlt_le_weak, truncate_le in L. rewrite truncate_inject_Z in L. lia.
  - apply truncate_le in L. rewrite truncate_inject_Z in L. lia.
Qed.

Lemma truncate_Qmax (b : Z) (x : Q) :
  truncate (Qmax (inject_Z b) x) = Z.max b (truncate x).
Proof.
  destruct (Q.max_spec (inject_Z b) x) as [[L E] | [L E]];
    rewrite (truncate_comp E).
  - apply Qlt_le_weak, truncate_le in L. rewrite truncate_inject_Z in L. lia.
  - rewrite truncate_inject_Z.
    apply truncate_le in L. rewrite truncate_inject_Z in L. lia.
Qed.

End Truncation.

Section Encoder.

Lemma clamp16_range (z : Z) : -32768 <= clamp16 z <= 32767.
Proof. unfold clamp16; lia. Qed.

Lemma clamp16_id (z : Z) : -32768 <= z <= 32767 -> clamp16 z = z.
Proof. unfold clamp16; lia. Qed.

(** One iteration of the loop of the later revision. *)
Lemma V2_sample (x : number) :
  ToInt16 (Math_max (Fin (-32768)) (Math_min (Fin 32767) (mul_const x 32768)))
  = scaled_clamped x.
Proof.
  destruct x as [| [|] | q]; try reflexivity.
  unfold mul_const, Math_min, Math_max, scaled_clamped.
  assert (T : truncate (Qmax (inject_Z (-32768)) (Qmin (inject_Z 32767) (q * 32768)))
              = clamp16 (truncate (q * 32768))).
  { rewrite truncate_Qmax, truncate_Qmin. reflexivity. }
  change (ToInt16 (Fin (Qmax (inject_Z (-32768)) (Qmin (inject_Z 32767) (q * 32768))))
          = clamp16 (truncate (q * 32768))).
  rewrite ToInt16_small; rewrite T; [reflexivity | apply clamp16_range].
Qed.

(** One iteration of the loop of the earlier revision, on a sample of the
    nominal range. *)
Lemma V1_sample (x : number) :
  in_range x -> ToInt16 (mul_const x 32768) = scaled_clamped x.
Proof.
  destruct x as [| s | q]; simpl; try tauto. intros [Lo Hi].
  assert (B : -32768 <= truncate (q * 32768) <= 32767).
  { split; [apply truncate_lower | apply truncate_upper]; unfold inject_Z; lra. }
  change (ToInt16 (Fin (q * 32768)) = clamp16 (truncate (q * 32768))).
  rewrite ToInt16_small by exact B. symmetry. apply clamp16_id, B.
Qed.

Lemma V2_createBlob_int16_spec (data : list number) :
  V2.createBlob_int16 data = map scaled_clamped data.
Proof.
  unfold V2.createBlob_int16, Int16Array_from. apply map_ext. apply V2_sample.
Qed.

Lemma V1_createBlob_int16_spec (data : list number) :
  Forall in_range data -> V1.createBlob_int16 data = map scaled_clamped data.
Proof.
  unfold V1.createBlob_int16, Int16Array_from.
  induction 1 as [| x l Hx _ IH]; simpl; [reflexivity |].
  rewrite IH. f_equal. apply (V1_sample x Hx).
Qed.

(** The earlier revision wraps where the later one clamps: a sample of
    exactly 1.0 is stored as -32768. *)
Lemma V1_createBlob_wraps : V1.createBlob_int16 [Fin 1] = [-32768].
Proof. reflexivity. Qed.

End Encoder.

Section EncoderClaims.

(** C4.  The encoder of the later revision scales every sample by 32768 and
    clamps it to the signed 16-bit range: the value stored at every index is
    [scaled_clamped] of the sample and lies in [-32768, 32767]; a sample of
    1.0 or more (plus infinity included) is stored as 32767, a non-negative
    sample is never stored as a negative value, and -1.0 is stored as
    -32768.  The blob returned is the encoding of these values. *)
Theorem createBlob_clamps (P : Platform) (data : list number) (i : nat) (x : number) :
  nth_error data i = Some x ->
  (exists v, nth_error (V2.createBlob_int16 data) i = Some v /\
     v = scaled_clamped x /\
     -32768 <= v <= 32767 /\
     (at_least 1 x -> v = 32767) /\
     (at_least 0 x -> 0 <= v) /\
     (x = Fin (-1) -> v = -32768)) /\
  V2.createBlob P data =
    {| data := encode P (Uint8Array_of_Int16Array (V2.createBlob_int16 data));
       mimeType := "audio/pcm;rate=16000" |}.
Proof.
  intro Hx. split; [| reflexivity].
  exists (scaled_clamped x). rewrite V2_createBlob_int16_spec.
  split; [apply map_nth_error, Hx |]. split; [reflexivity |].
  assert (R : -32768 <= scaled_clamped x <= 32767).
  { destruct x as [| [|] | q]; simpl; try lia. apply clamp16_range. }
  split; [exact R |]. repeat split.
  - destruct x as [| [|] | q]; simpl; try tauto. intro L.
    assert (32768 <= truncate (q * 32768)).
    { apply truncate_lower. unfold inject_Z. lra. }
    unfold clamp16. lia.
  - destruct x as [| [|] | q]; simpl; try tauto; try lia. intro L.
    assert (0 <= truncate (q * 32768)).
    { apply truncate_lower. unfold inject_Z. lra. }
    unfold clamp16. lia.
  - intros ->. reflexivity.
Qed.

Lemma createBlob_clamps_witness :
  nth_error [Fin 1; Fin (3 # 2); Fin (-1)] 1 = Some (Fin (3 # 2)) /\
  at_least 1 (Fin (3 # 2)) /\
  nth_error (V2.createBlob_int16 [Fin 1; Fin (3 # 2); Fin (-1)]) 1 = Some 32767.
Proof.
  assert (A : at_least 1 (Fin (3 # 2))) by (simpl; lra).
  split; [reflexivity |]. split; [exact A |].
  destruct (createBlob_clamps reference_platform
              [Fin 1; Fin (3 # 2); Fin (-1)] 1 eq_refl)
    as [(v & Hv & _ & _ & Hmax & _) _].
  rewrite Hv. f_equal. apply Hmax, A.
Defined.

(** C10.  On an input whose samples all lie in [-1.0, 32767/32768] the
    encoders of the two revisions return the same blob, byte for byte; and
    on any input, an index where the stored 16-bit values differ holds a
    sample outside that range. *)
Theorem createBlob_revisions_agree (P : Platform) (data : list number) :
  Forall in_range data ->
  V1.createBlob P data = V2.createBlob P data /\
  Uint8Array_of_Int16Array (V1.createBlob_int16 data)
    = Uint8Array_of_Int16Array (V2.createBlob_int16 data) /\
  (forall (other : list number) (i : nat),
     nth_error (V1.createBlob_int16 other) i <> nth_error (V2.createBlob_int16 other) i ->
     exists x, nth_error other i = Some x /\ ~ in_range x).
Proof.
  intro H.
  assert (E : V1.createBlob_int16 data = V2.createBlob_int16 data).
  { rewrite V1_createBlob_int16_spec by exact H.
    rewrite V2_createBlob_int16_spec. reflexivity. }
  split; [| split].
  - unfold V1.createBlob, V2.createBlob. rewrite E. reflexivity.
  - rewrite E. reflexivity.
  - intros other i D.
    unfold V1.createBlob_int16, V2.createBlob_int16, Int16Array_from in D.
    rewrite !nth_error_map in D.
    destruct (nth_error other i) as [x |] eqn:Hx; [| now destruct D].
    exists x. split; [reflexivity |]. intro R. apply D. cbn [option_map].
    rewrite V2_sample, (V1_sample x R). reflexivity.
Qed.

Lemma createBlob_revisions_agree_witness :
  Forall in_range [Fin (1 # 2); Fin (-1); Fin (32767 # 32768)] /\
  V1.createBlob reference_platform [Fin (1 # 2); Fin (-1); Fin (32767 # 32768)]
  = V2.createBlob reference_platform [Fin (1 # 2); Fin (-1); Fin (32767 # 32768)].
Proof.
  assert (R : Forall in_range [Fin (1 # 2); Fin (-1); Fin (32767 # 32768)]).
  { repeat constructor; simpl; lra. }
  split; [exact R |].
  apply (createBlob_revisions_agree reference_platform R).
Defined.

End EncoderClaims.

(** ** Teardown *)

(** Evaluation of a handler on a state given field by field: the monad, the
    platform operations and the accessors are unfolded, nothing else. *)
Ltac run :=
  cbv beta iota zeta delta [
    bind ret throw try_catch try_finally gets modify when lift get_world set_world fst
    snd negb andb orb emit alloc session_close stream_stop_tracks ctx_state ctx_close
    ctx_resume AudioContext_new ctx_currentTime getUserMedia live_connect
    createBufferSource source_start source_stop sendRealtimeInput alert new_Date
    Math_random_id set_contexts set_currentTime set_next_handle set_trace
    set_random_calls set_localStorage contexts currentTime next_handle trace Date_now
    random_calls localStorage AudioContextState_eqb log log_opt close_context
    teardown_world opt_chain truthy_opt_bool truthy_opt_string truthy_string
    inlineData inline_data parts serverContent inputTranscription outputTranscription
    turnComplete modelTurn interrupted transcription_text response_text candidate_parts
    V1.addMessage V2.addMessage V1_torn_down V2_torn_down V1.App_HasWorld V2.App_HasWorld V1.deref V2.unawaited
    V1.messages V1.mode V1.isActive V1.isThinking V1.inputLevel V1.inputAudioCtxRef
    V1.outputAudioCtxRef V1.sourcesRef V1.nextStartTimeRef V1.sessionRef V1.streamRef
    V1.currentInputTranscription V1.currentOutputTranscription V1.world
    V1.with_messages V1.with_mode V1.with_isActive V1.with_isThinking
    V1.with_inputLevel V1.with_inputAudioCtxRef V1.with_outputAudioCtxRef
    V1.with_sourcesRef V1.with_nextStartTimeRef V1.with_sessionRef V1.with_streamRef
    V1.with_currentInputTranscription V1.with_currentOutputTranscription V1.with_world
    V2.messages V2.mode V2.isActive V2.isThinking V2.isMayaSpeaking V2.inputLevel
    V2.inputAudioCtxRef V2.outputAudioCtxRef V2.outputNodeRef V2.sourcesRef
    V2.nextStartTimeRef V2.sessionRef V2.streamRef V2.world V2.with_messages
    V2.with_mode V2.with_isActive V2.with_isThinking V2.with_isMayaSpeaking
    V2.with_inputLevel V2.with_inputAudioCtxRef V2.with_outputAudioCtxRef
    V2.with_outputNodeRef V2.with_sourcesRef V2.with_nextStartTimeRef
    V2.with_sessionRef V2.with_streamRef V2.with_world
  ].

Lemma bind_normal {S A B} (m : M S A) (k : A -> M S B) (s : S) (x : A) (s' : S) :
  m s = (Normal x, s') -> bind m k s = k x s'.
Proof. intro E. unfold bind. now rewrite E. Qed.

Lemma bind_throw {S A B} (m : M S A) (k : A -> M S B) (s : S) (e : Exn) (s' : S) :
  m s = (Throw e, s') -> bind m k s = (Throw e, s').
Proof. intro E. unfold bind. now rewrite E. Qed.

(** The next statement of a handler returns [x] and leaves state [s']. *)
Ltac step_to x s' := rewrite (@bind_normal _ _ _ _ _ _ x s'); cycle 1.
Ltac unfold_states := repeat match goal with x := _ |- _ => subst x end.

Section Teardown.
Variable P : Platform.

Lemma set_trace_nil (w : World) : set_trace (trace w ++ []) w = w.
Proof. destruct w; unfold set_trace; simpl. now rewrite app_nil_r. Qed.

Lemma V1_stop_sources (srcs : list handle) (a : V1.App) :
  forEach srcs (fun s => try_catch (lift (source_stop P s)) (fun _ => ret tt)) a
  = (Normal tt,
     V1.with_world (set_trace (trace (V1.world a) ++ map SourceStop srcs) (V1.world a)) a).
Proof.
  revert a. induction srcs as [| s rest IH]; intro a.
  - simpl. rewrite set_trace_nil. now destruct a.
  - cbn [forEach]. unfold bind at 1.
    assert (E : try_catch (lift (source_stop P s)) (fun _ => ret tt) a
                = (Normal tt, V1.with_world (log (SourceStop s) (V1.world a)) a)).
    { unfold try_catch, lift, source_stop, bind, emit, modify, throw, ret. simpl.
      now destruct (source_stop_throws P s). }
    rewrite E, IH. simpl. unfold V1.with_world, set_trace; simpl.
    now rewrite <- app_assoc.
Qed.

Lemma V2_stop_sources (srcs : list handle) (a : V2.App) :
  forEach srcs (fun s => try_catch (lift (source_stop P s)) (fun _ => ret tt)) a
  = (Normal tt,
     V2.with_world (set_trace (trace (V2.world a) ++ map SourceStop srcs) (V2.world a)) a).
Proof.
  revert a. induction srcs as [| s rest IH]; intro a.
  - simpl. rewrite set_trace_nil. now destruct a.
  - cbn [forEach]. unfold bind at 1.
    assert (E : try_catch (lift (source_stop P s)) (fun _ => ret tt) a
                = (Normal tt, V2.with_world (log (SourceStop s) (V2.world a)) a)).
    { unfold try_catch, lift, source_stop, bind, emit, modify, throw, ret. simpl.
      now destruct (source_stop_throws P s). }
    rewrite E, IH. simpl. unfold V2.with_world, set_trace; simpl.
    now rewrite <- app_assoc.
Qed.

Lemma V1_stopSession_spec (a : V1.App) :
  V1.stopSession P a = (Normal tt, V1_torn_down a).
Proof.
  destruct a as [msgs md act thk lvl ictx octx srcs cur sess strm cin cout w].
  destruct w as [ctxs clk nh tr dn rc ls].
  unfold V1.stopSession.
  match goal with |- _ ?a0 = _ => set (a := a0) end.
  set (w1 := log_opt SessionClose sess (V1.world a)).
  set (w2 := log_opt TrackStop strm w1).
  set (w3 := close_context ictx w2).
  set (w4 := close_context octx w3).
  set (a1 := V1.with_inputLevel (Fin 0) (V1.with_isActive false a)).
  step_to tt (V1.with_isActive false a); [reflexivity |].
  step_to tt a1; [reflexivity |].
  set (a2 := V1.with_world w1 (V1.with_sessionRef None a1)).
  step_to tt a2.
  { unfold_states. destruct sess as [s |]; run; [| reflexivity].
    now destruct (session_close_throws P s). }
  set (a3 := V1.with_streamRef None (V1.with_world w2 a2)).
  step_to tt a3.
  { unfold_states. destruct sess, strm; reflexivity. }
  set (a4 := V1.with_inputAudioCtxRef None (V1.with_world w3 a3)).
  step_to tt a4.
  { subst a4 w3 a3 a2 a1 a. destruct ictx as [c |]; [| reflexivity].
    unfold close_context. destruct w2 as [ctxs2 clk2 nh2 tr2 dn2 rc2 ls2]. run.
    destruct (ctxs2 c) eqn:E; run; rewrite ?E; reflexivity. }
  set (a5 := V1.with_outputAudioCtxRef None (V1.with_world w4 a4)).
  step_to tt a5.
  { subst a5 w4 a4 a3 a2 a1 a. destruct octx as [c |]; [| reflexivity].
    unfold close_context. destruct w3 as [ctxs3 clk3 nh3 tr3 dn3 rc3 ls3]. run.
    destruct (ctxs3 c) eqn:E; run; rewrite ?E; reflexivity. }
  step_to tt (V1.with_world (set_trace (trace w4 ++ map SourceStop srcs) w4) a5).
  { step_to srcs a5; [reflexivity |]. rewrite V1_stop_sources. reflexivity. }
  unfold_states. reflexivity.
Qed.

Lemma V2_stopSession_spec (a : V2.App) :
  V2.stopSession P a = (Normal tt, V2_torn_down a).
Proof.
  destruct a as [msgs md act thk spk lvl ictx octx node srcs cur sess strm w].
  destruct w as [ctxs clk nh tr dn rc ls].
  unfold V2.stopSession.
  match goal with |- _ ?a0 = _ => set (a := a0) end.
  set (w1 := log_opt SessionClose sess (V2.world a)).
  set (w2 := log_opt TrackStop strm w1).
  set (w3 := close_context ictx w2).
  set (w4 := close_context octx w3).
  set (a1 := V2.with_inputLevel (Fin 0)
               (V2.with_isMayaSpeaking false (V2.with_isActive false a))).
  step_to tt (V2.with_isActive false a); [reflexivity |].
  step_to tt (V2.with_isMayaSpeaking false (V2.with_isActive false a)); [reflexivity |].
  step_to tt a1; [reflexivity |].
  set (a2 := V2.with_sessionRef None (V2.with_world w1 a1)).
  step_to tt a2.
  { unfold_states. destruct sess as [s |]; run; [| reflexivity].
    now destruct (session_close_throws P s). }
  set (a3 := V2.with_streamRef None (V2.with_world w2 a2)).
  step_to tt a3.
  { unfold_states. destruct sess, strm; reflexivity. }
  set (a4 := V2.with_inputAudioCtxRef None (V2.with_world w3 a3)).
  step_to tt a4.
  { subst a4 w3 a3 a2 a1 a. destruct ictx as [c |]; [| reflexivity].
    unfold close_context. destruct w2 as [ctxs2 clk2 nh2 tr2 dn2 rc2 ls2]. run.
    destruct (ctxs2 c) eqn:E; run; rewrite ?E; reflexivity. }
  set (a5 := V2.with_outputAudioCtxRef None (V2.with_world w4 a4)).
  step_to tt a5.
  { subst a5 w4 a4 a3 a2 a1 a. destruct octx as [c |]; [| reflexivity].
    unfold close_context. destruct w3 as [ctxs3 clk3 nh3 tr3 dn3 rc3 ls3]. run.
    destruct (ctxs3 c) eqn:E; run; rewrite ?E; reflexivity. }
  step_to tt (V2.with_world (set_trace (trace w4 ++ map SourceStop srcs) w4) a5).
  { step_to srcs a5; [reflexivity |]. rewrite V2_stop_sources. reflexivity. }
  unfold_states. reflexivity.
Qed.

Lemma teardown_world_released (w : World) : teardown_world None None None None [] w = w.
Proof. unfold teardown_world; simpl. apply set_trace_nil. Qed.

Lemma V1_torn_down_idem (a : V1.App) : V1_torn_down (V1_torn_down a) = V1_torn_down a.
Proof.
  unfold V1_torn_down at 1. cbn [V1_torn_down V1.sessionRef V1.streamRef
    V1.inputAudioCtxRef V1.outputAudioCtxRef V1.sourcesRef V1.world V1.messages V1.mode
    V1.isThinking V1.currentInputTranscription V1.currentOutputTranscription].
  rewrite teardown_world_released. reflexivity.
Qed.

Lemma V2_torn_down_idem (a : V2.App) : V2_torn_down (V2_torn_down a) = V2_torn_down a.
Proof.
  unfold V2_torn_down at 1. cbn [V2_torn_down V2.sessionRef V2.streamRef
    V2.inputAudioCtxRef V2.outputAudioCtxRef V2.sourcesRef V2.world V2.messages V2.mode
    V2.isThinking V2.outputNodeRef].
  rewrite teardown_world_released. reflexivity.
Qed.

(** C1.  In both revisions [stopSession] completes without an error from
    every state, whatever was acquired (any of the session, the stream, the
    two contexts and the sources may be missing, and closing the session or
    stopping a source may throw); it leaves every resource reference empty,
    the source set empty and the cursor at 0; and a second call right after
    it completes without an error and changes nothing. *)
Theorem stopSession_idempotent (a1 : V1.App) (a2 : V2.App) :
  (completion (V1.stopSession P) a1 = Normal tt /\
   V1_released (exec (V1.stopSession P) a1) /\
   V1.stopSession P (exec (V1.stopSession P) a1)
     = (Normal tt, exec (V1.stopSession P) a1)) /\
  (completion (V2.stopSession P) a2 = Normal tt /\
   V2_released (exec (V2.stopSession P) a2) /\
   V2.stopSession P (exec (V2.stopSession P) a2)
     = (Normal tt, exec (V2.stopSession P) a2)).
Proof.
  unfold completion, exec.
  rewrite V1_stopSession_spec, V2_stopSession_spec. cbn [fst snd].
  rewrite V1_stopSession_spec, V2_stopSession_spec.
  rewrite V1_torn_down_idem, V2_torn_down_idem.
  repeat split; reflexivity.
Qed.

End Teardown.

(** ** The journal *)

Section Journal.
Variable P : Platform.




Lemma V2_addMessage_spec (r : Role) (t : string) (img : option string) (a : V2.App) :
  V2.addMessage P r t img a =
  (Normal tt,
   V2.with_messages
     (V2.slice_last 50
        (V2.messages a ++
         [{| id := Some (random_id P (random_calls (V2.world a))); role := r; text := t;
             timestamp := Date_now (V2.world a); imageUrl := img |}]))
     (V2.with_world (set_random_calls (S (random_calls (V2.world a))) (V2.world a)) a)).
Proof. destruct a as [? ? ? ? ? ? ? ? ? ? ? ? ? w]. destruct w. reflexivity. Qed.


End Journal.

(** ** The handlers of the live session, as functions on states *)

Section LiveHandlers.
Variable P : Platform.

Lemma V1_play_part_spec (part : Part) (a : V1.App) :
  V1.play_part P part a = (Normal tt, V1_play_part P a part).
Proof.
  destruct a as [msgs md act thk lvl ictx octx srcs cur sess strm cin cout w].
  destruct w as [ctxs clk nh tr dn rc ls].
  unfold V1.play_part, V1_play_part, audio_of.
  destruct part as [[[[[| ch b] |]] |]]; destruct octx as [c |]; try reflexivity.
  unfold V1_played, resumed, started. run.
  destruct (ctxs c) eqn:E; run; rewrite ?E; reflexivity.
Qed.

Lemma V1_play_parts_spec (ps : list Part) (a : V1.App) :
  forEach ps (V1.play_part P) a = (Normal tt, fold_left (V1_play_part P) ps a).
Proof.
  revert a. induction ps as [| part rest IH]; intro a; [reflexivity |].
  cbn [forEach fold_left].
  rewrite (bind_normal _ _ _ (V1_play_part_spec part a)). apply IH.
Qed.

Lemma V1_addMessage_spec (r : Role) (t : string) (a : V1.App) :
  V1.addMessage r t a =
  (Normal tt,
   V1.with_messages
     (V1.messages a ++ [{| id := None; role := r; text := t;
                           timestamp := Date_now (V1.world a); imageUrl := None |}]) a).
Proof.
  destruct a as [msgs md act thk lvl ictx octx srcs cur sess strm cin cout w].
  destruct w as [ctxs clk nh tr dn rc ls]. reflexivity.
Qed.

Lemma V1_onmessage_spec (message : LiveServerMessage) (a : V1.App) :
  V1.onmessage P message a = (Normal tt, V1_onmessage_result P message a).
Proof.
  unfold V1.onmessage, V1_onmessage_result.
  set (sc := serverContent message).
  set (a1 := V1.with_currentInputTranscription (pending_input sc a) a).
  set (a2 := V1.with_currentOutputTranscription (pending_output sc a) a1).
  step_to tt a1.
  { subst a1. unfold pending_input. destruct (opt_chain sc inputTranscription).
    - reflexivity.
    - now destruct a. }
  step_to tt a2.
  { subst a2 a1. unfold pending_output.
    destruct (opt_chain sc outputTranscription).
    - now destruct a.
    - now destruct a. }
  set (a3 := if truthy_opt_bool (opt_chain sc turnComplete)
             then V1.with_currentOutputTranscription ""
                    (V1.with_currentInputTranscription ""
                       (V1.with_messages
                          (V1.messages a ++
                           turn_messages (Date_now (V1.world a))
                             (pending_input sc a) (pending_output sc a)) a2))
             else a2).
  step_to tt a3.
  { subst a3. destruct (truthy_opt_bool (opt_chain sc turnComplete)); [| reflexivity].
    cbn [when].
    step_to (pending_input sc a) a2; [now destruct a |].
    step_to (pending_output sc a) a2; [now destruct a |].
    unfold turn_messages.
    destruct a as [msgs md act thk lvl ictx octx srcs cur sess strm cin cout w].
    destruct w as [ctxs clk nh tr dn rc ls].
    subst a2 a1.
    destruct (truthy_string (pending_input sc _)) eqn:E1;
      destruct (truthy_string (pending_output sc _)) eqn:E2;
      cbn [when]; run; rewrite <- ?app_assoc, ?app_nil_r; reflexivity. }
  step_to tt (fold_left (V1_play_part P) (parts_of sc) a3).
  { apply V1_play_parts_spec. }
  unfold V1.onmessage_interrupted. fold sc.
  destruct (truthy_opt_bool (opt_chain sc interrupted)); [| reflexivity].
  cbn [when].
  set (a4 := fold_left (V1_play_part P) (parts_of sc) a3).
  step_to tt (V1.with_world
                (set_trace (trace (V1.world a4) ++ map SourceStop (V1.sourcesRef a4))
                           (V1.world a4)) a4).
  { step_to (V1.sourcesRef a4) a4; [reflexivity |]. apply V1_stop_sources. }
  reflexivity.
Qed.

Lemma V2_onmessage_spec (c : handle) (message : LiveServerMessage) (a : V2.App) :
  V2.onmessage P c message a = (Normal tt, V2_onmessage_result P c message a).
Proof.
  unfold V2.onmessage, V2_onmessage_result, first_audio.
  set (sc := serverContent message).
  set (audio := opt_chain _ inline_data).
  set (a1 := match (match audio with
                    | Some b => if truthy_string b then Some b else None
                    | None => None
                    end) with
             | Some b => V2_played P b c a
             | None => a
             end).
  step_to tt a1.
  { subst a1. destruct audio as [[| ch b] |]; reflexivity. }
  unfold V2.onmessage_interrupted. fold sc.
  destruct (truthy_opt_bool (opt_chain sc interrupted)); [| reflexivity].
  cbn [when].
  step_to tt (V2.with_world
                (set_trace (trace (V2.world a1) ++ map SourceStop (V2.sourcesRef a1))
                           (V2.world a1)) a1).
  { step_to (V2.sourcesRef a1) a1; [reflexivity |]. apply V2_stop_sources. }
  reflexivity.
Qed.

(** A message that only carries one chunk. *)
Lemma V1_onmessage_audio (b : string) (c : handle) (a : V1.App) :
  V1.outputAudioCtxRef a = Some c ->
  V1.onmessage P (audio_message b) a =
  (Normal tt, if truthy_string b then V1_played P b c a else a).
Proof.
  intro O. rewrite V1_onmessage_spec.
  destruct a as [msgs md act thk lvl ictx octx srcs cur sess strm cin cout w].
  cbn in O. subst octx. destruct b; reflexivity.
Qed.

Lemma V2_onmessage_audio (b : string) (c : handle) (a : V2.App) :
  V2.onmessage P c (audio_message b) a =
  (Normal tt, if truthy_string b then V2_played P b c a else a).
Proof. rewrite V2_onmessage_spec. destruct b; reflexivity. Qed.

End LiveHandlers.

(** ** The transcript assembler *)

Section Transcripts.
Variable P : Platform.

Lemma V1_play_part_journal (a : V1.App) (part : Part) :
  same_journal a (V1_play_part P a part).
Proof.
  unfold V1_play_part, same_journal.
  destruct (audio_of part), (V1.outputAudioCtxRef a); repeat split.
Qed.

Lemma V1_play_parts_journal (ps : list Part) (a : V1.App) :
  same_journal a (fold_left (V1_play_part P) ps a).
Proof.
  revert a. induction ps as [| part rest IH]; intro a; [repeat split |].
  cbn [fold_left].
  destruct (IH (V1_play_part P a part)) as (M & I & O).
  destruct (V1_play_part_journal a part) as (M' & I' & O').
  unfold same_journal. rewrite M, I, O. auto.
Qed.

Lemma V1_interrupted_journal (a : V1.App) : same_journal a (V1_interrupted a).
Proof. repeat split. Qed.

(** C5.  When a message carries the turn-complete signal, the handler of the
    earlier revision completes and appends to the journal exactly the
    messages of [turn_messages]: a user message with the input buffer if it
    is not empty, then an assistant message with the output buffer if it is
    not empty; and both buffers are empty afterwards.  With both buffers
    non-empty that is exactly two messages, user first; with both empty the
    journal does not change. *)
Theorem turnComplete_flushes (message : LiveServerMessage) (sc : ServerContent)
  (a : V1.App) :
  serverContent message = Some sc ->
  turnComplete sc = Some true ->
  let userInput := pending_input (Some sc) a in
  let mayaOutput := pending_output (Some sc) a in
  let now := Date_now (V1.world a) in
  let a' := exec (V1.onmessage P message) a in
  completion (V1.onmessage P message) a = Normal tt /\
  V1.messages a' = V1.messages a ++ turn_messages now userInput mayaOutput /\
  V1.currentInputTranscription a' = ""%string /\
  V1.currentOutputTranscription a' = ""%string /\
  (userInput <> ""%string -> mayaOutput <> ""%string ->
   V1.messages a' =
     V1.messages a ++
     [{| id := None; role := user; text := userInput; timestamp := now;
         imageUrl := None |};
      {| id := None; role := maya; text := mayaOutput; timestamp := now;
         imageUrl := None |}]) /\
  (userInput = ""%string -> mayaOutput = ""%string -> V1.messages a' = V1.messages a).
Proof.
  intros Hsc Htc userInput mayaOutput now a'.
  assert (R : V1.onmessage P message a = (Normal tt, a')).
  { unfold a', exec. now rewrite V1_onmessage_spec. }
  assert (J : V1.messages a' = V1.messages a ++ turn_messages now userInput mayaOutput /\
              V1.currentInputTranscription a' = ""%string /\
              V1.currentOutputTranscription a' = ""%string).
  { unfold a', exec. rewrite V1_onmessage_spec. cbn [snd].
    unfold V1_onmessage_result. rewrite Hsc. cbn [opt_chain]. rewrite Htc.
    cbn [truthy_opt_bool].
    match goal with
    | |- context [fold_left (V1_play_part P) ?ps ?b] =>
        destruct (V1_play_parts_journal ps b) as (M & I & O);
        set (c := fold_left (V1_play_part P) ps b) in *
    end.
    assert (K : same_journal c (if truthy_opt_bool (interrupted sc)
                                then V1_interrupted c else c)).
    { destruct (truthy_opt_bool (interrupted sc)); repeat split. }
    destruct K as (M' & I' & O'). rewrite M', I', O', M, I, O.
    now destruct a. }
  destruct J as (M & I & O).
  split; [unfold completion; now rewrite R |].
  split; [exact M |]. split; [exact I |]. split; [exact O |]. split.
  - intros U V. rewrite M. unfold turn_messages.
    destruct userInput; [congruence |]. destruct mayaOutput; [congruence |].
    reflexivity.
  - intros U V. rewrite M, U, V. apply app_nil_r.
Qed.

End Transcripts.

Lemma turnComplete_flushes_witness :
  List.length
    (V1.messages
       (exec (V1.onmessage reference_platform
                {| serverContent := Some
                     {| inputTranscription := None; outputTranscription := None;
                        turnComplete := Some true; modelTurn := None;
                        interrupted := None |} |})
             (V1.with_currentOutputTranscription "Hi there"
                (V1.with_currentInputTranscription "Hello" (V1.initial empty_world)))))
  = 2%nat.
Proof.
  destruct (@turnComplete_flushes reference_platform
              {| serverContent := Some
                   {| inputTranscription := None; outputTranscription := None;
                      turnComplete := Some true; modelTurn := None;
                      interrupted := None |} |}
              {| inputTranscription := None; outputTranscription := None;
                 turnComplete := Some true; modelTurn := None; interrupted := None |}
              (V1.with_currentOutputTranscription "Hi there"
                 (V1.with_currentInputTranscription "Hello" (V1.initial empty_world)))
              eq_refl eq_refl) as (_ & _ & _ & _ & Two & _).
  rewrite Two; [reflexivity | discriminate | discriminate].
Defined.

(** ** The capture pipeline *)

Section Capture.
Variable P : Platform.

(** The earlier revision sends a frame exactly when the session reference is
    set. *)
Lemma V1_onaudioprocess_spec (session : handle) (inputData : list number) (a : V1.App) :
  V1.onaudioprocess P session inputData a =
  (Normal tt,
   V1.with_world
     (match V1.sessionRef a with
      | Some _ => log (SendRealtimeInput session (V1.createBlob P inputData)) (V1.world a)
      | None => V1.world a
      end)
     (V1.with_inputLevel (rms P inputData) a)).
Proof.
  destruct a as [msgs md act thk lvl ictx octx srcs cur sess strm cin cout w].
  destruct w as [ctxs clk nh tr dn rc ls].
  unfold V1.onaudioprocess. destruct sess; reflexivity.
Qed.

(** C7, on the later revision: a frame processed after teardown has cleared
    the session reference is still sent to the session the capture graph
    was opened for. *)
Theorem V2_onaudioprocess_after_teardown (session : handle) (inputData : list number)
  (a : V2.App) :
  V2.sessionRef (exec (V2.stopSession P) a) = None /\
  trace (V2.world (exec (V2.onaudioprocess P session inputData)
                        (exec (V2.stopSession P) a)))
  = trace (V2.world (exec (V2.stopSession P) a))
    ++ [SendRealtimeInput session (V2.createBlob P inputData)].
Proof.
  unfold exec. rewrite V2_stopSession_spec. cbn [snd]. split; [reflexivity |].
  destruct a as [msgs md act thk spk lvl ictx octx node srcs cur sess strm w].
  reflexivity.
Qed.

End Capture.

(** ** The text prompt *)

Section TextPrompt.
Variable P : Platform.

(** [handleApiError] appends one entry, or throws before it has done
    anything. *)
Lemma V2_handleApiError_cases (err : Exn) (a : V2.App) :
  (exists t, V2.handleApiError P err a = V2.addMessage P maya t None a) \/
  V2.handleApiError P err a = (Throw TypeError, a).
Proof.
  unfold V2.handleApiError.
  destruct (V2.message_or_string err) as [| | b | n | msg | [inc |] [head |]];
    try (right; reflexivity).
  - destruct (includes msg "429" || includes msg "quota"); left; eexists; reflexivity.
  - destruct (inc "429"%string || inc "quota"%string); left; eexists; reflexivity.
  - destruct (inc "429"%string || inc "quota"%string);
      [left; eexists; reflexivity | right; reflexivity].
Qed.

(** Its caller drops the promise: the call of [handleApiError] completes. *)
Lemma V2_handleApiError_unawaited (err : Exn) (a : V2.App) :
  V2.unawaited (V2.handleApiError P err) a = (Normal tt, exec (V2.handleApiError P err) a).
Proof.
  unfold V2.unawaited, try_catch, exec.
  destruct (V2_handleApiError_cases err a) as [[t E] | E]; rewrite E.
  - now rewrite V2_addMessage_spec.
  - reflexivity.
Qed.

Lemma V2_handleDeepPrompt_resume_spec (m : V2.MayaMode)
  (r : Exn + GenerateContentResponse) (a : V2.App) :
  completion (V2.handleDeepPrompt_resume P m r) a = Normal tt /\
  V2.isThinking (exec (V2.handleDeepPrompt_resume P m r) a) = false.
Proof.
  destruct r as [err | response].
  - unfold completion, exec, V2.handleDeepPrompt_resume, try_finally, try_catch, throw.
    rewrite V2_handleApiError_unawaited. cbn [modify fst snd].
    split; [reflexivity | now destruct (exec _ a)].
  - destruct a as [msgs md act thk spk lvl ictx octx node srcs cur sess strm w].
    destruct w as [ctxs clk nh tr dn rc ls].
    unfold completion, exec, V2.handleDeepPrompt_resume.
    destruct response as [rt [ps |]]; destruct m; run; split; reflexivity.
Qed.

(** C8.  In the later revision a submission made while [isThinking] is set
    returns at once: no request is issued and the state, the journal
    included, is unchanged.  A submission that is accepted (text that is
    not blank, flag clear) in a mode that issues a request sets the flag,
    appends the user message and issues exactly one request; and when the
    request resolves or fails, the continuation completes and clears the
    flag. *)
Theorem handleDeepPrompt_busy_gate (input : string) (a : V2.App) :
  (V2.isThinking a = true -> V2.handleDeepPrompt P input a = (Normal None, a)) /\
  (V2.isThinking a = false -> trim_is_empty input = false -> V2.mode a <> V2.LIVE ->
   exists model contents m,
     completion (V2.handleDeepPrompt P input) a = Normal (Some (V2.mode a)) /\
     V2.isThinking (exec (V2.handleDeepPrompt P input) a) = true /\
     trace (V2.world (exec (V2.handleDeepPrompt P input) a))
       = trace (V2.world a) ++ [GenerateContent model contents] /\
     role m = user /\ text m = input /\
     V2.messages (exec (V2.handleDeepPrompt P input) a)
       = V2.slice_last 50 (V2.messages a ++ [m])) /\
  (forall (m : V2.MayaMode) (r : Exn + GenerateContentResponse) (b : V2.App),
     completion (V2.handleDeepPrompt_resume P m r) b = Normal tt /\
     V2.isThinking (exec (V2.handleDeepPrompt_resume P m r) b) = false).
Proof.
  split; [| split].
  - intro B. unfold V2.handleDeepPrompt.
    rewrite (@bind_normal _ _ _ _ _ a true a) by (unfold gets; now rewrite B).
    now rewrite orb_true_r.
  - intros B T L.
    destruct a as [msgs md act thk spk lvl ictx octx node srcs cur sess strm w].
    destruct w as [ctxs clk nh tr dn rc ls].
    cbn in B, L. subst thk.
    unfold completion, exec, V2.handleDeepPrompt.
    destruct md; [congruence | | |].
    + exists MODELS.THINKING, input. eexists. run. rewrite T. run.
      repeat split; reflexivity.
    + exists MODELS.SEARCH, input. eexists. run. rewrite T. run.
      repeat split; reflexivity.
    + exists (MODELS_IMAGE P), ("A visual interpretation of: " ++ input)%string.
      eexists. run. rewrite T. run. repeat split; reflexivity.
  - apply V2_handleDeepPrompt_resume_spec.
Qed.

End TextPrompt.
(** ** The player *)

Section Player.
Variable P : Platform.

Lemma duration_nonneg (b : AudioBuffer) : (0 <= duration b)%Q.
Proof. unfold duration. apply round_double_nonneg. unfold Qle; simpl; lia. Qed.

(** The cursor stays a double that is not negative, and no chunk starts
    before it. *)
Lemma schedule_in_sequence (events : list PlayerEvent) (cursor : Q) :
  (0 <= cursor)%Q -> is_double cursor -> read_doubles events ->
  in_sequence (schedule P cursor events) /\
  Forall (fun sb => (cursor <= fst sb)%Q) (schedule P cursor events).
Proof.
  revert cursor. induction events as [| [now b | src] rest IH]; intros cursor N D R;
    cbn [schedule].
  - split; [exact I | constructor].
  - inversion R as [| ? ? Dn R']; subst.
    destruct (truthy_string b); [| now apply IH].
    set (start := Qmax cursor now).
    set (buf := decodeAudioData P (decode P b) 24000 1).
    pose proof (Q.le_max_l cursor now) as L. fold start in L.
    assert (Ns : (0 <= start)%Q) by lra.
    assert (Ds : is_double start) by now apply is_double_max.
    pose proof (duration_nonneg buf) as Nd.
    pose proof (@double_add_ge start (duration buf) Ns Ds Nd) as G.
    assert (Dc : is_double (double_add start (duration buf))).
    { apply round_double_idem. lra. }
    destruct (IH (double_add start (duration buf))) as (S & A); [lra | exact Dc | exact R' |].
    split.
    + destruct (schedule P (double_add start (duration buf)) rest) as [| [s2 b2] more];
        [exact I |].
      cbn [in_sequence]. inversion A as [| ? ? H2 _]; subst. cbn [fst] in H2.
      repeat split; [exact H2 | lra | exact S].
    + constructor; [exact L |].
      eapply Forall_impl; [| exact A]. cbn beta. intros sb H. lra.
  - inversion R as [| ? ? _ R']; subst. now apply IH.
Qed.

Lemma starts_of_app (t u : list Effect) : starts_of (t ++ u) = starts_of t ++ starts_of u.
Proof. apply flat_map_app. Qed.

Lemma resumed_facts (c : handle) (w : World) :
  starts_of (trace (resumed c w)) = starts_of (trace w) /\
  currentTime (resumed c w) = currentTime w.
Proof.
  unfold resumed. destruct (contexts w c); split; try reflexivity.
  cbn [trace set_contexts log set_trace]. rewrite starts_of_app. apply app_nil_r.
Qed.

Lemma set_clock_reads (c : handle) (now : Q) (w : World) :
  currentTime (set_clock c now w) c = now.
Proof. cbn [set_clock set_currentTime currentTime]. unfold update. now rewrite Nat.eqb_refl. Qed.

Lemma V1_receive_spec (c : handle) (events : list PlayerEvent) (a : V1.App) :
  V1.outputAudioCtxRef a = Some c ->
  exists a',
    V1_receive P c events a = (Normal tt, a') /\
    starts_of (trace (V1.world a'))
    = starts_of (trace (V1.world a)) ++ schedule P (V1.nextStartTimeRef a) events.
Proof.
  revert a. induction events as [| [now b | src] rest IH]; intros a O.
  - exists a. split; [reflexivity |]. symmetry. apply app_nil_r.
  - cbn [V1_receive schedule].
    set (at_now := V1.with_world (set_clock c now (V1.world a)) a).
    assert (O' : V1.outputAudioCtxRef at_now = Some c) by exact O.
    rewrite (@bind_normal _ _ _ _ _ a tt at_now) by reflexivity.
    rewrite (bind_normal _ _ _ (@V1_onmessage_audio P b c at_now O')).
    destruct (truthy_string b).
    + destruct (IH (V1_played P b c at_now) O') as (a' & R & S).
      exists a'. split; [exact R |]. rewrite S. clear R S IH.
      destruct (resumed_facts c (V1.world at_now)) as (St & Ct).
      cbn [V1_played V1.world V1.with_sourcesRef V1.with_nextStartTimeRef V1.with_world
           V1.nextStartTimeRef started log set_trace trace set_next_handle].
      rewrite starts_of_app, St, Ct. cbn [starts_of flat_map app].
      change (V1.world at_now) with (set_clock c now (V1.world a)).
      rewrite set_clock_reads. rewrite <- app_assoc. reflexivity.
    + destruct (IH at_now O') as (a' & R & S). exists a'. split; [exact R |].
      rewrite S. reflexivity.
  - cbn [V1_receive schedule].
    set (ended := V1.with_sourcesRef (Set_delete src (V1.sourcesRef a)) a).
    rewrite (@bind_normal _ _ _ _ _ a tt ended) by reflexivity.
    destruct (IH ended O) as (a' & R & S). exists a'. split; [exact R |].
    rewrite S. reflexivity.
Qed.

Lemma V2_receive_spec (c : handle) (events : list PlayerEvent) (a : V2.App) :
  exists a',
    V2_receive P c events a = (Normal tt, a') /\
    starts_of (trace (V2.world a'))
    = starts_of (trace (V2.world a)) ++ schedule P (V2.nextStartTimeRef a) events.
Proof.
  revert a. induction events as [| [now b | src] rest IH]; intros a.
  - exists a. split; [reflexivity |]. symmetry. apply app_nil_r.
  - cbn [V2_receive schedule].
    set (at_now := V2.with_world (set_clock c now (V2.world a)) a).
    rewrite (@bind_normal _ _ _ _ _ a tt at_now) by reflexivity.
    rewrite (bind_normal _ _ _ (V2_onmessage_audio P b c at_now)).
    destruct (truthy_string b).
    + destruct (IH (V2_played P b c at_now)) as (a' & R & S).
      exists a'. split; [exact R |]. rewrite S. clear R S IH.
      cbn [V2_played V2.world V2.with_sourcesRef V2.with_nextStartTimeRef V2.with_world
           V2.with_isMayaSpeaking V2.nextStartTimeRef started log set_trace trace
           set_next_handle].
      rewrite starts_of_app. cbn [starts_of flat_map app].
      change (V2.world at_now) with (set_clock c now (V2.world a)).
      rewrite set_clock_reads. rewrite <- app_assoc. reflexivity.
    + destruct (IH at_now) as (a' & R & S). exists a'. split; [exact R |].
      rewrite S. reflexivity.
  - cbn [V2_receive schedule].
    destruct (V2.source_onended src a) as [r ended] eqn:E.
    assert (F : r = Normal tt /\ V2.world ended = V2.world a /\
                V2.nextStartTimeRef ended = V2.nextStartTimeRef a).
    { unfold V2.source_onended in E. 
      destruct a as [msgs md act thk spk lvl ictx octx node srcs cur sess strm w].
      revert E. run. destruct (Nat.eqb _ 0); run; intro E; inversion E; auto. }
    destruct F as (-> & W & N).
    rewrite (bind_normal _ _ _ E).
    destruct (IH ended) as (a' & R & S). exists a'. split; [exact R |].
    rewrite S, W, N. reflexivity.
Qed.

End Player.

Section PlayerClaims.
Variable P : Platform.

(** C2.  Between interruptions, chunks (and the end of sources) received at
    any readings of the output clock are played by both revisions exactly
    on the [schedule]: every chunk starts at the maximum of the cursor and
    the clock, and the cursor then moves to the double nearest to the sum
    of that start and the duration of the buffer.  Where the cursor and the
    readings of the clock are doubles that are not negative, every source
    starts no earlier than that rounded end of the previous one, hence no
    earlier than it starts; and of two chunks where the first lasts half a
    second and the clock has not passed the cursor when the second arrives,
    the second starts at the double nearest to the start of the first plus
    one half: exactly half a second later where that sum is a double.  The
    rounded sum is within half a unit in the last place of the exact one. *)
Theorem chunks_play_in_sequence (c : handle) (events : list PlayerEvent)
  (a1 : V1.App) (a2 : V2.App) :
  V1.outputAudioCtxRef a1 = Some c ->
  (completion (V1_receive P c events) a1 = Normal tt /\
   starts_of (trace (V1.world (exec (V1_receive P c events) a1)))
   = starts_of (trace (V1.world a1)) ++ schedule P (V1.nextStartTimeRef a1) events) /\
  (completion (V2_receive P c events) a2 = Normal tt /\
   starts_of (trace (V2.world (exec (V2_receive P c events) a2)))
   = starts_of (trace (V2.world a2)) ++ schedule P (V2.nextStartTimeRef a2) events) /\
  (forall cursor,
     (0 <= cursor)%Q -> is_double cursor -> read_doubles events ->
     in_sequence (schedule P cursor events)) /\
  (forall cursor n1 b1 n2 b2,
     (0 <= cursor)%Q ->
     truthy_string b1 = true -> truthy_string b2 = true ->
     (duration (decodeAudioData P (decode P b1) 24000 1) == 1 # 2)%Q ->
     (n2 <= double_add (Qmax cursor n1) (1 # 2))%Q ->
     exists s1 buf1 s2 buf2,
       schedule P cursor [Chunk n1 b1; Chunk n2 b2] = [(s1, buf1); (s2, buf2)] /\
       s1 = Qmax cursor n1 /\
       (s2 == double_add s1 (1 # 2))%Q /\
       (is_double (s1 + (1 # 2)) -> (s2 == s1 + (1 # 2))%Q)) /\
  (forall x y,
     (x + y - 2 ^ ulp_exponent (x + y) / 2 <= double_add x y)%Q /\
     (double_add x y <= x + y + 2 ^ ulp_exponent (x + y) / 2)%Q).
Proof.
  intro O. split; [| split; [| split; [| split]]].
  - destruct (@V1_receive_spec P c events a1 O) as (a' & R & S).
    unfold completion, exec. rewrite R. split; [reflexivity | exact S].
  - destruct (V2_receive_spec P c events a2) as (a' & R & S).
    unfold completion, exec. rewrite R. split; [reflexivity | exact S].
  - intros cursor N D R. now apply schedule_in_sequence.
  - intros cursor n1 b1 n2 b2 N T1 T2 D L.
    cbn [schedule]. rewrite T1, T2.
    set (buf1 := decodeAudioData P (decode P b1) 24000 1) in *.
    set (s1 := Qmax cursor n1) in *.
    pose proof (Q.le_max_l cursor n1) as L1. fold s1 in L1.
    assert (E : (double_add s1 (duration buf1) == double_add s1 (1 # 2))%Q).
    { unfold double_add. apply round_double_comp; [| now rewrite D].
      pose proof (duration_nonneg buf1). lra. }
    assert (S2 : (Qmax (double_add s1 (duration buf1)) n2 == double_add s1 (1 # 2))%Q).
    { rewrite Q.max_l; [exact E | now rewrite E]. }
    do 4 eexists. split; [reflexivity |]. split; [reflexivity |].
    split; [exact S2 |].
    intro Ds. rewrite S2. exact Ds.
  - intros x y. apply round_double_within.
Qed.

End PlayerClaims.

Lemma chunks_play_in_sequence_witness :
  V1.outputAudioCtxRef (V1.with_outputAudioCtxRef (Some 0%nat) (V1.initial empty_world))
  = Some 0%nat /\
  starts_of (trace (V1.world
    (exec (V1_receive half_second_platform 0%nat [Chunk 0 "ab"; Chunk (1 # 4) "cd"])
          (V1.with_outputAudioCtxRef (Some 0%nat) (V1.initial empty_world)))))
  = schedule half_second_platform 0 [Chunk 0 "ab"; Chunk (1 # 4) "cd"] /\
  in_sequence (schedule half_second_platform 0 [Chunk 0 "ab"; Chunk (1 # 4) "cd"]) /\
  exists s1 buf1 s2 buf2,
    schedule half_second_platform 0 [Chunk 0 "ab"; Chunk (1 # 4) "cd"]
    = [(s1, buf1); (s2, buf2)] /\ (s2 == double_add s1 (1 # 2))%Q.
Proof.
  destruct (@chunks_play_in_sequence half_second_platform 0%nat
              [Chunk 0 "ab"; Chunk (1 # 4) "cd"]
              (V1.with_outputAudioCtxRef (Some 0%nat) (V1.initial empty_world))
              (V2.initial half_second_platform empty_world) eq_refl)
    as ((_ & S) & _ & Seq & Half & _).
  split; [reflexivity |]. split; [exact S |]. split.
  - apply Seq.
    + vm_compute. discriminate.
    + vm_compute. reflexivity.
    + repeat constructor; vm_compute; reflexivity.
  - destruct (Half 0%Q 0%Q "ab"%string (1 # 4)%Q "cd"%string)
      as (s1 & buf1 & s2 & buf2 & E & _ & D & _).
    + vm_compute. discriminate.
    + reflexivity.
    + reflexivity.
    + vm_compute. reflexivity.
    + vm_compute. discriminate.
    + exists s1, buf1, s2, buf2. split; [exact E | exact D].
Defined.

(** C2, as the specification states it, fails by a rounding.  One render
    quantum into the life of the output context (128 frames at 24 kHz) the
    clock reads the double nearest to 128/24000; two chunks of half a
    second received then are started by both revisions at that reading and
    at the double nearest to it plus one half, which is less than the
    exact sum: the second source starts before the first has ended, and
    not exactly half a second after it. *)
Lemma chunks_overlap_by_rounding :
  exists s1 b1 s2 b2,
    starts_of (trace (V1.world
      (exec (V1_receive half_second_platform 0%nat after_one_quantum)
            (V1.with_outputAudioCtxRef (Some 0%nat) (V1.initial empty_world)))))
    = [(s1, b1); (s2, b2)] /\
    starts_of (trace (V2.world
      (exec (V2_receive half_second_platform 0%nat after_one_quantum)
            (V2.initial half_second_platform empty_world))))
    = [(s1, b1); (s2, b2)] /\
    read_doubles after_one_quantum /\
    (duration b1 == 1 # 2)%Q /\
    (round_double (128 # 24000) <= s2)%Q /\
    ~ (s1 + duration b1 <= s2)%Q /\
    ~ no_overlap [(s1, b1); (s2, b2)] /\
    ~ (s2 == s1 + (1 # 2))%Q.
Proof.
  do 4 eexists. split; [vm_compute; reflexivity |].
  split; [vm_compute; reflexivity |].
  split; [repeat constructor; vm_compute; reflexivity |].
  split; [vm_compute; reflexivity |].
  split; [vm_compute; discriminate |].
  split; [vm_compute; intro H; now apply H |].
  split; [intros (H & _); vm_compute in H; now apply H |].
  vm_compute. discriminate.
Qed.

(** ** Interruption *)

Section Interruption.
Variable P : Platform.

Lemma Set_add_keeps (h s : handle) (set : list handle) :
  In s set -> In s (Set_add h set).
Proof.
  intro H. unfold Set_add. destruct (existsb (Nat.eqb h) set); [exact H |].
  apply in_or_app. now left.
Qed.

Lemma V1_play_part_keeps (s : handle) (a : V1.App) (part : Part) :
  In s (V1.sourcesRef a) -> In s (V1.sourcesRef (V1_play_part P a part)).
Proof.
  intro H. unfold V1_play_part.
  destruct (audio_of part), (V1.outputAudioCtxRef a); try exact H.
  now apply Set_add_keeps.
Qed.

Lemma V1_play_parts_keeps (s : handle) (ps : list Part) (a : V1.App) :
  In s (V1.sourcesRef a) -> In s (V1.sourcesRef (fold_left (V1_play_part P) ps a)).
Proof.
  revert a. induction ps as [| part rest IH]; intros a H; [exact H |].
  cbn [fold_left]. apply IH. now apply V1_play_part_keeps.
Qed.

Lemma V1_play_parts_ctx (ps : list Part) (a : V1.App) :
  V1.outputAudioCtxRef (fold_left (V1_play_part P) ps a) = V1.outputAudioCtxRef a.
Proof.
  revert a. induction ps as [| part rest IH]; intro a; [reflexivity |].
  cbn [fold_left]. rewrite IH. unfold V1_play_part.
  destruct (audio_of part); [| reflexivity].
  destruct (V1.outputAudioCtxRef a) eqn:E; [exact E | exact E].
Qed.

Lemma Qmax_zero (now : Q) : (0 <= now)%Q -> (Qmax 0 now == now)%Q.
Proof. intro H. now apply Q.max_r. Qed.

(** C3.  A message that carries the interruption signal is handled without
    an error by both revisions, even where stopping a source throws.  The
    handler first does what it does for the same message without the
    signal; then every source of the active set as it then is (every source
    that was active when the message arrived, and every source the message
    itself started) is stopped, the set is left empty and the cursor is 0:
    these stops are the last calls of the handler, and nothing else is
    changed.  The next chunk, received when the output clock reads [now],
    therefore starts at [max(0, now)], that is at [now], whatever the
    cursor was before the interruption. *)
Theorem interruption_resets (c : handle) (message : LiveServerMessage)
  (sc : ServerContent) (a1 : V1.App) (a2 : V2.App) :
  serverContent message = Some sc ->
  interrupted sc = Some true ->
  let played1 := exec (V1.onmessage P (without_interruption message)) a1 in
  let played2 := exec (V2.onmessage P c (without_interruption message)) a2 in
  (completion (V1.onmessage P message) a1 = Normal tt /\
   exec (V1.onmessage P message) a1 = V1_interrupted played1 /\
   trace (V1.world (exec (V1.onmessage P message) a1))
   = trace (V1.world played1) ++ map SourceStop (V1.sourcesRef played1) /\
   (forall s, In s (V1.sourcesRef a1) -> In s (V1.sourcesRef played1)) /\
   (forall s, In s (V1.sourcesRef played1) ->
      In (SourceStop s) (trace (V1.world (exec (V1.onmessage P message) a1)))) /\
   V1.sourcesRef (exec (V1.onmessage P message) a1) = [] /\
   V1.nextStartTimeRef (exec (V1.onmessage P message) a1) = 0%Q /\
   (forall s, In s (V1.sourcesRef a1) ->
      In (SourceStop s) (trace (V1.world (exec (V1.onmessage P message) a1)))) /\
   (forall now b,
      V1.outputAudioCtxRef a1 = Some c -> (0 <= now)%Q -> truthy_string b = true ->
      exists start,
        (start == now)%Q /\
        starts_of (trace (V1.world
          (exec (V1_receive P c [Chunk now b]) (exec (V1.onmessage P message) a1))))
        = starts_of (trace (V1.world (exec (V1.onmessage P message) a1)))
          ++ [(start, decodeAudioData P (decode P b) 24000 1)])) /\
  (completion (V2.onmessage P c message) a2 = Normal tt /\
   exec (V2.onmessage P c message) a2 = V2_interrupted played2 /\
   trace (V2.world (exec (V2.onmessage P c message) a2))
   = trace (V2.world played2) ++ map SourceStop (V2.sourcesRef played2) /\
   (forall s, In s (V2.sourcesRef a2) -> In s (V2.sourcesRef played2)) /\
   (forall s, In s (V2.sourcesRef played2) ->
      In (SourceStop s) (trace (V2.world (exec (V2.onmessage P c message) a2)))) /\
   V2.sourcesRef (exec (V2.onmessage P c message) a2) = [] /\
   V2.nextStartTimeRef (exec (V2.onmessage P c message) a2) = 0%Q /\
   (forall s, In s (V2.sourcesRef a2) ->
      In (SourceStop s) (trace (V2.world (exec (V2.onmessage P c message) a2)))) /\
   (forall now b,
      (0 <= now)%Q -> truthy_string b = true ->
      exists start,
        (start == now)%Q /\
        starts_of (trace (V2.world
          (exec (V2_receive P c [Chunk now b]) (exec (V2.onmessage P c message) a2))))
        = starts_of (trace (V2.world (exec (V2.onmessage P c message) a2)))
          ++ [(start, decodeAudioData P (decode P b) 24000 1)])).
Proof.
  intros Hsc Hint played1 played2. split.
  - assert (E : exec (V1.onmessage P message) a1 = V1_interrupted played1).
    { unfold played1, exec. rewrite !V1_onmessage_spec. cbn [snd].
      unfold V1_onmessage_result, without_interruption. rewrite Hsc.
      cbn [serverContent opt_chain interrupted inputTranscription outputTranscription
           turnComplete modelTurn truthy_opt_bool parts_of pending_input pending_output].
      rewrite Hint. reflexivity. }
    assert (Keep : forall s, In s (V1.sourcesRef a1) -> In s (V1.sourcesRef played1)).
    { intros s H. unfold played1, exec. rewrite V1_onmessage_spec. cbn [snd].
      unfold V1_onmessage_result.
      match goal with
      | |- context [fold_left (V1_play_part P) ?ps ?b] =>
          pose proof (@V1_play_parts_keeps s ps b) as K
      end.
      destruct (truthy_opt_bool (opt_chain (serverContent (without_interruption message))
                                           interrupted)) eqn:I.
      { unfold without_interruption in I. rewrite Hsc in I. discriminate I. }
      apply K.
      destruct (truthy_opt_bool
                  (opt_chain (serverContent (without_interruption message)) turnComplete));
        exact H. }
    assert (Ctx : V1.outputAudioCtxRef played1 = V1.outputAudioCtxRef a1).
    { unfold played1, exec. rewrite V1_onmessage_spec. cbn [snd].
      unfold V1_onmessage_result.
      destruct (truthy_opt_bool (opt_chain (serverContent (without_interruption message))
                                           interrupted)) eqn:I.
      { unfold without_interruption in I. rewrite Hsc in I. discriminate I. }
      rewrite V1_play_parts_ctx.
      destruct (truthy_opt_bool
                  (opt_chain (serverContent (without_interruption message)) turnComplete));
        reflexivity. }
    split; [unfold completion; now rewrite V1_onmessage_spec |].
    split; [exact E |]. rewrite E.
    split; [reflexivity |]. split; [exact Keep |].
    split.
    { intros s H. cbn [V1_interrupted V1.world V1.with_nextStartTimeRef
                       V1.with_sourcesRef V1.with_world trace set_trace].
      apply in_or_app. right. now apply in_map. }
    split; [reflexivity |]. split; [reflexivity |]. split.
    + intros s H. cbn [V1_interrupted V1.world V1.with_nextStartTimeRef
                       V1.with_sourcesRef V1.with_world trace set_trace].
      apply in_or_app. right. apply in_map. now apply Keep.
    + intros now b O N T.
      assert (O' : V1.outputAudioCtxRef (V1_interrupted played1) = Some c).
      { change (V1.outputAudioCtxRef played1 = Some c). now rewrite Ctx. }
      destruct (@V1_receive_spec P c [Chunk now b] (V1_interrupted played1) O')
        as (a' & R & S).
      exists (Qmax 0 now). split; [now apply Qmax_zero |].
      unfold exec at 1. rewrite R. cbn [snd]. rewrite S. cbn [schedule]. rewrite T.
      reflexivity.
  - assert (E : exec (V2.onmessage P c message) a2 = V2_interrupted played2).
    { unfold played2, exec. rewrite !V2_onmessage_spec. cbn [snd].
      unfold V2_onmessage_result, without_interruption. rewrite Hsc.
      cbn [serverContent opt_chain interrupted inputTranscription outputTranscription
           turnComplete modelTurn truthy_opt_bool first_audio].
      rewrite Hint. reflexivity. }
    assert (Keep : forall s, In s (V2.sourcesRef a2) -> In s (V2.sourcesRef played2)).
    { intros s H. unfold played2, exec. rewrite V2_onmessage_spec. cbn [snd].
      unfold V2_onmessage_result.
      destruct (truthy_opt_bool (opt_chain (serverContent (without_interruption message))
                                           interrupted)) eqn:I.
      { unfold without_interruption in I. rewrite Hsc in I. discriminate I. }
      destruct (first_audio (serverContent (without_interruption message))); [| exact H].
      cbn [V2_played V2.sourcesRef V2.with_sourcesRef]. now apply Set_add_keeps. }
    split; [unfold completion; now rewrite V2_onmessage_spec |].
    split; [exact E |]. rewrite E.
    split; [reflexivity |]. split; [exact Keep |].
    split.
    { intros s H. cbn [V2_interrupted V2.world V2.with_nextStartTimeRef
                       V2.with_sourcesRef V2.with_world V2.with_isMayaSpeaking
                       trace set_trace].
      apply in_or_app. right. now apply in_map. }
    split; [reflexivity |]. split; [reflexivity |]. split.
    + intros s H. cbn [V2_interrupted V2.world V2.with_nextStartTimeRef
                       V2.with_sourcesRef V2.with_world V2.with_isMayaSpeaking
                       trace set_trace].
      apply in_or_app. right. apply in_map. now apply Keep.
    + intros now b N T.
      destruct (V2_receive_spec P c [Chunk now b] (V2_interrupted played2))
        as (a' & R & S).
      exists (Qmax 0 now). split; [now apply Qmax_zero |].
      unfold exec at 1. rewrite R. cbn [snd]. rewrite S. cbn [schedule]. rewrite T.
      reflexivity.
Qed.

End Interruption.

Lemma interruption_resets_witness :
  V1.nextStartTimeRef
    (exec (V1.onmessage reference_platform {| serverContent := Some interrupted_chunk |})
          V1_playing) = 0%Q /\
  exists buf start,
    trace (V1.world
      (exec (V1.onmessage reference_platform {| serverContent := Some interrupted_chunk |})
            V1_playing))
    = [SourceStart 0%nat buf start; SourceStop 3%nat; SourceStop 4%nat; SourceStop 0%nat].
Proof.
  destruct (@interruption_resets reference_platform 0%nat
              {| serverContent := Some interrupted_chunk |} interrupted_chunk
              V1_playing (V2.initial reference_platform empty_world)
              eq_refl eq_refl) as ((_ & _ & T & _ & _ & _ & Z & _) & _).
  split; [exact Z |]. do 2 eexists. rewrite T. vm_compute. reflexivity.
Defined.
(** ** Session lifecycle *)

Section Lifecycle.

Lemma teardown_world_trace (session stream ictx octx : option handle)
  (srcs : list handle) (w : World) :
  trace (teardown_world session stream ictx octx srcs w)
  = trace w ++ teardown_events session stream ictx octx srcs w.
Proof.
  destruct w as [ctxs clk nh tr dn rc ls].
  unfold teardown_world, teardown_events, closing, close_context, log_opt, log.
  destruct session, stream; cbn [option_list map app trace set_trace contexts].
  all: destruct ictx as [i |]; cbn [trace set_trace contexts set_contexts].
  all: repeat match goal with
         | |- context [match ?f ?x with suspended => _ | _ => _ end] =>
             destruct (f x) eqn:?; cbn [trace set_trace contexts set_contexts app]
         end.
  all: destruct octx as [o |]; cbn [trace set_trace contexts set_contexts app].
  all: repeat match goal with
         | |- context [match ?f ?x with suspended => _ | _ => _ end] =>
             destruct (f x) eqn:?; cbn [trace set_trace contexts set_contexts app]
         end.
  all: rewrite <- ?app_assoc; cbn [app]; rewrite ?app_nil_r; reflexivity.
Qed.

Lemma Set_add_length (h : handle) (l : list handle) :
  (List.length (Set_add h l) <= S (List.length l))%nat.
Proof.
  unfold Set_add. destruct (existsb (Nat.eqb h) l); [lia |].
  rewrite length_app. simpl. lia.
Qed.

Lemma Set_delete_length (h : handle) (l : list handle) :
  (List.length (Set_delete h l) <= List.length l)%nat.
Proof. apply filter_length_le. Qed.

Lemma live_from_app (r : Resource) (live : list handle) (t u : list Effect) :
  live_from r live (t ++ u) = live_from r (live_from r live t) u.
Proof. apply fold_left_app. Qed.

Lemma acquisitions_app (r : Resource) (t u : list Effect) :
  acquisitions r (t ++ u) = (acquisitions r t + acquisitions r u)%nat.
Proof. unfold acquisitions. now rewrite filter_app, length_app. Qed.

(** Only an acquisition can make the live set grow. *)
Lemma live_from_bound (r : Resource) (t : list Effect) (live : list handle) :
  (List.length (live_from r live t) <= List.length live + acquisitions r t)%nat.
Proof.
  revert live. induction t as [| e t IH]; intro live; [simpl; lia |].
  change (live_from r live (e :: t)) with (live_from r (live_step r live e) t).
  specialize (IH (live_step r live e)).
  unfold acquisitions in *. cbn [filter]. unfold live_step in *.
  destruct (acquired r e) as [h |].
  - pose proof (Set_add_length h live). cbn [List.length]. lia.
  - destruct (released r e) as [h |].
    + pose proof (Set_delete_length h live). lia.
    + lia.
Qed.

(** Calls that neither acquire nor release leave the live set alone. *)
Lemma live_from_foreign (r : Resource) (t : list Effect) (live : list handle) :
  Forall (foreign r) t -> live_from r live t = live.
Proof.
  intro F. revert live. induction F as [| e t [A R] _ IH]; intro live; [reflexivity |].
  change (live_from r live (e :: t)) with (live_from r (live_step r live e) t).
  rewrite IH. unfold live_step. now rewrite A, R.
Qed.

Lemma acquisitions_none (r : Resource) (t : list Effect) :
  Forall (fun e => acquired r e = None) t -> acquisitions r t = 0%nat.
Proof.
  unfold acquisitions. induction 1 as [| e t A _ IH]; [reflexivity |].
  cbn [filter]. now rewrite A.
Qed.

Lemma Forall_map_effect {A} (f : A -> Effect) (Q : Effect -> Prop) (l : list A) :
  (forall x, Q (f x)) -> Forall Q (map f l).
Proof. intro H. induction l; constructor; auto. Qed.

Lemma closing_shape (c : option handle) (w : World) (Q : Effect -> Prop) :
  (forall h, Q (ContextClose h)) -> Forall Q (closing c w).
Proof.
  intro H. unfold closing. destruct c as [h |]; [| constructor].
  destruct (contexts w h); repeat constructor; apply H.
Qed.

Lemma Set_delete_single (h : handle) : Set_delete h [h] = [].
Proof. unfold Set_delete; cbn [filter]. now rewrite Nat.eqb_refl. Qed.

(** A teardown acquires nothing and releases the stream and the session the
    state refers to. *)
Lemma teardown_events_effect (session stream ictx octx : option handle)
  (srcs : list handle) (w : World) :
  acquisitions microphones (teardown_events session stream ictx octx srcs w) = 0%nat /\
  acquisitions sessions (teardown_events session stream ictx octx srcs w) = 0%nat /\
  live_from microphones (option_list stream)
    (teardown_events session stream ictx octx srcs w) = [] /\
  live_from sessions (option_list session)
    (teardown_events session stream ictx octx srcs w) = [].
Proof.
  unfold teardown_events.
  assert (C1 : forall c w', Forall (foreign microphones) (closing c w'))
    by (intros; apply closing_shape; intro; split; reflexivity).
  assert (C2 : forall c w', Forall (foreign sessions) (closing c w'))
    by (intros; apply closing_shape; intro; split; reflexivity).
  assert (S1 : Forall (foreign microphones) (map SourceStop srcs))
    by (apply Forall_map_effect; intro; split; reflexivity).
  assert (S2 : Forall (foreign sessions) (map SourceStop srcs))
    by (apply Forall_map_effect; intro; split; reflexivity).
  repeat split.
  - apply acquisitions_none. repeat (apply Forall_app; split).
    + apply Forall_map_effect; reflexivity.
    + apply Forall_map_effect; reflexivity.
    + apply closing_shape; reflexivity.
    + apply closing_shape; reflexivity.
    + apply Forall_map_effect; reflexivity.
  - apply acquisitions_none. repeat (apply Forall_app; split).
    + apply Forall_map_effect; reflexivity.
    + apply Forall_map_effect; reflexivity.
    + apply closing_shape; reflexivity.
    + apply closing_shape; reflexivity.
    + apply Forall_map_effect; reflexivity.
  - rewrite live_from_app.
    rewrite (@live_from_foreign microphones (map SessionClose (option_list session)))
      by (apply Forall_map_effect; intro; split; reflexivity).
    rewrite live_from_app.
    assert (K : live_from microphones (option_list stream)
                  (map TrackStop (option_list stream)) = []).
    { destruct stream as [m |]; [| reflexivity]. cbn. apply Set_delete_single. }
    rewrite K. apply live_from_foreign. repeat (apply Forall_app; split); auto.
  - rewrite live_from_app.
    assert (K : live_from sessions (option_list session)
                  (map SessionClose (option_list session)) = []).
    { destruct session as [s |]; [| reflexivity]. cbn. apply Set_delete_single. }
    rewrite K. apply live_from_foreign. repeat (apply Forall_app; split); auto.
    apply Forall_map_effect; intro; split; reflexivity.
Qed.

Lemma V2_torn_down_trace (a : V2.App) :
  trace (V2.world (V2_torn_down a)) = trace (V2.world a) ++ V2_teardown_events a.
Proof. apply teardown_world_trace. Qed.

Lemma V1_torn_down_trace (a : V1.App) :
  trace (V1.world (V1_torn_down a)) = trace (V1.world a) ++ V1_teardown_events a.
Proof. apply teardown_world_trace. Qed.

Lemma V2_startLiveSession_spec (P : Platform) (a : V2.App) :
  truthy_opt_string (API_KEY P) = true ->
  V2.startLiveSession P a = (Normal tt, V2_started P a).
Proof.
  intro K. unfold V2.startLiveSession. rewrite K. cbn [negb].
  unfold try_catch at 1.
  rewrite (bind_normal _ _ _ (V2_stopSession_spec P a)).
  unfold V2_started, V2_acquiring, V2_with_stream, V2_connected, new_context.
  set (a0 := V2_torn_down a).
  destruct a0 as [msgs md act thk spk lvl ictx octx node srcs cur sess strm w].
  destruct w as [ctxs clk nh tr dn rc ls].
  unfold V2.start_contexts, V2.start_stream, V2.start_session, V2.onopen, exec. run.
  match goal with |- context [microphone_granted P ?w] =>
    destruct (microphone_granted P w) eqn:Mic end; run.
  - match goal with |- context [handshake_succeeds P ?w] =>
      destruct (handshake_succeeds P w) eqn:Hs end; run.
    + reflexivity.
    + rewrite V2_stopSession_spec. reflexivity.
  - rewrite V2_stopSession_spec. reflexivity.
Qed.

Lemma V2_startLiveSession_no_key (P : Platform) (a : V2.App) :
  truthy_opt_string (API_KEY P) = false ->
  V2.startLiveSession P a
  = (Normal tt, V2.with_world (log (Alert "API Key missing") (V2.world a)) a).
Proof.
  intro K. unfold V2.startLiveSession. rewrite K.
  destruct a as [msgs md act thk spk lvl ictx octx node srcs cur sess strm w].
  destruct w as [ctxs clk nh tr dn rc ls]. reflexivity.
Qed.

(** What [startLiveSession] does after its teardown: at most one stream and
    one session are acquired, and what is live at the end is what the state
    refers to. *)
Lemma V2_started_rest (P : Platform) (a : V2.App) :
  exists rest,
    trace (V2.world (V2_started P a)) = trace (V2.world (V2_torn_down a)) ++ rest /\
    (acquisitions microphones rest <= 1)%nat /\
    (acquisitions sessions rest <= 1)%nat /\
    live_from microphones [] rest = option_list (V2.streamRef (V2_started P a)) /\
    live_from sessions [] rest = option_list (V2.sessionRef (V2_started P a)).
Proof.
  unfold V2_started.
  set (a1 := V2_acquiring P a).
  assert (A1 : exists n, trace (V2.world a1)
                 = trace (V2.world (V2_torn_down a))
                   ++ [ContextNew n 16000; ContextNew (S n) 24000] /\
               V2.streamRef a1 = None /\ V2.sessionRef a1 = None).
  { exists (next_handle (V2.world (V2_torn_down a))). subst a1.
    unfold V2_acquiring, new_context.
    destruct (V2_torn_down a) as [msgs md act thk spk lvl ictx octx node srcs cur sess strm w]
      eqn:E.
    assert (S1 : strm = None) by (unfold V2_torn_down in E; now inversion E).
    assert (S2 : sess = None) by (unfold V2_torn_down in E; now inversion E).
    destruct w as [ctxs clk nh tr dn rc ls].
    cbn. rewrite <- app_assoc. repeat split; assumption. }
  destruct A1 as (n & T1 & St1 & Se1).
  destruct (microphone_granted P (V2.world a1)).
  - set (a2 := V2_with_stream a1).
    assert (A2 : trace (V2.world a2) = trace (V2.world a1)
                   ++ [GetUserMedia (next_handle (V2.world a1))] /\
                 V2.streamRef a2 = Some (next_handle (V2.world a1)) /\
                 V2.sessionRef a2 = None).
    { subst a2. unfold V2_with_stream.
      destruct a1 as [msgs md act thk spk lvl ictx octx node srcs cur sess strm w].
      destruct w as [ctxs clk nh tr dn rc ls]. cbn in Se1. subst sess.
      repeat split. }
    destruct A2 as (T2 & St2 & Se2).
    set (m := next_handle (V2.world a1)) in *.
    destruct (handshake_succeeds P (V2.world a2)).
    + assert (A3 : exists s tail,
                 trace (V2.world (V2_connected P a2))
                 = trace (V2.world a2) ++ Connect s "Zephyr" :: tail /\
                 Forall (foreign microphones) tail /\ Forall (foreign sessions) tail /\
                 V2.streamRef (V2_connected P a2) = V2.streamRef a2 /\
                 V2.sessionRef (V2_connected P a2) = Some s).
      { exists (next_handle (V2.world a2)). unfold V2_connected, exec.
        rewrite V2_addMessage_spec. cbn [snd].
        destruct a2 as [msgs md act thk spk lvl ictx octx node srcs cur sess strm w].
        destruct w as [ctxs clk nh tr dn rc ls].
        destruct ictx as [i |], strm as [x |]; cbn.
        1: exists [CaptureGraph i x].
        2-4: exists [].
        all: rewrite <- ?app_assoc; repeat split; repeat constructor. }
      destruct A3 as (s & tail & T3 & F1 & F2 & St3 & Se3).
      exists ([ContextNew n 16000; ContextNew (S n) 24000]
              ++ [GetUserMedia m] ++ Connect s "Zephyr" :: tail).
      rewrite T3, T2, T1, St3, St2, Se3. rewrite <- !app_assoc.
      split; [reflexivity |].
      change (Connect s "Zephyr" :: tail) with ([Connect s "Zephyr"] ++ tail).
      rewrite !acquisitions_app, !live_from_app.
      rewrite (acquisitions_none microphones (t := tail))
        by (eapply Forall_impl; [| exact F1]; intros e [A _]; exact A).
      rewrite (acquisitions_none sessions (t := tail))
        by (eapply Forall_impl; [| exact F2]; intros e [A _]; exact A).
      rewrite (@live_from_foreign microphones tail _ F1).
      rewrite (@live_from_foreign sessions tail _ F2).
      repeat split; cbn; try lia; reflexivity.
    + exists ([ContextNew n 16000; ContextNew (S n) 24000]
              ++ [GetUserMedia m] ++ V2_teardown_events a2).
      rewrite V2_torn_down_trace, T2, T1. rewrite <- !app_assoc.
      split; [reflexivity |].
      destruct (teardown_events_effect (V2.sessionRef a2) (V2.streamRef a2)
                  (V2.inputAudioCtxRef a2) (V2.outputAudioCtxRef a2)
                  (V2.sourcesRef a2) (V2.world a2)) as (Q1 & Q2 & L1 & L2).
      fold (V2_teardown_events a2) in Q1, Q2, L1, L2.
      rewrite !acquisitions_app, !live_from_app, Q1, Q2.
      rewrite St2 in L1. rewrite Se2 in L2.
      repeat split; try (cbn; lia).
      * cbn [live_from fold_left]. exact L1.
      * cbn [live_from fold_left]. exact L2.
  - exists ([ContextNew n 16000; ContextNew (S n) 24000] ++ V2_teardown_events a1).
    rewrite V2_torn_down_trace, T1. rewrite <- !app_assoc.
    split; [reflexivity |].
    destruct (teardown_events_effect (V2.sessionRef a1) (V2.streamRef a1)
                (V2.inputAudioCtxRef a1) (V2.outputAudioCtxRef a1)
                (V2.sourcesRef a1) (V2.world a1)) as (Q1 & Q2 & L1 & L2).
    fold (V2_teardown_events a1) in Q1, Q2, L1, L2.
    rewrite !acquisitions_app, !live_from_app, Q1, Q2.
    rewrite St1 in L1. rewrite Se1 in L2.
    repeat split; try (cbn; lia).
    * cbn [live_from fold_left]. exact L1.
    * cbn [live_from fold_left]. exact L2.
Qed.


Lemma close_context_closes (c : handle) (w : World) :
  contexts (close_context (Some c) w) c = closed.
Proof.
  unfold close_context. destruct (contexts w c) eqn:E; cbn; unfold update;
    rewrite ?Nat.eqb_refl; auto.
Qed.

Lemma close_context_keeps (o : option handle) (c : handle) (w : World) :
  contexts w c = closed -> contexts (close_context o w) c = closed.
Proof.
  intro H. unfold close_context. destruct o as [d |]; [| exact H].
  destruct (contexts w d); cbn; unfold update; try exact H;
    destruct (Nat.eqb c d); auto.
Qed.

Lemma teardown_world_closes (session stream ictx octx : option handle)
  (srcs : list handle) (w : World) (c : handle) :
  ictx = Some c \/ octx = Some c ->
  contexts (teardown_world session stream ictx octx srcs w) c = closed.
Proof.
  intro H. unfold teardown_world. cbn [contexts set_trace].
  destruct H as [-> | ->].
  - apply close_context_keeps, close_context_closes.
  - apply close_context_closes.
Qed.

(** From a state that holds what is live, a list of calls that starts with
    a teardown and then acquires at most one resource never has two of them
    live. *)
Lemma never_two_live (r : Resource) (live : list handle) (T rest : list Effect) :
  (List.length live <= 1)%nat ->
  acquisitions r T = 0%nat ->
  live_from r live T = [] ->
  (acquisitions r rest <= 1)%nat ->
  forall p q, T ++ rest = p ++ q -> (List.length (live_from r live p) <= 1)%nat.
Proof.
  intros L A0 K A1 p q E.
  apply app_eq_app in E. destruct E as (l & [[-> ->] | [-> ->]]).
  - pose proof (live_from_bound r p live) as B. rewrite acquisitions_app in A0. lia.
  - rewrite live_from_app, K.
    pose proof (live_from_bound r l []) as B. rewrite acquisitions_app in A1.
    cbn [List.length] in B. lia.
Qed.

Lemma option_list_length {A} (o : option A) : (List.length (option_list o) <= 1)%nat.
Proof. destruct o; simpl; lia. Qed.

(** What the later revision attempts: a call of [startLiveSession] (with
    an API key) that no other handler interrupts at its awaits first runs
    a complete teardown.  Every call it makes comes after the calls of
    [stopSession], which stop the tracks of the stream the state held,
    close its session and leave both of its contexts closed and every
    reference empty, and which acquire nothing.  So, from a state that
    refers to what is live, at no point of such a call are two microphone
    streams or two sessions live, and the state it leaves again refers to
    what is live. *)
Lemma V2_start_uninterrupted (P : Platform) (a : V2.App) :
  truthy_opt_string (API_KEY P) = true ->
  V2_consistent a ->
  exists rest,
    completion (V2.startLiveSession P) a = Normal tt /\
    trace (V2.world (exec (V2.startLiveSession P) a))
      = trace (V2.world (exec (V2.stopSession P) a)) ++ rest /\
    trace (V2.world (exec (V2.stopSession P) a))
      = trace (V2.world a) ++ V2_teardown_events a /\
    V2_released (exec (V2.stopSession P) a) /\
    (forall m, V2.streamRef a = Some m -> In (TrackStop m) (V2_teardown_events a)) /\
    (forall s, V2.sessionRef a = Some s -> In (SessionClose s) (V2_teardown_events a)) /\
    (forall c, V2.inputAudioCtxRef a = Some c \/ V2.outputAudioCtxRef a = Some c ->
       contexts (V2.world (exec (V2.stopSession P) a)) c = closed) /\
    acquisitions microphones (V2_teardown_events a) = 0%nat /\
    acquisitions sessions (V2_teardown_events a) = 0%nat /\
    (forall p q, V2_teardown_events a ++ rest = p ++ q ->
       (List.length (live_after microphones (trace (V2.world a) ++ p)) <= 1)%nat /\
       (List.length (live_after sessions (trace (V2.world a) ++ p)) <= 1)%nat) /\
    V2_consistent (exec (V2.startLiveSession P) a).
Proof.
  intros K [Cm Cs].
  destruct (V2_started_rest P a) as (rest & T & Am & As & Lm & Ls).
  destruct (teardown_events_effect (V2.sessionRef a) (V2.streamRef a)
              (V2.inputAudioCtxRef a) (V2.outputAudioCtxRef a)
              (V2.sourcesRef a) (V2.world a)) as (Q1 & Q2 & L1 & L2).
  fold (V2_teardown_events a) in Q1, Q2, L1, L2.
  exists rest. unfold completion, exec.
  rewrite (V2_startLiveSession_spec P a K), V2_stopSession_spec. cbn [fst snd].
  split; [reflexivity |]. split; [exact T |].
  split; [apply V2_torn_down_trace |].
  split; [repeat split |].
  split.
  { intros m H. unfold V2_teardown_events, teardown_events. rewrite H.
    apply in_or_app. right. apply in_or_app. left. now left. }
  split.
  { intros s H. unfold V2_teardown_events, teardown_events. rewrite H.
    apply in_or_app. left. now left. }
  split; [intros c H; now apply teardown_world_closes |].
  split; [exact Q1 |]. split; [exact Q2 |]. split.
  - intros p q E. unfold live_after. fold (live_from microphones [] (trace (V2.world a) ++ p)).
    unfold live_after in Cm, Cs. rewrite !live_from_app, Cm, Cs. split.
    + eapply never_two_live; eauto using option_list_length.
    + eapply never_two_live; eauto using option_list_length.
  - unfold V2_consistent, live_after in *.
    rewrite T, V2_torn_down_trace, !live_from_app, Cm, Cs, L1, L2. split; assumption.
Qed.

End Lifecycle.

Lemma handleDeepPrompt_busy_gate_witness :
  V2.isThinking (V2.with_isThinking true
                   (V2.with_mode V2.SEARCH (V2.initial reference_platform empty_world)))
  = true /\
  V2.handleDeepPrompt reference_platform "hello"
    (V2.with_isThinking true
       (V2.with_mode V2.SEARCH (V2.initial reference_platform empty_world)))
  = (Normal None,
     V2.with_isThinking true
       (V2.with_mode V2.SEARCH (V2.initial reference_platform empty_world))) /\
  V2.isThinking
    (exec (V2.handleDeepPrompt reference_platform "hello")
          (V2.with_mode V2.SEARCH (V2.initial reference_platform empty_world)))
  = true.
Proof.
  split; [reflexivity |]. split.
  - apply (proj1 (@handleDeepPrompt_busy_gate reference_platform "hello"
                    (V2.with_isThinking true
                       (V2.with_mode V2.SEARCH
                          (V2.initial reference_platform empty_world))))).
    reflexivity.
  - destruct (proj1 (proj2 (@handleDeepPrompt_busy_gate reference_platform "hello"
                    (V2.with_mode V2.SEARCH
                       (V2.initial reference_platform empty_world))))
                eq_refl eq_refl) as (model & contents & m & _ & B & _).
    + discriminate.
    + exact B.
Defined.
(** * Further properties of the code *)

(** ** The encoder: bytes *)

Section EncoderBytes.

Lemma bytes_of_int16_spec (v : Z) :
  exists lo hi,
    bytes_of_int16 v = [lo; hi] /\ 0 <= lo < 256 /\ 0 <= hi < 256 /\
    lo + 256 * hi = v mod 65536.
Proof.
  unfold bytes_of_int16. cbv zeta.
  pose proof (Z.mod_pos_bound v 65536 ltac:(lia)) as B.
  exists ((v mod 65536) mod 256), ((v mod 65536) / 256).
  split; [reflexivity |].
  pose proof (Z.mod_pos_bound (v mod 65536) 256 ltac:(lia)).
  pose proof (Z.div_mod (v mod 65536) 256 ltac:(lia)).
  assert (0 <= (v mod 65536) / 256 < 256).
  { split; [apply Z.div_pos; lia | apply Z.div_lt_upper_bound; lia]. }
  lia.
Qed.

Lemma Uint8Array_length (a : list Z) :
  List.length (Uint8Array_of_Int16Array a) = (2 * List.length a)%nat.
Proof.
  unfold Uint8Array_of_Int16Array. induction a as [| v a IH]; [reflexivity |].
  cbn [flat_map]. rewrite length_app, IH. cbn [bytes_of_int16 List.length]. lia.
Qed.

Lemma Uint8Array_nth (a : list Z) (i : nat) (v : Z) :
  nth_error a i = Some v ->
  nth_error (Uint8Array_of_Int16Array a) (2 * i) = Some ((v mod 65536) mod 256) /\
  nth_error (Uint8Array_of_Int16Array a) (2 * i + 1) = Some ((v mod 65536) / 256).
Proof.
  revert i. induction a as [| u a IH]; intros [| i] H; try discriminate.
  - inversion H; subst. split; reflexivity.
  - cbn [nth_error] in H. destruct (IH i H) as [L R].
    replace (2 * S i)%nat with (S (S (2 * i))) by lia.
    replace (S (S (2 * i)) + 1)%nat with (S (S (2 * i + 1))) by lia.
    split; assumption.
Qed.

Lemma Uint8Array_bytes (a : list Z) :
  Forall (fun b => 0 <= b < 256) (Uint8Array_of_Int16Array a).
Proof.
  unfold Uint8Array_of_Int16Array. induction a as [| v a IH]; [constructor |].
  cbn [flat_map]. apply Forall_app. split; [| exact IH].
  destruct (bytes_of_int16_spec v) as (lo & hi & -> & L & H & _).
  repeat constructor; lia.
Qed.

(** X1.  The payload of [createBlob] (either revision, before base64) holds
    two bytes for every sample, each in [0, 255], low byte first: at the
    index of a sample, the two bytes are the 16-bit two's complement of the
    value stored for it; for the later revision, read back as a signed
    16-bit number they give [scaled_clamped] of the sample.  A frame of
    zeros of any length gives as many pairs of zero bytes. *)
Theorem createBlob_payload (data : list number) (i : nat) (x : number) (n : nat) :
  nth_error data i = Some x ->
  List.length (Uint8Array_of_Int16Array (V1.createBlob_int16 data))
    = (2 * List.length data)%nat /\
  List.length (Uint8Array_of_Int16Array (V2.createBlob_int16 data))
    = (2 * List.length data)%nat /\
  Forall (fun b => 0 <= b < 256) (Uint8Array_of_Int16Array (V1.createBlob_int16 data)) /\
  Forall (fun b => 0 <= b < 256) (Uint8Array_of_Int16Array (V2.createBlob_int16 data)) /\
  (exists lo hi,
     nth_error (Uint8Array_of_Int16Array (V2.createBlob_int16 data)) (2 * i) = Some lo /\
     nth_error (Uint8Array_of_Int16Array (V2.createBlob_int16 data)) (2 * i + 1)
       = Some hi /\
     0 <= lo < 256 /\ 0 <= hi < 256 /\
     (if 128 <=? hi then lo + 256 * hi - 65536 else lo + 256 * hi) = scaled_clamped x) /\
  Uint8Array_of_Int16Array (V1.createBlob_int16 (repeat (Fin 0) n)) = repeat 0 (2 * n) /\
  Uint8Array_of_Int16Array (V2.createBlob_int16 (repeat (Fin 0) n)) = repeat 0 (2 * n).
Proof.
  intro Hx.
  split; [rewrite Uint8Array_length; unfold V1.createBlob_int16, Int16Array_from;
          now rewrite length_map |].
  split; [rewrite Uint8Array_length; unfold V2.createBlob_int16, Int16Array_from;
          now rewrite length_map |].
  split; [apply Uint8Array_bytes |]. split; [apply Uint8Array_bytes |]. split.
  - assert (Hv : nth_error (V2.createBlob_int16 data) i = Some (scaled_clamped x)).
    { rewrite V2_createBlob_int16_spec. now apply map_nth_error. }
    destruct (Uint8Array_nth _ _ Hv) as [L H].
    set (v := scaled_clamped x) in *.
    assert (R : -32768 <= v <= 32767).
    { subst v. destruct x as [| [|] | q]; simpl; try lia. apply clamp16_range. }
    exists ((v mod 65536) mod 256), ((v mod 65536) / 256).
    split; [exact L |]. split; [exact H |].
    pose proof (Z.mod_pos_bound v 65536 ltac:(lia)).
    pose proof (Z.mod_pos_bound (v mod 65536) 256 ltac:(lia)).
    pose proof (Z.div_mod (v mod 65536) 256 ltac:(lia)).
    assert (0 <= (v mod 65536) / 256 < 256).
    { split; [apply Z.div_pos; lia | apply Z.div_lt_upper_bound; lia]. }
    split; [lia |]. split; [lia |].
    destruct (Z_lt_le_dec v 0) as [N | N].
    + assert (E : v mod 65536 = v + 65536)
        by (symmetry; apply (Z.mod_unique _ _ (-1)); lia).
      destruct (Z.leb_spec 128 ((v mod 65536) / 256)) as [G | G]; [lia |].
      exfalso. assert ((v mod 65536) / 256 * 256 <= 127 * 256) by lia. lia.
    + assert (E : v mod 65536 = v) by (apply Z.mod_small; lia).
      destruct (Z.leb_spec 128 ((v mod 65536) / 256)) as [G | G]; [| lia].
      exfalso. assert (128 * 256 <= (v mod 65536) / 256 * 256) by lia. lia.
  - split.
    + induction n as [| n IH]; [reflexivity |].
      replace (2 * S n)%nat with (S (S (2 * n))) by lia.
      cbn [repeat]. rewrite <- IH. reflexivity.
    + induction n as [| n IH]; [reflexivity |].
      replace (2 * S n)%nat with (S (S (2 * n))) by lia.
      cbn [repeat]. rewrite <- IH. reflexivity.
Qed.

End EncoderBytes.

Lemma createBlob_payload_witness :
  nth_error [Fin (1 # 2); Fin (-1)] 1 = Some (Fin (-1)) /\
  exists lo hi,
    nth_error (Uint8Array_of_Int16Array (V2.createBlob_int16 [Fin (1 # 2); Fin (-1)])) 2
      = Some lo /\
    nth_error (Uint8Array_of_Int16Array (V2.createBlob_int16 [Fin (1 # 2); Fin (-1)])) 3
      = Some hi /\
    lo + 256 * hi - 65536 = -32768.
Proof.
  split; [reflexivity |].
  destruct (@createBlob_payload [Fin (1 # 2); Fin (-1)] 1 (Fin (-1)) 0 eq_refl)
    as (_ & _ & _ & _ & (lo & hi & L & H & _ & _ & V) & _).
  exists lo, hi. split; [exact L |]. split; [exact H |].
  cbn in L, H. inversion L; inversion H; subst. reflexivity.
Defined.

Section EarlierEncoder.

Lemma truncate_lt (z : Z) (q : Q) : (0 <= q)%Q -> (q < inject_Z z)%Q -> truncate q < z.
Proof.
  unfold Qle, Qlt, truncate. destruct q as [a b]; simpl. intros N L.
  apply Z.quot_lt_upper_bound; lia.
Qed.

(** X2.  The encoder of the earlier revision wraps clipped input: a sample
    in [1.0, 2.0) is stored as its scaled value minus 65536, a negative
    number, where the later revision stores 32767. *)
Theorem V1_createBlob_wraps_clipped (data : list number) (i : nat) (q : Q) :
  nth_error data i = Some (Fin q) ->
  (1 <= q)%Q -> (q < 2)%Q ->
  nth_error (V1.createBlob_int16 data) i = Some (truncate (q * 32768) - 65536) /\
  -32768 <= truncate (q * 32768) - 65536 < 0 /\
  nth_error (V2.createBlob_int16 data) i = Some 32767.
Proof.
  intros Hx Lo Hi.
  assert (T1 : 32768 <= truncate (q * 32768))
    by (apply truncate_lower; unfold inject_Z; lra).
  assert (T2 : truncate (q * 32768) < 65536)
    by (apply truncate_lt; unfold inject_Z; lra).
  split; [| split; [lia |]].
  - unfold V1.createBlob_int16, Int16Array_from.
    rewrite (map_nth_error _ _ _ Hx). f_equal.
    change (ToInt16 (Fin (q * 32768)) = truncate (q * 32768) - 65536).
    unfold ToInt16. cbv zeta. rewrite Z.mod_small by lia.
    destruct (Z.leb_spec 32768 (truncate (q * 32768))); lia.
  - rewrite V2_createBlob_int16_spec, (map_nth_error _ _ _ Hx). f_equal.
    cbn [scaled_clamped]. unfold clamp16. lia.
Qed.

End EarlierEncoder.

Lemma V1_createBlob_wraps_clipped_witness :
  nth_error [Fin (5 # 4)] 0 = Some (Fin (5 # 4)) /\ (1 <= 5 # 4)%Q /\ (5 # 4 < 2)%Q /\
  nth_error (V1.createBlob_int16 [Fin (5 # 4)]) 0 = Some (-24576).
Proof.
  assert (A : (1 <= 5 # 4)%Q) by (unfold Qle; simpl; lia).
  assert (B : (5 # 4 < 2)%Q) by (unfold Qlt; simpl; lia).
  split; [reflexivity |]. split; [exact A |]. split; [exact B |].
  destruct (@V1_createBlob_wraps_clipped [Fin (5 # 4)] 0 (5 # 4) eq_refl A B)
    as (E & _ & _).
  rewrite E. reflexivity.
Defined.

Section CaptureGuard.
Variable P : Platform.

(** X3.  In the earlier revision a capture frame always updates the input
    level, and it is sent, as the blob [createBlob] makes of it, exactly
    when the session reference is set: with the reference empty no call is
    made at all.  In particular every frame processed after [stopSession]
    is dropped. *)
Theorem V1_frames_guarded (session : handle) (inputData : list number) (a : V1.App) :
  completion (V1.onaudioprocess P session inputData) a = Normal tt /\
  V1.inputLevel (exec (V1.onaudioprocess P session inputData) a) = rms P inputData /\
  trace (V1.world (exec (V1.onaudioprocess P session inputData) a))
  = trace (V1.world a)
    ++ match V1.sessionRef a with
       | Some _ => [SendRealtimeInput session (V1.createBlob P inputData)]
       | None => []
       end /\
  trace (V1.world (exec (V1.onaudioprocess P session inputData)
                        (exec (V1.stopSession P) a)))
  = trace (V1.world (exec (V1.stopSession P) a)).
Proof.
  unfold completion, exec. rewrite !V1_onaudioprocess_spec, V1_stopSession_spec.
  cbn [fst snd]. split; [reflexivity |]. split; [reflexivity |]. split.
  - destruct a as [msgs md act thk lvl ictx octx srcs cur sess strm cin cout w].
    destruct sess; cbn; [reflexivity | now rewrite app_nil_r].
  - reflexivity.
Qed.

(** X4.  The awaits of the message handler.  Run from its first statement
    to its last with no other handler in between, the handler of either
    revision completes, whatever the message and the state (a context that
    is closed or missing, a source whose stop throws; the decoder is taken
    to return).  The handler of the earlier revision reads
    [outputAudioCtxRef.current] again after each of its awaits: resumed
    once [stopSession] has run in between, it throws a TypeError there, so
    that it starts no source, plays none of the later parts and skips the
    interruption, and the state is not changed.  The handler of the later
    revision holds its context in a constant: resumed once [stopSession]
    has run in between, it completes, and (the message carrying no
    interruption) it starts the source it has decoded at time 0 and puts it
    into the set that the teardown had emptied. *)
Theorem onmessage_awaits (c : handle) (message : LiveServerMessage)
  (a1 : V1.App) (a2 : V2.App) :
  (completion (V1.onmessage P message) a1 = Normal tt /\
   completion (V2.onmessage P c message) a2 = Normal tt) /\
  (forall b buf rest,
     V1.onmessage_resumed P b rest message (exec (V1.stopSession P) a1)
     = (Throw TypeError, exec (V1.stopSession P) a1) /\
     V1.onmessage_decoded P buf rest message (exec (V1.stopSession P) a1)
     = (Throw TypeError, exec (V1.stopSession P) a1)) /\
  (forall buf,
     truthy_opt_bool (opt_chain (serverContent message) interrupted) = false ->
     let stopped := exec (V2.stopSession P) a2 in
     let late := exec (V2.onmessage_decoded P buf message) stopped in
     completion (V2.onmessage_decoded P buf message) stopped = Normal tt /\
     trace (V2.world late)
     = trace (V2.world stopped) ++ [SourceStart (next_handle (V2.world stopped)) buf 0] /\
     V2.sourcesRef late = [next_handle (V2.world stopped)] /\
     V2.nextStartTimeRef late = double_add 0 (duration buf) /\
     V2.outputAudioCtxRef late = None /\
     V2.isActive late = false).
Proof.
  split; [| split].
  - unfold completion. now rewrite V1_onmessage_spec, V2_onmessage_spec.
  - intros b buf rest. unfold exec. rewrite V1_stopSession_spec. cbn [snd].
    destruct a1 as [msgs md act thk lvl ictx octx srcs cur sess strm cin cout w].
    split; reflexivity.
  - intros buf NI stopped late. subst late stopped.
    unfold completion, exec, V2.onmessage_decoded, V2.onmessage_interrupted.
    rewrite V2_stopSession_spec, NI. cbn [snd when].
    destruct a2 as [msgs md act thk spk lvl ictx octx node srcs cur sess strm w].
    unfold V2_torn_down, V2.play_decoded.
    cbn [V2.sessionRef V2.streamRef V2.inputAudioCtxRef V2.outputAudioCtxRef V2.world].
    set (w0 := teardown_world _ _ _ _ _).
    destruct w0 as [ctxs clk nh tr dn rc ls].
    repeat split.
Qed.

End CaptureGuard.

Section TranscriptBuffers.
Variable P : Platform.

(** X5.  A message without the turn-complete signal emits nothing: the
    journal is unchanged and each buffer is extended by the fragment the
    message carries, if any (a fragment whose text is undefined extends it
    by the string "undefined").  So fragments accumulate in arrival order
    until the turn completes. *)
Theorem fragments_accumulate (message : LiveServerMessage) (a : V1.App) :
  truthy_opt_bool (opt_chain (serverContent message) turnComplete) = false ->
  V1.messages (exec (V1.onmessage P message) a) = V1.messages a /\
  V1.currentInputTranscription (exec (V1.onmessage P message) a)
  = match opt_chain (serverContent message) inputTranscription with
    | Some {| transcription_text := Some t |} =>
        (V1.currentInputTranscription a ++ t)%string
    | Some {| transcription_text := None |} =>
        (V1.currentInputTranscription a ++ "undefined")%string
    | None => V1.currentInputTranscription a
    end /\
  V1.currentOutputTranscription (exec (V1.onmessage P message) a)
  = match opt_chain (serverContent message) outputTranscription with
    | Some {| transcription_text := Some t |} =>
        (V1.currentOutputTranscription a ++ t)%string
    | Some {| transcription_text := None |} =>
        (V1.currentOutputTranscription a ++ "undefined")%string
    | None => V1.currentOutputTranscription a
    end.
Proof.
  intro NT. unfold exec. rewrite V1_onmessage_spec. cbn [snd].
  unfold V1_onmessage_result. rewrite NT.
  set (sc := serverContent message).
  match goal with
  | |- context [fold_left (V1_play_part P) ?ps ?b] =>
      destruct (V1_play_parts_journal P ps b) as (M & I & O);
      set (c := fold_left (V1_play_part P) ps b) in *
  end.
  assert (K : same_journal c (if truthy_opt_bool (opt_chain sc interrupted)
                              then V1_interrupted c else c)).
  { destruct (truthy_opt_bool (opt_chain sc interrupted)); repeat split. }
  destruct K as (M' & I' & O'). rewrite M', I', O', M, I, O.
  unfold pending_input, pending_output, js_concat.
  destruct a as [msgs md act thk lvl ictx octx srcs cur sess strm cin cout w].
  destruct (opt_chain sc inputTranscription) as [[[ti |]] |];
    destruct (opt_chain sc outputTranscription) as [[[to |]] |];
    repeat split.
Qed.

End TranscriptBuffers.

Lemma fragments_accumulate_witness :
  V1.currentInputTranscription
    (exec (V1.onmessage reference_platform
             {| serverContent := Some
                  {| inputTranscription := Some {| transcription_text := Some "lo"%string |};
                     outputTranscription := None; turnComplete := None;
                     modelTurn := None; interrupted := None |} |})
          (V1.with_currentInputTranscription "Hel" (V1.initial empty_world)))
  = "Hello"%string.
Proof.
  destruct (@fragments_accumulate reference_platform
              {| serverContent := Some
                   {| inputTranscription := Some {| transcription_text := Some "lo"%string |};
                      outputTranscription := None; turnComplete := None;
                      modelTurn := None; interrupted := None |} |}
              (V1.with_currentInputTranscription "Hel" (V1.initial empty_world))
              eq_refl) as (_ & I & _).
  rewrite I. reflexivity.
Defined.

Section Scheduling.
Variable P : Platform.

Lemma Set_add_In (h : handle) (set : list handle) : In h (Set_add h set).
Proof.
  unfold Set_add. destruct (existsb (Nat.eqb h) set) eqn:E.
  - apply existsb_exists in E. destruct E as (x & I & Hx).
    apply Nat.eqb_eq in Hx. now subst.
  - apply in_or_app. right. now left.
Qed.

(** X6.  A chunk is never scheduled in the past: in the later revision, a
    message whose first part carries audio and that carries no
    interruption, handled with no other handler running at its await,
    starts exactly one new source, at a time that is neither before the
    reading of the output clock nor before the cursor; the source joins
    the active set, the speaking indicator is on, and the cursor moves to
    the end of the source as the program computes it: the double nearest
    to the start plus the duration, which is not before the start where
    the start is a double that is not negative. *)
Theorem chunk_not_in_the_past (c : handle) (message : LiveServerMessage) (b : string)
  (a : V2.App) :
  first_audio (serverContent message) = Some b ->
  truthy_opt_bool (opt_chain (serverContent message) interrupted) = false ->
  exists source start,
    trace (V2.world (exec (V2.onmessage P c message) a))
    = trace (V2.world a)
      ++ [SourceStart source (decodeAudioData P (decode P b) 24000 1) start] /\
    (currentTime (V2.world a) c <= start)%Q /\
    (V2.nextStartTimeRef a <= start)%Q /\
    V2.nextStartTimeRef (exec (V2.onmessage P c message) a)
    = double_add start (duration (decodeAudioData P (decode P b) 24000 1)) /\
    ((0 <= start)%Q -> is_double start ->
     (start <= V2.nextStartTimeRef (exec (V2.onmessage P c message) a))%Q) /\
    In source (V2.sourcesRef (exec (V2.onmessage P c message) a)) /\
    V2.isMayaSpeaking (exec (V2.onmessage P c message) a) = true.
Proof.
  intros A NI. unfold exec. rewrite V2_onmessage_spec. cbn [snd].
  unfold V2_onmessage_result. rewrite A, NI.
  exists (next_handle (V2.world a)),
         (Qmax (V2.nextStartTimeRef a) (currentTime (V2.world a) c)).
  split; [reflexivity |].
  split; [apply Q.le_max_r |]. split; [apply Q.le_max_l |].
  split; [reflexivity |]. split.
  - intros N D. cbn [V2_played V2.nextStartTimeRef V2.with_sourcesRef V2.with_nextStartTimeRef].
    apply double_add_ge; [exact N | exact D | apply duration_nonneg].
  - split; [apply Set_add_In | reflexivity].
Qed.

(** X7.  The ['ended'] listener removes the source from the active set and
    nothing else from it, and makes no call on the platform; the cursor is
    untouched.  In the later revision the speaking indicator goes off when,
    and only when, the set has become empty. *)
Theorem source_onended_removes (source : handle) (a1 : V1.App) (a2 : V2.App) :
  (completion (V1.source_onended source) a1 = Normal tt /\
   V1.sourcesRef (exec (V1.source_onended source) a1)
   = filter (fun s => negb (Nat.eqb s source)) (V1.sourcesRef a1) /\
   ~ In source (V1.sourcesRef (exec (V1.source_onended source) a1)) /\
   V1.nextStartTimeRef (exec (V1.source_onended source) a1) = V1.nextStartTimeRef a1 /\
   V1.world (exec (V1.source_onended source) a1) = V1.world a1) /\
  (completion (V2.source_onended source) a2 = Normal tt /\
   V2.sourcesRef (exec (V2.source_onended source) a2)
   = filter (fun s => negb (Nat.eqb s source)) (V2.sourcesRef a2) /\
   ~ In source (V2.sourcesRef (exec (V2.source_onended source) a2)) /\
   V2.nextStartTimeRef (exec (V2.source_onended source) a2) = V2.nextStartTimeRef a2 /\
   V2.world (exec (V2.source_onended source) a2) = V2.world a2 /\
   V2.isMayaSpeaking (exec (V2.source_onended source) a2)
   = match V2.sourcesRef (exec (V2.source_onended source) a2) with
     | [] => false
     | _ :: _ => V2.isMayaSpeaking a2
     end).
Proof.
  assert (N : forall l, ~ In source (filter (fun s => negb (Nat.eqb s source)) l)).
  { intros l H. apply filter_In in H. destruct H as [_ H].
    now rewrite Nat.eqb_refl in H. }
  split.
  - destruct a1 as [msgs md act thk lvl ictx octx srcs cur sess strm cin cout w].
    unfold completion, exec, V1.source_onended, Set_delete. cbn.
    repeat split. apply N.
  - destruct a2 as [msgs md act thk spk lvl ictx octx node srcs cur sess strm w].
    unfold completion, exec, V2.source_onended, Set_delete. cbn.
    pose proof (N srcs) as N'.
    destruct (filter (fun s => negb (Nat.eqb s source)) srcs) eqn:E;
      cbn; repeat split; exact N'.
Qed.

End Scheduling.

Lemma chunk_not_in_the_past_witness :
  exists source start,
    trace (V2.world (exec (V2.onmessage half_second_platform 1%nat (audio_message "ab"))
                          (V2.with_nextStartTimeRef 3%Q
                             (V2.initial half_second_platform empty_world))))
    = [SourceStart source {| frames := 12; sampleRate := 24 |} start] /\
    (3 <= start)%Q /\
    V2.nextStartTimeRef
      (exec (V2.onmessage half_second_platform 1%nat (audio_message "ab"))
            (V2.with_nextStartTimeRef 3%Q (V2.initial half_second_platform empty_world)))
    = double_add start (1 # 2).
Proof.
  destruct (@chunk_not_in_the_past half_second_platform 1%nat (audio_message "ab") "ab"
              (V2.with_nextStartTimeRef 3%Q
                 (V2.initial half_second_platform empty_world)) eq_refl eq_refl)
    as (source & start & T & _ & L & N & _).
  exists source, start. split; [exact T |]. split; [exact L | exact N].
Defined.
(** ** The journal panel *)

Section JournalPanel.
Variable P : Platform.

(** The test of [deleteMessage]: the entry carries the identifier. *)
Lemma has_id_true (i : string) (m : Message) :
  match id m with Some j => String.eqb j i | None => false end = true <-> id m = Some i.
Proof.
  destruct (id m) as [j |]; [| split; discriminate].
  rewrite String.eqb_eq. split; congruence.
Qed.

Lemma filter_unchanged {A} (f : A -> bool) (l : list A) :
  (forall x, In x l -> f x = true) -> filter f l = l.
Proof.
  induction l as [| x l IH]; intro H; [reflexivity |].
  cbn [filter]. rewrite (H x (or_introl eq_refl)). f_equal.
  apply IH. intros y I. apply H. now right.
Qed.

Lemma filter_idem {A} (f : A -> bool) (l : list A) : filter f (filter f l) = filter f l.
Proof.
  apply filter_unchanged. intros x I. apply filter_In in I. tauto.
Qed.

(** X8.  [deleteMessage] (later revision) always completes and makes no
    call on the platform; the journal it leaves holds exactly the entries
    that do not carry the identifier, so it never grows, it is unchanged
    when no entry carries the identifier, and deleting the same identifier
    again changes nothing.  The live session is not touched. *)
Theorem deleteMessage_forgets (i : string) (a : V2.App) :
  let a' := exec (V2.deleteMessage i) a in
  completion (V2.deleteMessage i) a = Normal tt /\
  (forall m, In m (V2.messages a') <-> In m (V2.messages a) /\ id m <> Some i) /\
  (List.length (V2.messages a') <= List.length (V2.messages a))%nat /\
  ((forall m, In m (V2.messages a) -> id m <> Some i) -> a' = a) /\
  V2.world a' = V2.world a /\
  V2.sessionRef a' = V2.sessionRef a /\
  V2.isActive a' = V2.isActive a /\
  exec (V2.deleteMessage i) a' = a'.
Proof.
  destruct a as [msgs md act thk spk lvl ictx octx node srcs cur sess strm w].
  cbn. split; [reflexivity |]. split; [| split; [| split; [| split; [| split; [| split]]]]];
    try reflexivity.
  - intro m. rewrite filter_In, negb_true_iff, <- not_true_iff_false, has_id_true. tauto.
  - apply filter_length_le.
  - intro H. rewrite filter_unchanged; [reflexivity |].
    intros m I. rewrite negb_true_iff, <- not_true_iff_false, has_id_true. now apply H.
  - now rewrite filter_idem.
Qed.

(** X9.  When the identifiers of the journal are pairwise distinct,
    deleting the identifier of an entry removes that entry and no other:
    the entries before it and after it stay, in their order. *)
Theorem deleteMessage_unique (i : string) (a : V2.App) (before after : list Message)
  (m : Message) :
  NoDup (map id (V2.messages a)) ->
  V2.messages a = before ++ m :: after ->
  id m = Some i ->
  V2.messages (exec (V2.deleteMessage i) a) = before ++ after.
Proof.
  intros N E I.
  destruct a as [msgs md act thk spk lvl ictx octx node srcs cur sess strm w].
  cbn in *. subst msgs.
  rewrite map_app in N. cbn [map] in N. apply NoDup_remove in N. destruct N as [_ N].
  rewrite filter_app. cbn [filter].
  assert (D : match id m with Some j => String.eqb j i | None => false end = true)
    by now apply has_id_true.
  rewrite D. cbn [negb].
  rewrite !filter_unchanged; [reflexivity | |].
  - intros x Ix. rewrite negb_true_iff, <- not_true_iff_false, has_id_true.
    intro Hx. apply N. apply in_or_app. right. rewrite I, <- Hx. now apply in_map.
  - intros x Ix. rewrite negb_true_iff, <- not_true_iff_false, has_id_true.
    intro Hx. apply N. apply in_or_app. left. rewrite I, <- Hx. now apply in_map.
Qed.

End JournalPanel.

Lemma deleteMessage_unique_witness :
  V2.messages
    (exec (V2.deleteMessage "b")
          (V2_with_journal [entry "a" user "one"; entry "b" maya "two";
                            entry "c" user "three"]))
  = [entry "a" user "one"; entry "c" user "three"].
Proof.
  apply (@deleteMessage_unique "b"
           (V2_with_journal [entry "a" user "one"; entry "b" maya "two";
                             entry "c" user "three"])
           [entry "a" user "one"] [entry "c" user "three"] (entry "b" maya "two")).
  - cbn. repeat constructor; cbn; intuition discriminate.
  - reflexivity.
  - reflexivity.
Defined.

Section Persistence.
Variable P : Platform.

(** X10.  [clearMemories]: when the user declines, nothing changes; when
    the user confirms, the journal is emptied and the stored item is
    removed, without a call on the platform and without touching the live
    session.  The effect that follows the change of the journal then
    writes the empty list back, so what storage holds after a confirmed
    clearing is the empty journal (not an absent item), and a reload starts
    from the empty journal. *)
Theorem clearMemories_clears (a : V2.App) :
  let a' := exec (V2.clearMemories true) a in
  let a'' := exec V2.useEffect_messages a' in
  V2.clearMemories false a = (Normal tt, a) /\
  completion (V2.clearMemories true) a = Normal tt /\
  V2.messages a' = [] /\
  localStorage (V2.world a') = None /\
  trace (V2.world a') = trace (V2.world a) /\
  V2.sessionRef a' = V2.sessionRef a /\
  V2.isActive a' = V2.isActive a /\
  localStorage (V2.world a'') = Some [] /\
  V2.messages (V2.initial P (V2.world a')) = [] /\
  V2.messages (V2.initial P (V2.world a'')) = [].
Proof.
  destruct a as [msgs md act thk spk lvl ictx octx node srcs cur sess strm w].
  destruct w as [ctxs clk nh tr dn rc ls].
  cbn. repeat split; reflexivity.
Qed.

(** The initializer of the journal, as a function: the number of
    identifiers it draws and the list it gives. *)
Lemma restore_spec (saved : list Message) (w : World) :
  exists ms,
    V2.restore P saved w
    = (Normal ms,
       set_random_calls
         (random_calls w
          + List.length (filter (fun m => negb (truthy_opt_string (id m))) saved)) w) /\
    map role ms = map role saved /\
    map text ms = map text saved /\
    map timestamp ms = map timestamp saved /\
    map imageUrl ms = map imageUrl saved /\
    Forall (fun m => id m <> None) ms /\
    (Forall (fun m => truthy_opt_string (id m) = true) saved -> ms = saved).
Proof.
  revert w. induction saved as [| m rest IH]; intro w.
  - exists []. destruct w as [ctxs clk nh tr dn rc ls]. cbn.
    rewrite Nat.add_0_r. repeat split; auto.
  - cbn [V2.restore filter].
    destruct (truthy_opt_string (id m)) eqn:T; cbn [negb].
    + destruct (IH w) as (ms & E & R & Tx & Ts & Im & Ids & Same).
      exists ({| id := id m; role := role m; text := text m; timestamp := timestamp m;
                 imageUrl := imageUrl m |} :: ms).
      split; [| repeat split].
      * unfold bind, ret. rewrite E. reflexivity.
      * cbn. now rewrite R.
      * cbn. now rewrite Tx.
      * cbn. now rewrite Ts.
      * cbn. now rewrite Im.
      * constructor; [| exact Ids]. cbn. destruct (id m); [discriminate | discriminate].
      * intro F. inversion F; subst. rewrite Same by assumption. now destruct m.
    + destruct (IH (set_random_calls (S (random_calls w)) w))
        as (ms & E & R & Tx & Ts & Im & Ids & Same).
      exists ({| id := Some (random_id P (random_calls w)); role := role m; text := text m;
                 timestamp := timestamp m; imageUrl := imageUrl m |} :: ms).
      split; [| repeat split].
      * destruct w as [ctxs clk nh tr dn rc ls].
        unfold Math_random_id, bind, ret, gets, modify. cbn [random_calls].
        cbn [random_calls set_random_calls] in E. rewrite E.
        unfold set_random_calls. cbn. f_equal. f_equal. lia.
      * cbn. now rewrite R.
      * cbn. now rewrite Tx.
      * cbn. now rewrite Ts.
      * cbn. now rewrite Im.
      * constructor; [discriminate | exact Ids].
      * intro F. inversion F; subst. congruence.
Qed.

(** X11.  Reload: the journal a fresh component starts from holds the
    stored entries position by position, with their roles, texts,
    timestamps and images; every entry has an identifier afterwards, and
    one new identifier is drawn for each stored entry that had none (or an
    empty one).  Nothing is stored by the initializer itself. *)
Theorem restore_keeps_content (saved : list Message) (w : World) :
  let a := V2.initial P (set_localStorage (Some saved) w) in
  map role (V2.messages a) = map role saved /\
  map text (V2.messages a) = map text saved /\
  map timestamp (V2.messages a) = map timestamp saved /\
  map imageUrl (V2.messages a) = map imageUrl saved /\
  List.length (V2.messages a) = List.length saved /\
  Forall (fun m => id m <> None) (V2.messages a) /\
  random_calls (V2.world a)
  = (random_calls w
     + List.length (filter (fun m => negb (truthy_opt_string (id m))) saved))%nat /\
  localStorage (V2.world a) = Some saved /\
  trace (V2.world a) = trace w.
Proof.
  cbv zeta. unfold V2.initial.
  destruct (restore_spec saved (set_localStorage (Some saved) w))
    as (ms & E & R & Tx & Ts & Im & Ids & _).
  cbn [localStorage set_localStorage]. rewrite E.
  destruct w as [ctxs clk nh tr dn rc ls]. cbn.
  repeat split; try assumption.
  rewrite <- (length_map role ms), R. apply length_map.
Qed.


End Persistence.


(** ** Reports of failures *)

Section ErrorReports.
Variable P : Platform.

Lemma substring_length (n : nat) (s : string) :
  (String.length (substring 0 n s) <= n)%nat.
Proof.
  revert s. induction n as [| n IH]; intros [| c s]; cbn; try lia.
  specialize (IH s). lia.
Qed.

Lemma length_append (s t : string) :
  String.length (s ++ t) = (String.length s + String.length t)%nat.
Proof. induction s as [| c s IH]; cbn; [reflexivity | now rewrite IH]. Qed.

(** The report of an error whose message, or else its string, is text. *)
Lemma V2_handleApiError_spec (err : Exn) (msg : string) (a : V2.App) :
  V2.message_or_string err = Str msg ->
  exists t,
    V2.handleApiError P err a = V2.addMessage P maya t None a /\
    (String.length t <= 80)%nat /\ truthy_string t = true /\
    prefix_of "[System:" t = (includes msg "429" || includes msg "quota")%bool /\
    (prefix_of "[System:" t = false ->
     t = ("[System Link Failure: " ++ substring 0 50 msg ++ "...]")%string).
Proof.
  intro E. unfold V2.handleApiError. rewrite E.
  destruct (includes msg "429" || includes msg "quota")%bool eqn:C.
  - eexists. split; [reflexivity |]. split; [cbn; lia |]. split; [reflexivity |].
    split; [reflexivity | discriminate].
  - eexists. split; [reflexivity |]. split; [| split].
    + rewrite !length_append. pose proof (substring_length 50 msg). cbn. lia.
    + reflexivity.
    + split; [reflexivity |]. intros _. reflexivity.
Qed.

Lemma message_or_string_text (err : Exn) (msg : string) :
  exn_message err = Some msg -> truthy_string msg = true ->
  V2.message_or_string err = Str msg.
Proof.
  unfold exn_message, V2.message_or_string. intros E T.
  destruct (message err); try discriminate E. injection E as ->.
  cbn [truthy]. now rewrite T.
Qed.

Lemma message_or_string_falsy (err : Exn) :
  truthy (message err) = false -> V2.message_or_string err = Str (exn_string err).
Proof. unfold V2.message_or_string. now intros ->. Qed.

(** What one appended entry leaves alone. *)
Lemma V2_addMessage_frame (r : Role) (t : string) (img : option string) (a : V2.App) :
  let a' := exec (V2.addMessage P r t img) a in
  trace (V2.world a') = trace (V2.world a) /\
  V2.isThinking a' = V2.isThinking a /\
  V2.isActive a' = V2.isActive a /\
  V2.sessionRef a' = V2.sessionRef a.
Proof.
  cbv zeta. unfold exec. rewrite V2_addMessage_spec.
  destruct a as [msgs md act thk spk lvl ictx octx node srcs cur sess strm w].
  destruct w as [ctxs clk nh tr dn rc ls]. repeat split.
Qed.

Lemma V2_handleApiError_frame (err : Exn) (a : V2.App) :
  let a' := exec (V2.handleApiError P err) a in
  trace (V2.world a') = trace (V2.world a) /\
  V2.isThinking a' = V2.isThinking a /\
  V2.isActive a' = V2.isActive a /\
  V2.sessionRef a' = V2.sessionRef a.
Proof.
  cbv zeta. destruct (V2_handleApiError_cases P err a) as [[t E] | E].
  - unfold exec. rewrite E. apply V2_addMessage_frame.
  - unfold exec. rewrite E. repeat split.
Qed.

(** X13.  [handleApiError] reports [err?.message || String(err)].  Where
    that is text (the message of the error is a string that is not empty,
    or it is missing or otherwise falsy and the string of the error is
    taken), the call completes and appends exactly one assistant entry to
    the journal (under the cap of 50), with a text that is not empty and
    has at most 80 characters.  Where the message is a truthy value without
    an [includes] method (the number 429, say, or [true]), the call throws
    a TypeError before it has done anything.  In every case the call either
    appends exactly one assistant entry or throws and changes nothing; it
    makes no call on the platform and leaves the busy flag and the live
    session alone. *)
Theorem handleApiError_reports (err : Exn) (a : V2.App) :
  let a' := exec (V2.handleApiError P err) a in
  (forall msg,
     V2.message_or_string err = Str msg ->
     exists m,
       completion (V2.handleApiError P err) a = Normal tt /\
       V2.messages a' = V2.slice_last 50 (V2.messages a ++ [m]) /\
       role m = maya /\ imageUrl m = None /\
       truthy_string (text m) = true /\
       (String.length (text m) <= 80)%nat) /\
  (forall msg, message err = Str msg -> truthy_string msg = true ->
     V2.message_or_string err = Str msg) /\
  (truthy (message err) = false -> V2.message_or_string err = Str (exn_string err)) /\
  (truthy (message err) = true ->
   match message err with
   | Num _ | Bool _ | Obj None _ =>
       completion (V2.handleApiError P err) a = Throw TypeError /\ a' = a
   | _ => True
   end) /\
  ((exists m,
      completion (V2.handleApiError P err) a = Normal tt /\
      V2.messages a' = V2.slice_last 50 (V2.messages a ++ [m]) /\
      role m = maya /\ imageUrl m = None) \/
   (completion (V2.handleApiError P err) a = Throw TypeError /\ a' = a)) /\
  trace (V2.world a') = trace (V2.world a) /\
  V2.isThinking a' = V2.isThinking a /\
  V2.isActive a' = V2.isActive a /\
  V2.sessionRef a' = V2.sessionRef a.
Proof.
  cbv zeta. split; [| split; [| split; [| split; [| split]]]].
  - intros msg E. destruct (V2_handleApiError_spec err a E) as (t & R & L & T & _).
    unfold completion, exec. rewrite R, V2_addMessage_spec.
    eexists. cbn [fst snd V2.messages V2.with_messages V2.with_world role imageUrl text].
    repeat split; try reflexivity; assumption.
  - intros msg E T. apply message_or_string_text; [| exact T].
    unfold exn_message. now rewrite E.
  - apply message_or_string_falsy.
  - intro T. unfold completion, exec, V2.handleApiError, V2.message_or_string.
    rewrite T. destruct (message err) as [| | b | n | s | [inc |] sub]; try exact I;
      split; reflexivity.
  - destruct (V2_handleApiError_cases P err a) as [[t E] | E].
    + left. unfold completion, exec. rewrite E, V2_addMessage_spec.
      eexists. cbn [fst snd V2.messages V2.with_messages V2.with_world role imageUrl].
      repeat split.
    + right. unfold completion, exec. rewrite E. split; reflexivity.
  - apply V2_handleApiError_frame.
Qed.

(** X14.  What the report says, for an error with a message: the fixed
    advisory when the message mentions 429 or quota, and otherwise the
    first 50 characters of the message between [[System Link Failure: ]
    and [...]].  The journal styles the advisory as a system note (its text
    starts with [[System:]), and does not style the failure report. *)
Theorem handleApiError_classifies (err : Exn) (msg : string) (a : V2.App) :
  exn_message err = Some msg ->
  truthy_string msg = true ->
  exists m,
    V2.messages (exec (V2.handleApiError P err) a)
    = V2.slice_last 50 (V2.messages a ++ [m]) /\
    system_styled m = (includes msg "429" || includes msg "quota")%bool /\
    (system_styled m = true ->
     text m = "[System: Neural Link saturated. Please wait a moment for the pathways to clear.]"%string) /\
    (system_styled m = false ->
     text m = ("[System Link Failure: " ++ substring 0 50 msg ++ "...]")%string).
Proof.
  intros E T. unfold exec, V2.handleApiError.
  rewrite (message_or_string_text err E T).
  destruct (includes msg "429" || includes msg "quota")%bool eqn:C;
    rewrite V2_addMessage_spec;
    destruct a as [msgs md act thk spk lvl ictx octx node srcs cur sess strm w];
    destruct w as [ctxs clk nh tr dn rc ls];
    eexists; cbn -[V2.slice_last]; (split; [reflexivity |]);
    unfold system_styled; cbn [text].
  - split; [reflexivity |]. split; [reflexivity | discriminate].
  - split; [reflexivity |]. split; [discriminate | reflexivity].
Qed.

End ErrorReports.

Lemma handleApiError_classifies_witness :
  exists m,
    V2.messages (exec (V2.handleApiError reference_platform NotAllowedError)
                      (V2_with_journal []))
    = [m] /\
    system_styled m = false /\
    text m = "[System Link Failure: Permission denied...]"%string.
Proof.
  destruct (@handleApiError_classifies reference_platform NotAllowedError
              "Permission denied" (V2_with_journal []) eq_refl eq_refl)
    as (m & J & S & _ & F).
  exists m. split; [exact J |]. split; [exact S |]. exact (F S).
Defined.

(** ** Condensing and searching the journal *)

Section Condense.
Variable P : Platform.

(** X15.  [condenseHistory] does nothing on a journal of fewer than four
    entries.  On a longer one it sets the busy flag and issues one request,
    to the thinking model, whose prompt is built from the whole journal;
    it does so whether or not a request is already in flight (it does not
    test the busy flag), and it leaves the journal as it is.  When the
    request settles the continuation completes and clears the flag; on a
    response it appends one assistant entry (the journal is not replaced:
    the entry is added under the cap of 50), styled as a system note. *)
Theorem condenseHistory_threshold (a : V2.App) :
  ((List.length (V2.messages a) < 4)%nat -> V2.condenseHistory a = (Normal false, a)) /\
  ((4 <= List.length (V2.messages a))%nat ->
   completion V2.condenseHistory a = Normal true /\
   V2.isThinking (exec V2.condenseHistory a) = true /\
   V2.messages (exec V2.condenseHistory a) = V2.messages a /\
   trace (V2.world (exec V2.condenseHistory a))
   = trace (V2.world a)
     ++ [GenerateContent MODELS.THINKING (V2.condense_prompt (V2.messages a))]) /\
  (forall (r : Exn + GenerateContentResponse) (b : V2.App),
     completion (V2.condenseHistory_resume P r) b = Normal tt /\
     V2.isThinking (exec (V2.condenseHistory_resume P r) b) = false /\
     trace (V2.world (exec (V2.condenseHistory_resume P r) b)) = trace (V2.world b)) /\
  (forall (response : GenerateContentResponse) (b : V2.App),
     exists m,
       V2.messages (exec (V2.condenseHistory_resume P (inr response)) b)
       = V2.slice_last 50 (V2.messages b ++ [m]) /\
       role m = maya /\ system_styled m = true /\
       text m = ("[System: Memory Condensed] "
                 ++ V2.or_default (response_text response) "History condensed.")%string).
Proof.
  split; [| split; [| split]].
  - intro L. unfold V2.condenseHistory.
    rewrite (@bind_normal _ _ _ _ _ a (V2.messages a) a) by reflexivity.
    apply Nat.ltb_lt in L. now rewrite L.
  - intro L. unfold completion, exec, V2.condenseHistory.
    rewrite (@bind_normal _ _ _ _ _ a (V2.messages a) a) by reflexivity.
    apply Nat.ltb_ge in L. rewrite L.
    destruct a as [msgs md act thk spk lvl ictx octx node srcs cur sess strm w].
    destruct w as [ctxs clk nh tr dn rc ls]. cbn -[V2.condense_prompt].
    repeat split; reflexivity.
  - intros r b. unfold completion, exec, V2.condenseHistory_resume.
    destruct r as [err | response].
    + unfold try_finally, try_catch, throw.
      rewrite V2_handleApiError_unawaited. cbn [modify fst snd].
      destruct (V2_handleApiError_frame P err b) as (T & _).
      destruct (exec (V2.handleApiError P err) b)
        as [msgs md act thk spk lvl ictx octx node srcs cur sess strm w].
      repeat split. exact T.
    + unfold try_finally, try_catch. rewrite V2_addMessage_spec.
      destruct b as [msgs md act thk spk lvl ictx octx node srcs cur sess strm w].
      destruct w as [ctxs clk nh tr dn rc ls]. cbn. repeat split; reflexivity.
  - intros response b. unfold exec, V2.condenseHistory_resume.
    unfold try_finally, try_catch. rewrite V2_addMessage_spec.
    destruct b as [msgs md act thk spk lvl ictx octx node srcs cur sess strm w].
    destruct w as [ctxs clk nh tr dn rc ls].
    eexists. cbn -[V2.slice_last V2.or_default append]. split; [reflexivity |].
    repeat split; reflexivity.
Qed.

End Condense.

Lemma condenseHistory_threshold_witness :
  trace (V2.world
    (exec V2.condenseHistory
       (V2.with_isThinking true
          (V2_with_journal [entry "a" user "one"; entry "b" maya "two";
                            entry "c" user "three"; entry "d" maya "four"]))))
  = [GenerateContent MODELS.THINKING
       (V2.condense_prompt [entry "a" user "one"; entry "b" maya "two";
                            entry "c" user "three"; entry "d" maya "four"])] /\
  V2.condenseHistory (V2_with_journal [entry "a" user "one"])
  = (Normal false, V2_with_journal [entry "a" user "one"]).
Proof.
  split.
  - destruct (@condenseHistory_threshold reference_platform
                (V2.with_isThinking true
                   (V2_with_journal [entry "a" user "one"; entry "b" maya "two";
                                     entry "c" user "three"; entry "d" maya "four"])))
      as (_ & H & _).
    destruct (H ltac:(cbn; lia)) as (_ & _ & _ & T). exact T.
  - destruct (@condenseHistory_threshold reference_platform
                (V2_with_journal [entry "a" user "one"])) as (H & _).
    apply H. cbn. lia.
Defined.

Section Search.

Lemma prefix_of_refl (s : string) : prefix_of s s = true.
Proof.
  induction s as [| c s IH]; [reflexivity |]. cbn. now rewrite Ascii.eqb_refl, IH.
Qed.

Lemma includes_refl (s : string) : includes s s = true.
Proof. destruct s; cbn; [reflexivity |]. now rewrite Ascii.eqb_refl, prefix_of_refl. Qed.

Lemma lower_idem (c : ascii) : lower (lower c) = lower c.
Proof.
  unfold lower.
  destruct (Nat.leb 65 (nat_of_ascii c) && Nat.leb (nat_of_ascii c) 90)%bool eqn:U;
    [| now rewrite U].
  apply andb_true_iff in U. destruct U as [U1 U2].
  apply Nat.leb_le in U1, U2.
  rewrite nat_ascii_embedding by lia.
  replace (Nat.leb (nat_of_ascii c + 32) 90) with false
    by (symmetry; apply Nat.leb_gt; lia).
  now rewrite andb_false_r.
Qed.

Lemma toLowerCase_idem (s : string) : toLowerCase (toLowerCase s) = toLowerCase s.
Proof. induction s as [| c s IH]; cbn; [reflexivity |]. now rewrite lower_idem, IH. Qed.

Lemma truthy_toLowerCase (s : string) : truthy_string (toLowerCase s) = truthy_string s.
Proof. now destruct s. Qed.

(** X16.  The journal shown for a search query: with the empty query it is
    the whole journal; otherwise it is a selection of it (every entry shown
    is an entry of the journal, so no more entries than the journal has),
    selecting again with the same query changes nothing, the case of the
    query does not matter, and an entry whose text is the query up to case
    is always shown.  (Letter case is that of ASCII.) *)
Theorem filteredMessages_shows (q : string) (ms : list Message) :
  filteredMessages "" ms = ms /\
  (forall m, In m (filteredMessages q ms) -> In m ms) /\
  (List.length (filteredMessages q ms) <= List.length ms)%nat /\
  filteredMessages q (filteredMessages q ms) = filteredMessages q ms /\
  filteredMessages (toLowerCase q) ms = filteredMessages q ms /\
  (forall m, In m ms -> toLowerCase (text m) = toLowerCase q ->
             In m (filteredMessages q ms)).
Proof.
  unfold filteredMessages. rewrite truthy_toLowerCase, toLowerCase_idem.
  split; [reflexivity |].
  destruct (truthy_string q); repeat split; auto.
  - intros m I. apply filter_In in I. tauto.
  - apply filter_length_le.
  - apply filter_idem.
  - intros m I E. apply filter_In. split; [exact I |]. rewrite E. apply includes_refl.
Qed.

End Search.

(** ** Text prompts: the earlier handler, the Live mode, the replies *)

Section Prompts.
Variable P : Platform.

Lemma or_default_truthy (t : option string) (d : string) :
  truthy_string d = true -> truthy_string (V2.or_default t d) = true.
Proof.
  intro D. unfold V2.or_default. destruct t as [s |]; [| exact D].
  destruct (truthy_string s) eqn:T; [exact T | exact D].
Qed.

(** X17.  The handler of the earlier revision does not test the busy flag:
    whatever the flag, a prompt that is not blank appends the user entry,
    sets the flag and issues one request (to the thinking model in Deep
    Thought mode, to the search model in every other mode).  What keeps a
    second request from being issued there is the input element, which is
    disabled in Live mode and while the flag is set: Enter on the disabled
    element changes nothing, and on the enabled element it is the
    handler. *)
Theorem V1_prompt_not_gated (input : string) (a : V1.App) :
  trim_is_empty input = false ->
  (exists m,
     completion (V1.handleDeepPrompt input) a = Normal true /\
     V1.isThinking (exec (V1.handleDeepPrompt input) a) = true /\
     trace (V1.world (exec (V1.handleDeepPrompt input) a))
     = trace (V1.world a)
       ++ [GenerateContent
             match V1.mode a with
             | V1.DEEP_THOUGHT => MODELS.THINKING
             | _ => MODELS.SEARCH
             end input] /\
     V1.messages (exec (V1.handleDeepPrompt input) a) = V1.messages a ++ [m] /\
     role m = user /\ text m = input) /\
  (V1.mode a = V1.LIVE \/ V1.isThinking a = true ->
   V1.input_onKeyDown_Enter input a = (Normal false, a)) /\
  (V1.mode a <> V1.LIVE -> V1.isThinking a = false ->
   V1.input_onKeyDown_Enter input a = V1.handleDeepPrompt input a).
Proof.
  intro T.
  destruct a as [msgs md act thk lvl ictx octx srcs cur sess strm cin cout w].
  destruct w as [ctxs clk nh tr dn rc ls].
  split; [| split].
  - unfold completion, exec, V1.handleDeepPrompt. rewrite T.
    eexists. destruct md; cbn; repeat split; reflexivity.
  - cbn. intros [-> | ->]; unfold V1.input_onKeyDown_Enter, V1.input_disabled; cbn.
    + reflexivity.
    + now destruct md.
  - cbn. intros L ->. unfold V1.input_onKeyDown_Enter, V1.input_disabled; cbn.
    destruct md; [congruence | reflexivity | reflexivity].
Qed.

(** X18.  Live mode in the later revision: the handler, called with a
    prompt that is not blank while nothing is in flight, appends the user
    entry but issues no request, and leaves the busy flag clear; the input
    element is disabled in Live mode, so Enter on it changes nothing. *)
Theorem V2_live_prompt (input : string) (a : V2.App) :
  trim_is_empty input = false ->
  V2.isThinking a = false ->
  V2.mode a = V2.LIVE ->
  (exists m,
     completion (V2.handleDeepPrompt P input) a = Normal None /\
     trace (V2.world (exec (V2.handleDeepPrompt P input) a)) = trace (V2.world a) /\
     V2.isThinking (exec (V2.handleDeepPrompt P input) a) = false /\
     V2.messages (exec (V2.handleDeepPrompt P input) a)
     = V2.slice_last 50 (V2.messages a ++ [m]) /\
     role m = user /\ text m = input) /\
  V2.input_onKeyDown_Enter P input a = (Normal None, a).
Proof.
  intros T B L.
  destruct a as [msgs md act thk spk lvl ictx octx node srcs cur sess strm w].
  destruct w as [ctxs clk nh tr dn rc ls].
  cbn in B, L. subst thk md. split.
  - unfold completion, exec, V2.handleDeepPrompt. eexists. run. rewrite T. run.
    repeat split; reflexivity.
  - reflexivity.
Qed.

(** X19.  When a request settles, the continuation completes, the busy
    flag is cleared and no call is made on the platform, in both revisions
    and for every outcome.  The earlier revision appends exactly one
    assistant entry for every outcome: the text of the response when that
    is not empty, and the fixed apology on a failure.  The later revision
    (requests of the Deep Thought, Search and Vision modes) appends
    exactly one assistant entry, whose text is never empty, on a response
    and on a failure whose report is text (the message of the error is a
    string, or is falsy); on a failure whose message is a truthy value
    without an [includes] method (the number 429, say) the report throws
    in a promise nobody awaits, and the journal is left as it is. *)
Theorem reply_recorded (mode : V2.MayaMode) (r : Exn + GenerateContentResponse)
  (b1 : V1.App) (b2 : V2.App) :
  mode <> V2.LIVE ->
  (exists m,
     completion (V1.handleDeepPrompt_resume r) b1 = Normal tt /\
     V1.messages (exec (V1.handleDeepPrompt_resume r) b1) = V1.messages b1 ++ [m] /\
     role m = maya /\ truthy_string (text m) = true /\
     V1.isThinking (exec (V1.handleDeepPrompt_resume r) b1) = false /\
     trace (V1.world (exec (V1.handleDeepPrompt_resume r) b1)) = trace (V1.world b1) /\
     (forall response t, r = inr response -> response_text response = Some t ->
        truthy_string t = true -> text m = t) /\
     (forall e, r = inl e ->
        text m = "Oops, something went wrong while I was thinking. Let's try again."%string)) /\
  (completion (V2.handleDeepPrompt_resume P mode r) b2 = Normal tt /\
   V2.isThinking (exec (V2.handleDeepPrompt_resume P mode r) b2) = false /\
   trace (V2.world (exec (V2.handleDeepPrompt_resume P mode r) b2))
   = trace (V2.world b2)) /\
  (match r with
   | inl e => exists msg, V2.message_or_string e = Str msg
   | inr _ => True
   end ->
   exists m,
     V2.messages (exec (V2.handleDeepPrompt_resume P mode r) b2)
     = V2.slice_last 50 (V2.messages b2 ++ [m]) /\
     role m = maya /\ truthy_string (text m) = true) /\
  (forall e, r = inl e -> truthy (message e) = true ->
   match message e with
   | Num _ | Bool _ | Obj None _ =>
       V2.messages (exec (V2.handleDeepPrompt_resume P mode r) b2) = V2.messages b2
   | _ => True
   end).
Proof.
  intro L. split; [| split; [| split]].
  - destruct b1 as [msgs md act thk lvl ictx octx srcs cur sess strm cin cout w].
    destruct w as [ctxs clk nh tr dn rc ls].
    unfold completion, exec, V1.handleDeepPrompt_resume.
    destruct r as [e | response].
    + eexists. cbn. repeat split; try reflexivity. intros; discriminate.
    + destruct response as [[t |] ps]; [destruct (truthy_string t) eqn:T |].
      * eexists. cbn. rewrite T. cbn. repeat split; try reflexivity; try assumption.
        -- intros response t0 E. inversion E; subst. cbn. congruence.
        -- intros; discriminate.
      * eexists. cbn. rewrite T. cbn. repeat split; try reflexivity.
        -- intros response t0 E. inversion E; subst. cbn. congruence.
        -- intros; discriminate.
      * eexists. cbn. repeat split; try reflexivity.
        -- intros response t0 E. inversion E; subst. cbn. discriminate.
        -- intros; discriminate.
  - assert (Fail_ : forall e,
              completion (V2.handleDeepPrompt_resume P mode (inl e)) b2 = Normal tt /\
              V2.isThinking (exec (V2.handleDeepPrompt_resume P mode (inl e)) b2) = false /\
              trace (V2.world (exec (V2.handleDeepPrompt_resume P mode (inl e)) b2))
              = trace (V2.world b2)).
    { intro e. unfold completion, exec, V2.handleDeepPrompt_resume.
      unfold try_finally, try_catch, throw.
      rewrite V2_handleApiError_unawaited. cbn [modify fst snd].
      destruct (V2_handleApiError_frame P e b2) as (T & _).
      destruct (exec (V2.handleApiError P e) b2)
        as [msgs md act thk spk lvl ictx octx node srcs cur sess strm w].
      repeat split. exact T. }
    destruct r as [e | response]; [apply Fail_ |].
    destruct mode; [congruence | | |].
    + unfold completion, exec, V2.handleDeepPrompt_resume, try_finally, try_catch.
      rewrite V2_addMessage_spec.
      destruct b2 as [msgs md act thk spk lvl ictx octx node srcs cur sess strm w].
      destruct w as [ctxs clk nh tr dn rc ls]. repeat split.
    + unfold completion, exec, V2.handleDeepPrompt_resume, try_finally, try_catch.
      rewrite V2_addMessage_spec.
      destruct b2 as [msgs md act thk spk lvl ictx octx node srcs cur sess strm w].
      destruct w as [ctxs clk nh tr dn rc ls]. repeat split.
    + destruct response as [rt [ps |]].
      * unfold completion, exec, V2.handleDeepPrompt_resume, try_finally, try_catch.
        cbn [candidate_parts]. rewrite V2_addMessage_spec.
        destruct b2 as [msgs md act thk spk lvl ictx octx node srcs cur sess strm w].
        destruct w as [ctxs clk nh tr dn rc ls]. repeat split.
      * exact (Fail_ TypeError).
  - assert (Fail_ : forall e msg, V2.message_or_string e = Str msg -> exists m,
              V2.messages (exec (V2.handleDeepPrompt_resume P mode (inl e)) b2)
              = V2.slice_last 50 (V2.messages b2 ++ [m]) /\
              role m = maya /\ truthy_string (text m) = true).
    { intros e msg E. unfold exec, V2.handleDeepPrompt_resume.
      unfold try_finally, try_catch, throw.
      rewrite V2_handleApiError_unawaited. unfold exec.
      destruct (V2_handleApiError_spec P e b2 E) as (t & R & _ & T & _).
      rewrite R, V2_addMessage_spec.
      destruct b2 as [msgs md act thk spk lvl ictx octx node srcs cur sess strm w].
      destruct w as [ctxs clk nh tr dn rc ls].
      eexists. cbn -[V2.slice_last truthy_string]. repeat split; try reflexivity.
      exact T. }
    destruct r as [e | response]; [intros (msg & E); now apply (Fail_ e msg) | intros _].
    destruct mode; [congruence | | |].
    + unfold exec, V2.handleDeepPrompt_resume, try_finally, try_catch.
      rewrite V2_addMessage_spec.
      destruct b2 as [msgs md act thk spk lvl ictx octx node srcs cur sess strm w].
      destruct w as [ctxs clk nh tr dn rc ls].
      eexists. cbn -[V2.slice_last truthy_string V2.or_default].
      repeat split; try reflexivity. now apply or_default_truthy.
    + unfold exec, V2.handleDeepPrompt_resume, try_finally, try_catch.
      rewrite V2_addMessage_spec.
      destruct b2 as [msgs md act thk spk lvl ictx octx node srcs cur sess strm w].
      destruct w as [ctxs clk nh tr dn rc ls].
      eexists. cbn -[V2.slice_last truthy_string V2.or_default].
      repeat split; try reflexivity. now apply or_default_truthy.
    + destruct response as [rt [ps |]].
      * unfold exec, V2.handleDeepPrompt_resume, try_finally, try_catch.
        cbn [candidate_parts]. rewrite V2_addMessage_spec.
        destruct b2 as [msgs md act thk spk lvl ictx octx node srcs cur sess strm w].
        destruct w as [ctxs clk nh tr dn rc ls].
        eexists. cbn -[V2.slice_last truthy_string fold_left].
        repeat split; reflexivity.
      * destruct (Fail_ TypeError "TypeError"%string eq_refl) as (m & H). exists m. exact H.
  - intros e -> T. unfold exec, V2.handleDeepPrompt_resume, try_finally, try_catch, throw.
    rewrite V2_handleApiError_unawaited. unfold exec, V2.handleApiError, V2.message_or_string.
    rewrite T. destruct (message e) as [| | b | n | s | [inc |] sub]; try exact I;
      cbn [modify fst snd]; now destruct b2.
Qed.

End Prompts.

Lemma V1_prompt_not_gated_witness :
  trace (V1.world (exec (V1.handleDeepPrompt "hi") V1_busy))
  = [GenerateContent MODELS.SEARCH "hi"] /\
  V1.input_onKeyDown_Enter "hi" V1_busy = (Normal false, V1_busy).
Proof.
  destruct (@V1_prompt_not_gated "hi" V1_busy eq_refl) as ((m & _ & _ & T & _) & B & _).
  split; [exact T | apply B; now right].
Defined.

Lemma V2_live_prompt_witness :
  trace (V2.world (exec (V2.handleDeepPrompt reference_platform "hi") (V2_with_journal [])))
  = [] /\
  V2.input_onKeyDown_Enter reference_platform "hi" (V2_with_journal [])
  = (Normal None, V2_with_journal []).
Proof.
  destruct (@V2_live_prompt reference_platform "hi" (V2_with_journal [])
              eq_refl eq_refl eq_refl) as ((m & _ & T & _) & B).
  split; [exact T | exact B].
Defined.

Lemma reply_recorded_witness :
  (exists m,
     V1.messages (exec (V1.handleDeepPrompt_resume (inl TypeError)) V1_busy) = [m] /\
     text m = "Oops, something went wrong while I was thinking. Let's try again."%string) /\
  (exists m,
     V2.messages (exec (V2.handleDeepPrompt_resume reference_platform V2.IMAGE
                          (inl TypeError)) (V2_with_journal [])) = [m] /\
     role m = maya) /\
  V2.messages (exec (V2.handleDeepPrompt_resume reference_platform V2.SEARCH
                       (inl status_429)) (V2_with_journal [])) = [].
Proof.
  destruct (@reply_recorded reference_platform V2.IMAGE (inl TypeError) V1_busy
              (V2_with_journal []) ltac:(discriminate))
    as ((m1 & _ & J1 & _ & _ & _ & _ & _ & O) & _ & One & _).
  destruct (@reply_recorded reference_platform V2.SEARCH (inl status_429) V1_busy
              (V2_with_journal []) ltac:(discriminate))
    as (_ & _ & _ & Nothing).
  split; [| split].
  - exists m1. split; [exact J1 | exact (O TypeError eq_refl)].
  - destruct One as (m2 & J2 & R2 & _); [exists "TypeError"%string; reflexivity |].
    exists m2. split; [exact J2 | exact R2].
  - exact (Nothing status_429 eq_refl eq_refl).
Defined.

Section Vision.
Variable P : Platform.

Lemma image_fold_none (qs : list Part) (url : string) :
  Forall (fun p => inlineData p = None) qs ->
  fold_left (fun url part =>
               match inlineData part with
               | Some d => js_concat "data:image/png;base64," (inline_data d)
               | None => url
               end) qs url = url.
Proof.
  intro F. revert url. induction F as [| p qs N _ IH]; intro url; [reflexivity |].
  cbn [fold_left]. rewrite N. apply IH.
Qed.

Lemma V2_image_reply (rt : option string) (ps : list Part) (b : V2.App) :
  exists m,
    V2.messages (exec (V2.handleDeepPrompt_resume P V2.IMAGE
                         (inr {| response_text := rt; candidate_parts := Some ps |})) b)
    = V2.slice_last 50 (V2.messages b ++ [m]) /\
    role m = maya /\
    text m = "Vision manifestation complete."%string /\
    imageUrl m
    = Some (fold_left (fun url part =>
                         match inlineData part with
                         | Some d => js_concat "data:image/png;base64," (inline_data d)
                         | None => url
                         end) ps ""%string).
Proof.
  unfold exec, V2.handleDeepPrompt_resume, try_finally, try_catch.
  cbn [candidate_parts]. rewrite V2_addMessage_spec.
  destruct b as [msgs md act thk spk lvl ictx octx node srcs cur sess strm w].
  destruct w as [ctxs clk nh tr dn rc ls].
  eexists. cbn -[V2.slice_last fold_left]. repeat split; reflexivity.
Qed.

(** X20.  The reply of the Vision mode: the entry recorded for a response
    carries the image of the last part that has inline data (a later part
    with data replaces an earlier one), as a PNG data URL; when no part has
    inline data the entry is still recorded, with the empty URL. *)
Theorem image_reply_uses_last_part (response : GenerateContentResponse)
  (ps qs : list Part) (b : V2.App) :
  candidate_parts response = Some (ps ++ qs) ->
  Forall (fun p => inlineData p = None) qs ->
  exists m,
    V2.messages (exec (V2.handleDeepPrompt_resume P V2.IMAGE (inr response)) b)
    = V2.slice_last 50 (V2.messages b ++ [m]) /\
    role m = maya /\
    text m = "Vision manifestation complete."%string /\
    (ps = [] -> imageUrl m = Some ""%string) /\
    (forall before d, ps = before ++ [{| inlineData := Some d |}] ->
       imageUrl m = Some (js_concat "data:image/png;base64," (inline_data d))).
Proof.
  intros C N. destruct response as [rt cp]. cbn in C. subst cp.
  destruct (V2_image_reply rt (ps ++ qs) b) as (m & J & R & T & U).
  exists m. split; [exact J |]. split; [exact R |]. split; [exact T |].
  rewrite fold_left_app, image_fold_none in U by exact N. split.
  - intros ->. exact U.
  - intros before d ->. rewrite fold_left_app in U. exact U.
Qed.

End Vision.

Lemma image_reply_uses_last_part_witness :
  exists m,
    V2.messages
      (exec (V2.handleDeepPrompt_resume reference_platform V2.IMAGE
               (inr {| response_text := None;
                       candidate_parts :=
                         Some [{| inlineData := Some {| inline_data := Some "AAAA"%string |} |};
                               {| inlineData := Some {| inline_data := Some "BBBB"%string |} |};
                               {| inlineData := None |}] |}))
            (V2_with_journal []))
    = [m] /\
    imageUrl m = Some "data:image/png;base64,BBBB"%string.
Proof.
  destruct (@image_reply_uses_last_part reference_platform
              {| response_text := None;
                 candidate_parts :=
                   Some [{| inlineData := Some {| inline_data := Some "AAAA"%string |} |};
                         {| inlineData := Some {| inline_data := Some "BBBB"%string |} |};
                         {| inlineData := None |}] |}
              [{| inlineData := Some {| inline_data := Some "AAAA"%string |} |};
               {| inlineData := Some {| inline_data := Some "BBBB"%string |} |}]
              [{| inlineData := None |}]
              (V2_with_journal []) eq_refl ltac:(repeat constructor))
    as (m & J & _ & _ & _ & U).
  exists m. split; [exact J |].
  exact (U [{| inlineData := Some {| inline_data := Some "AAAA"%string |} |}]
           {| inline_data := Some "BBBB"%string |} eq_refl).
Defined.
(** ** Audio parts of a message *)

Section Parts.
Variable P : Platform.

Lemma starts_of_stops (t : list Effect) (l : list handle) :
  starts_of (t ++ map SourceStop l) = starts_of t.
Proof.
  rewrite starts_of_app. induction l as [| h l IH]; [apply app_nil_r |]. exact IH.
Qed.

Lemma V1_play_part_starts (a : V1.App) (part : Part) :
  V1.outputAudioCtxRef (V1_play_part P a part) = V1.outputAudioCtxRef a /\
  List.length (starts_of (trace (V1.world (V1_play_part P a part))))
  = (List.length (starts_of (trace (V1.world a)))
     + match V1.outputAudioCtxRef a with
       | Some _ => if plays part then 1 else 0
       | None => 0
       end)%nat.
Proof.
  unfold V1_play_part, plays.
  destruct a as [msgs md act thk lvl ictx octx srcs cur sess strm cin cout w].
  destruct w as [ctxs clk nh tr dn rc ls].
  destruct (audio_of part) as [b |]; destruct octx as [c |]; cbn; auto.
  unfold resumed. cbn. destruct (ctxs c); cbn; rewrite ?starts_of_app, ?length_app; cbn;
    (split; [reflexivity |]); fold (starts_of tr); lia.
Qed.

Lemma V1_play_parts_starts (ps : list Part) (a : V1.App) :
  List.length (starts_of (trace (V1.world (fold_left (V1_play_part P) ps a))))
  = (List.length (starts_of (trace (V1.world a)))
     + match V1.outputAudioCtxRef a with
       | Some _ => List.length (filter plays ps)
       | None => 0
       end)%nat.
Proof.
  revert a. induction ps as [| part ps IH]; intro a.
  - cbn. destruct (V1.outputAudioCtxRef a); lia.
  - cbn [fold_left filter]. rewrite IH.
    destruct (V1_play_part_starts a part) as [O S]. rewrite O, S.
    destruct (V1.outputAudioCtxRef a); [| lia].
    destruct (plays part); cbn [List.length]; lia.
Qed.

Lemma first_audio_parts (sc : option ServerContent) :
  first_audio sc = match parts_of sc with p :: _ => audio_of p | [] => None end.
Proof.
  unfold first_audio, parts_of, audio_of.
  destruct sc as [[it ot tc [[[[| p ps] |]] |] intr] |]; reflexivity.
Qed.

(** X21.  How many buffer sources a message starts.  The earlier revision
    starts one for every part that carries (non-empty) audio, as long as
    the output context reference is set, and none when it is empty; the
    later revision looks at the first part only, so it starts one source
    when the first part carries audio and none otherwise, whatever the
    other parts carry.  An interruption in the same message stops sources
    but starts none. *)
Theorem parts_played (c : handle) (message : LiveServerMessage)
  (a1 : V1.App) (a2 : V2.App) :
  List.length (starts_of (trace (V1.world (exec (V1.onmessage P message) a1))))
  = (List.length (starts_of (trace (V1.world a1)))
     + match V1.outputAudioCtxRef a1 with
       | Some _ => List.length (filter plays (parts_of (serverContent message)))
       | None => 0
       end)%nat /\
  List.length (starts_of (trace (V2.world (exec (V2.onmessage P c message) a2))))
  = (List.length (starts_of (trace (V2.world a2)))
     + match parts_of (serverContent message) with
       | first :: _ => if plays first then 1 else 0
       | [] => 0
       end)%nat.
Proof.
  unfold exec. rewrite V1_onmessage_spec, V2_onmessage_spec. cbn [snd]. split.
  - unfold V1_onmessage_result.
    set (sc := serverContent message).
    set (a3 := if truthy_opt_bool (opt_chain sc turnComplete) then _ else _).
    assert (E : V1.world a3 = V1.world a1 /\
                V1.outputAudioCtxRef a3 = V1.outputAudioCtxRef a1).
    { subst a3. destruct (truthy_opt_bool (opt_chain sc turnComplete));
        destruct a1; split; reflexivity. }
    destruct E as [Ew Eo].
    pose proof (V1_play_parts_starts (parts_of sc) a3) as S. rewrite Ew, Eo in S.
    destruct (truthy_opt_bool (opt_chain sc interrupted)); [| exact S].
    rewrite <- S. unfold V1_interrupted.
    destruct (fold_left (V1_play_part P) (parts_of sc) a3)
      as [msgs md act thk lvl ictx octx srcs cur sess strm cin cout w].
    cbn. now rewrite starts_of_stops.
  - unfold V2_onmessage_result. rewrite first_audio_parts. unfold plays.
    set (sc := serverContent message).
    assert (S : List.length (starts_of (trace (V2.world
                  match match parts_of sc with p :: _ => audio_of p | [] => None end with
                  | Some b => V2_played P b c a2
                  | None => a2
                  end)))
                = (List.length (starts_of (trace (V2.world a2)))
                   + match parts_of sc with
                     | first :: _ =>
                         if match audio_of first with Some _ => true | None => false end
                         then 1 else 0
                     | [] => 0
                     end)%nat).
    { destruct a2 as [msgs md act thk spk lvl ictx octx node srcs cur sess strm w].
      destruct w as [ctxs clk nh tr dn rc ls].
      destruct (parts_of sc) as [| p ps]; [cbn; lia |].
      destruct (audio_of p); cbn; rewrite ?starts_of_app, ?length_app; cbn;
        fold (starts_of tr); lia. }
    destruct (truthy_opt_bool (opt_chain sc interrupted)); [| exact S].
    rewrite <- S. unfold V2_interrupted.
    match goal with |- context [V2.with_world _ ?x] => destruct x
      as [msgs md act thk spk lvl ictx octx node srcs cur sess strm w] end.
    cbn. now rewrite starts_of_stops.
Qed.

End Parts.

(** ** What a teardown keeps *)

Section TeardownFrame.
Variable P : Platform.

Lemma teardown_world_rest (session stream ictx octx : option handle)
  (srcs : list handle) (w : World) :
  next_handle (teardown_world session stream ictx octx srcs w) = next_handle w /\
  Date_now (teardown_world session stream ictx octx srcs w) = Date_now w /\
  random_calls (teardown_world session stream ictx octx srcs w) = random_calls w /\
  localStorage (teardown_world session stream ictx octx srcs w) = localStorage w /\
  (forall c, currentTime (teardown_world session stream ictx octx srcs w) c
             = currentTime w c).
Proof.
  destruct w as [ctxs clk nh tr dn rc ls].
  unfold teardown_world, close_context, log_opt, log.
  destruct session, stream; cbn.
  all: destruct ictx as [i |]; cbn.
  all: repeat match goal with
         | |- context [match ?f ?x with suspended => _ | _ => _ end] =>
             destruct (f x) eqn:?; cbn
         end.
  all: destruct octx as [o |]; cbn.
  all: repeat match goal with
         | |- context [match ?f ?x with suspended => _ | _ => _ end] =>
             destruct (f x) eqn:?; cbn
         end.
  all: repeat split; reflexivity.
Qed.

Lemma teardown_events_starts (session stream ictx octx : option handle)
  (srcs : list handle) (w : World) :
  starts_of (teardown_events session stream ictx octx srcs w) = [].
Proof.
  unfold teardown_events, closing.
  rewrite !starts_of_app.
  replace (starts_of (map SourceStop srcs)) with (@nil (Q * AudioBuffer))
    by (induction srcs; [reflexivity | assumption]).
  destruct session, stream; cbn.
  all: destruct ictx as [i |]; cbn.
  all: repeat match goal with
         | |- context [match ?f ?x with suspended => _ | _ => _ end] =>
             destruct (f x) eqn:?; cbn
         end.
  all: destruct octx as [o |]; cbn.
  all: repeat match goal with
         | |- context [match ?f ?x with suspended => _ | _ => _ end] =>
             destruct (f x) eqn:?; cbn
         end.
  all: reflexivity.
Qed.

(** X22.  A teardown only releases.  [stopSession] of either revision
    leaves the journal, the mode, the busy flag and the stored journal as
    they are, starts no source and acquires neither a microphone stream nor
    a session.  In the earlier revision it also leaves the two transcript
    buffers as they are: fragments received before the teardown are still
    pending after it, and the first turn-complete signal handled afterwards
    emits them. *)
Theorem stopSession_only_releases (a1 : V1.App) (a2 : V2.App) :
  let b1 := exec (V1.stopSession P) a1 in
  let b2 := exec (V2.stopSession P) a2 in
  (V1.messages b1 = V1.messages a1 /\ V1.mode b1 = V1.mode a1 /\
   V1.isThinking b1 = V1.isThinking a1 /\
   V1.currentInputTranscription b1 = V1.currentInputTranscription a1 /\
   V1.currentOutputTranscription b1 = V1.currentOutputTranscription a1 /\
   starts_of (trace (V1.world b1)) = starts_of (trace (V1.world a1)) /\
   acquisitions microphones (trace (V1.world b1))
   = acquisitions microphones (trace (V1.world a1)) /\
   acquisitions sessions (trace (V1.world b1))
   = acquisitions sessions (trace (V1.world a1)) /\
   V1.messages (exec (V1.onmessage P turn_complete_message) b1)
   = V1.messages a1
     ++ turn_messages (Date_now (V1.world a1)) (V1.currentInputTranscription a1)
          (V1.currentOutputTranscription a1)) /\
  (V2.messages b2 = V2.messages a2 /\ V2.mode b2 = V2.mode a2 /\
   V2.isThinking b2 = V2.isThinking a2 /\
   localStorage (V2.world b2) = localStorage (V2.world a2) /\
   starts_of (trace (V2.world b2)) = starts_of (trace (V2.world a2)) /\
   acquisitions microphones (trace (V2.world b2))
   = acquisitions microphones (trace (V2.world a2)) /\
   acquisitions sessions (trace (V2.world b2))
   = acquisitions sessions (trace (V2.world a2))).
Proof.
  cbv zeta.
  assert (E1 : exec (V1.stopSession P) a1 = V1_torn_down a1)
    by (unfold exec; now rewrite V1_stopSession_spec).
  assert (E2 : exec (V2.stopSession P) a2 = V2_torn_down a2)
    by (unfold exec; now rewrite V2_stopSession_spec).
  rewrite E1, E2.
  destruct (teardown_events_effect (V1.sessionRef a1) (V1.streamRef a1)
              (V1.inputAudioCtxRef a1) (V1.outputAudioCtxRef a1)
              (V1.sourcesRef a1) (V1.world a1)) as (Q1 & Q2 & _).
  destruct (teardown_events_effect (V2.sessionRef a2) (V2.streamRef a2)
              (V2.inputAudioCtxRef a2) (V2.outputAudioCtxRef a2)
              (V2.sourcesRef a2) (V2.world a2)) as (R1 & R2 & _).
  rewrite V1_torn_down_trace, V2_torn_down_trace.
  unfold V1_teardown_events, V2_teardown_events.
  rewrite !starts_of_app, !acquisitions_app, !teardown_events_starts, Q1, Q2, R1, R2,
    !app_nil_r, !Nat.add_0_r.
  split.
  - repeat split; try reflexivity.
    unfold exec. rewrite V1_onmessage_spec. cbn [snd].
    destruct (teardown_world_rest (V1.sessionRef a1) (V1.streamRef a1)
                (V1.inputAudioCtxRef a1) (V1.outputAudioCtxRef a1)
                (V1.sourcesRef a1) (V1.world a1)) as (_ & D & _).
    destruct a1 as [msgs md act thk lvl ictx octx srcs cur sess strm cin cout w].
    unfold V1_onmessage_result, V1_torn_down.
    cbn -[teardown_world turn_messages] in *. now rewrite D.
  - repeat split; try reflexivity.
    apply (teardown_world_rest (V2.sessionRef a2) (V2.streamRef a2)
             (V2.inputAudioCtxRef a2) (V2.outputAudioCtxRef a2)
             (V2.sourcesRef a2) (V2.world a2)).
Qed.

End TeardownFrame.

(** ** Ways a live session ends *)

Section SessionEnds.
Variable P : Platform.

Lemma V1_torn_down_released (a : V1.App) : V1_released (V1_torn_down a).
Proof. repeat split. Qed.

Lemma V2_torn_down_released (a : V2.App) : V2_released (V2_torn_down a).
Proof. repeat split. Qed.

Lemma V2_unawaited_stopSession (a : V2.App) :
  V2.unawaited (V2.stopSession P) a = (Normal tt, V2_torn_down a).
Proof. unfold V2.unawaited, try_catch. now rewrite V2_stopSession_spec. Qed.

(** X23.  How a live session ends, apart from the main button.  In the
    later revision a click on a mode button always tears down and then
    selects the mode; an error of the session tears down, after a report
    to the journal (the report of [handleApiError], if that does not
    throw); but the close of the session by the service releases nothing:
    the handler tests the [isActive] of the render that offered
    [startLiveSession], an idle one, so it does nothing and the state
    stays as it is, still active where it was.  In the earlier revision
    an error tears down without a journal entry, a click on a mode button
    tears down when the session is active, and the close of the session
    tears down when the session reference is set.  None of them throws. *)
Theorem session_ends_released (m1 : V1.MayaMode) (m2 : V2.MayaMode) (e : Exn)
  (a1 : V1.App) (a2 : V2.App) :
  (V2.mode_onClick P m2 a2 = (Normal tt, V2.with_mode m2 (V2_torn_down a2)) /\
   V2_released (exec (V2.mode_onClick P m2) a2) /\
   V2.mode (exec (V2.mode_onClick P m2) a2) = m2) /\
  (completion (V2.onerror P e) a2 = Normal tt /\
   V2_released (exec (V2.onerror P e) a2) /\
   V2.isActive (exec (V2.onerror P e) a2) = false /\
   V2.messages (exec (V2.onerror P e) a2)
   = V2.messages (exec (V2.handleApiError P e) a2)) /\
  (V2.onclose P false a2 = (Normal tt, a2) /\
   V2.isActive (exec (V2.onclose P false) a2) = V2.isActive a2 /\
   V2.streamRef (exec (V2.onclose P false) a2) = V2.streamRef a2 /\
   trace (V2.world (exec (V2.onclose P false) a2)) = trace (V2.world a2)) /\
  (V1.onerror P a1 = (Normal tt, V1_torn_down a1) /\
   V1_released (exec (V1.onerror P) a1) /\
   V1.messages (exec (V1.onerror P) a1) = V1.messages a1) /\
  (V1.mode_onClick P m1 a1
   = (Normal tt, V1.with_mode m1 (if V1.isActive a1 then V1_torn_down a1 else a1))) /\
  (V1.onclose P a1
   = (Normal tt, match V1.sessionRef a1 with
                 | Some _ => V1_torn_down a1
                 | None => a1
                 end)).
Proof.
  assert (M2 : V2.mode_onClick P m2 a2 = (Normal tt, V2.with_mode m2 (V2_torn_down a2))).
  { unfold V2.mode_onClick.
    rewrite (bind_normal _ _ _ (V2_unawaited_stopSession a2)). reflexivity. }
  split; [| split; [| split; [| split; [| split]]]].
  - split; [exact M2 |]. unfold exec. rewrite M2. split; [| reflexivity].
    repeat split.
  - unfold completion, exec, V2.onerror.
    rewrite (bind_normal _ _ _ (V2_handleApiError_unawaited P e a2)).
    rewrite V2_unawaited_stopSession. cbn [fst snd].
    split; [reflexivity |]. split; [repeat split |]. split; [reflexivity |].
    change (snd (V2.handleApiError P e a2)) with (exec (V2.handleApiError P e) a2).
    now destruct (exec (V2.handleApiError P e) a2).
  - repeat split.
  - unfold exec, V1.onerror. rewrite V1_stopSession_spec. cbn [snd].
    split; [reflexivity |]. split; [repeat split | reflexivity].
  - unfold V1.mode_onClick.
    rewrite (@bind_normal _ _ _ _ _ a1 (V1.isActive a1) a1) by reflexivity.
    destruct (V1.isActive a1); cbn [when].
    + now rewrite (bind_normal _ _ _ (V1_stopSession_spec P a1)).
    + reflexivity.
  - unfold V1.onclose.
    rewrite (@bind_normal _ _ _ _ _ a1 (V1.sessionRef a1) a1) by reflexivity.
    destruct (V1.sessionRef a1); [apply V1_stopSession_spec | reflexivity].
Qed.

End SessionEnds.

(** ** Starting a live session *)

Section Starts.
Variable P : Platform.

(** X24.  Without an API key, [startLiveSession] of either revision only
    raises the alert: it completes, the state is otherwise unchanged (a
    session that is live stays live, nothing is torn down), and nothing is
    acquired. *)
Theorem start_without_key (a1 : V1.App) (a2 : V2.App) :
  truthy_opt_string (API_KEY P) = false ->
  V1.startLiveSession P a1
  = (Normal tt, V1.with_world (log (Alert "API Key missing") (V1.world a1)) a1) /\
  V2.startLiveSession P a2
  = (Normal tt, V2.with_world (log (Alert "API Key missing") (V2.world a2)) a2) /\
  trace (V1.world (exec (V1.startLiveSession P) a1))
  = trace (V1.world a1) ++ [Alert "API Key missing"] /\
  trace (V2.world (exec (V2.startLiveSession P) a2))
  = trace (V2.world a2) ++ [Alert "API Key missing"].
Proof.
  intro K.
  assert (S1 : V1.startLiveSession P a1
               = (Normal tt, V1.with_world (log (Alert "API Key missing") (V1.world a1)) a1)).
  { unfold V1.startLiveSession. rewrite K.
    destruct a1 as [msgs md act thk lvl ictx octx srcs cur sess strm cin cout w].
    destruct w as [ctxs clk nh tr dn rc ls]. reflexivity. }
  pose proof (V2_startLiveSession_no_key P a2 K) as S2.
  unfold exec. rewrite S1, S2. cbn [snd].
  split; [reflexivity |]. split; [reflexivity |].
  destruct a1 as [msgs md act thk lvl ictx octx srcs cur sess strm cin cout w].
  destruct a2 as [msgs2 md2 act2 thk2 spk2 lvl2 ictx2 octx2 node2 srcs2 cur2 sess2 strm2 w2].
  destruct w as [ctxs clk nh tr dn rc ls]. destruct w2. split; reflexivity.
Qed.

Lemma V2_acquiring_facts (a : V2.App) :
  let n := next_handle (V2.world a) in
  V2.inputAudioCtxRef (V2_acquiring P a) = Some n /\
  V2.outputAudioCtxRef (V2_acquiring P a) = Some (S n) /\
  V2.outputNodeRef (V2_acquiring P a) = Some (S (S n)) /\
  next_handle (V2.world (V2_acquiring P a)) = S (S (S n)) /\
  V2.streamRef (V2_acquiring P a) = None /\
  V2.sessionRef (V2_acquiring P a) = None /\
  V2.sourcesRef (V2_acquiring P a) = [] /\
  V2.messages (V2_acquiring P a) = V2.messages a /\
  V2.isActive (V2_acquiring P a) = true /\
  trace (V2.world (V2_acquiring P a))
  = trace (V2.world (V2_torn_down a)) ++ [ContextNew n 16000; ContextNew (S n) 24000] /\
  contexts (V2.world (V2_acquiring P a)) (S n)
  = (if starts_suspended P (S n) then suspended else running) /\
  contexts (V2.world (V2_acquiring P a)) n
  = (if starts_suspended P n then suspended else running).
Proof.
  cbv zeta.
  destruct (teardown_world_rest (V2.sessionRef a) (V2.streamRef a)
              (V2.inputAudioCtxRef a) (V2.outputAudioCtxRef a)
              (V2.sourcesRef a) (V2.world a)) as (N & _).
  unfold V2_acquiring, new_context.
  destruct a as [msgs md act thk spk lvl ictx octx node srcs cur sess strm w].
  unfold V2_torn_down. cbn -[teardown_world] in *.
  destruct (teardown_world sess strm ictx octx srcs w) as [ctxs' clk' nh' tr' dn' rc' ls'].
  cbn in N. subst nh'. cbn. unfold update.
  rewrite !Nat.eqb_refl.
  replace (Nat.eqb (next_handle w) (S (next_handle w))) with false
    by (symmetry; apply Nat.eqb_neq; lia).
  rewrite <- app_assoc. repeat split; reflexivity.
Qed.

Lemma V2_torn_down_after (x : V2.App) (n : handle) :
  V2.inputAudioCtxRef x = Some n ->
  V2.outputAudioCtxRef x = Some (S n) ->
  V2_released (V2_torn_down x) /\
  V2.isActive (V2_torn_down x) = false /\
  V2.messages (V2_torn_down x) = V2.messages x /\
  contexts (V2.world (V2_torn_down x)) n = closed /\
  contexts (V2.world (V2_torn_down x)) (S n) = closed /\
  (forall e, In e (trace (V2.world x)) -> In e (trace (V2.world (V2_torn_down x)))) /\
  acquisitions sessions (trace (V2.world (V2_torn_down x)))
  = acquisitions sessions (trace (V2.world x)).
Proof.
  intros I O.
  destruct (teardown_events_effect (V2.sessionRef x) (V2.streamRef x)
              (V2.inputAudioCtxRef x) (V2.outputAudioCtxRef x)
              (V2.sourcesRef x) (V2.world x)) as (_ & Q2 & _).
  fold (V2_teardown_events x) in Q2.
  split; [repeat split |]. split; [reflexivity |]. split; [reflexivity |].
  split; [apply teardown_world_closes; now left |].
  split; [apply teardown_world_closes; now right |].
  rewrite V2_torn_down_trace, acquisitions_app, Q2. split; [| lia].
  intros e H. apply in_or_app. now left.
Qed.

Lemma V2_with_stream_facts (x : V2.App) :
  V2.inputAudioCtxRef (V2_with_stream x) = V2.inputAudioCtxRef x /\
  V2.outputAudioCtxRef (V2_with_stream x) = V2.outputAudioCtxRef x /\
  V2.messages (V2_with_stream x) = V2.messages x /\
  trace (V2.world (V2_with_stream x))
  = trace (V2.world x) ++ [GetUserMedia (next_handle (V2.world x))].
Proof.
  destruct x as [msgs md act thk spk lvl ictx octx node srcs cur sess strm w].
  destruct w as [ctxs clk nh tr dn rc ls]. repeat split.
Qed.

(** X25.  A start that fails (later revision): when the microphone is
    refused, or when the handshake with the service fails, [startLiveSession]
    still completes, and it leaves the component idle with every resource
    reference empty; the two audio contexts it had created are closed, the
    journal is as it was (no entry announces a link), and from a state that
    refers to what is live nothing is live afterwards.  When the microphone
    is refused no connection is attempted. *)
Theorem V2_failed_start_releases (a : V2.App) :
  truthy_opt_string (API_KEY P) = true ->
  (forall w, microphone_granted P w = false) \/ (forall w, handshake_succeeds P w = false) ->
  V2_consistent a ->
  let a' := exec (V2.startLiveSession P) a in
  let n := next_handle (V2.world a) in
  completion (V2.startLiveSession P) a = Normal tt /\
  V2_released a' /\
  V2.isActive a' = false /\
  V2.messages a' = V2.messages a /\
  In (ContextNew n 16000) (trace (V2.world a')) /\
  In (ContextNew (S n) 24000) (trace (V2.world a')) /\
  contexts (V2.world a') n = closed /\
  contexts (V2.world a') (S n) = closed /\
  live_after microphones (trace (V2.world a')) = [] /\
  live_after sessions (trace (V2.world a')) = [] /\
  ((forall w, microphone_granted P w = false) ->
   acquisitions sessions (trace (V2.world a')) = acquisitions sessions (trace (V2.world a))).
Proof.
  intros K F [Cm Cs]. cbv zeta.
  destruct (V2_started_rest P a) as (rest & T & Am & As & Lm & Ls).
  destruct (teardown_events_effect (V2.sessionRef a) (V2.streamRef a)
              (V2.inputAudioCtxRef a) (V2.outputAudioCtxRef a)
              (V2.sourcesRef a) (V2.world a)) as (Q1 & Q2 & L1 & L2).
  fold (V2_teardown_events a) in Q1, Q2, L1, L2.
  destruct (V2_acquiring_facts a)
    as (Ai & Ao & An & Anh & Astr & Asess & Asrc & Amsg & Aact & Atr & _).
  cbv zeta in *.
  unfold completion, exec. rewrite (V2_startLiveSession_spec P a K). cbn [fst snd].
  assert (Live : live_after microphones (trace (V2.world (V2_started P a)))
                 = option_list (V2.streamRef (V2_started P a)) /\
                 live_after sessions (trace (V2.world (V2_started P a)))
                 = option_list (V2.sessionRef (V2_started P a))).
  { unfold live_after in *.
    rewrite T, V2_torn_down_trace, !live_from_app, Cm, Cs, L1, L2. split; assumption. }
  destruct Live as [Lvm Lvs].
  assert (News : In (ContextNew (next_handle (V2.world a)) 16000)
                   (trace (V2.world (V2_acquiring P a))) /\
                 In (ContextNew (S (next_handle (V2.world a))) 24000)
                   (trace (V2.world (V2_acquiring P a)))).
  { rewrite Atr. split; apply in_or_app; right; cbn; auto. }
  destruct News as [N1 N2].
  assert (Acq : acquisitions sessions (trace (V2.world (V2_acquiring P a)))
                = acquisitions sessions (trace (V2.world a))).
  { rewrite Atr, V2_torn_down_trace, !acquisitions_app, Q2. cbn. lia. }
  revert Lvm Lvs. unfold V2_started.
  destruct (microphone_granted P (V2.world (V2_acquiring P a))) eqn:Mic.
  - assert (H : forall w, handshake_succeeds P w = false).
    { destruct F as [F | F]; [| exact F]. rewrite F in Mic. discriminate. }
    rewrite H. intros Lvm Lvs.
    destruct (V2_with_stream_facts (V2_acquiring P a)) as (Si & So & Sm & St).
    destruct (@V2_torn_down_after (V2_with_stream (V2_acquiring P a))
                (next_handle (V2.world a)))
      as (R & Act & Msg & C1 & C2 & Keep & _);
      [now rewrite Si | now rewrite So |].
    split; [reflexivity |]. split; [exact R |]. split; [exact Act |].
    split; [now rewrite Msg, Sm |].
    split; [apply Keep; rewrite St; apply in_or_app; now left |].
    split; [apply Keep; rewrite St; apply in_or_app; now left |].
    split; [exact C1 |]. split; [exact C2 |].
    split; [exact Lvm |]. split; [exact Lvs |].
    intro G. rewrite G in Mic. discriminate.
  - intros Lvm Lvs.
    destruct (@V2_torn_down_after (V2_acquiring P a) (next_handle (V2.world a)) Ai Ao)
      as (R & Act & Msg & C1 & C2 & Keep & Sess).
    split; [reflexivity |]. split; [exact R |]. split; [exact Act |].
    split; [now rewrite Msg |].
    split; [now apply Keep |]. split; [now apply Keep |].
    split; [exact C1 |]. split; [exact C2 |].
    split; [exact Lvm |]. split; [exact Lvs |].
    intros _. now rewrite Sess.
Qed.

(** X26.  A start that succeeds (later revision, microphone granted and
    handshake completed): after the teardown the calls are, in order, the
    creation of the input context at 16 kHz and of the output context at
    24 kHz, the request of the microphone, the connection with the voice
    Zephyr, and the wiring of the capture graph from that stream into that
    input context.  The state then refers to exactly these objects, the
    component is active, the player starts from an empty source set and a
    cursor of 0, and one system note announcing the link is appended to the
    journal.  Neither context is resumed: an output context that the
    browser created suspended is still suspended. *)
Theorem V2_start_succeeds (a : V2.App) :
  truthy_opt_string (API_KEY P) = true ->
  (forall w, microphone_granted P w = true) ->
  (forall w, handshake_succeeds P w = true) ->
  let a' := exec (V2.startLiveSession P) a in
  let n := next_handle (V2.world a) in
  V2.isActive a' = true /\
  V2.inputAudioCtxRef a' = Some n /\
  V2.outputAudioCtxRef a' = Some (S n) /\
  V2.outputNodeRef a' = Some (S (S n)) /\
  V2.streamRef a' = Some (S (S (S n))) /\
  V2.sessionRef a' = Some (S (S (S (S n)))) /\
  V2.sourcesRef a' = [] /\
  V2.nextStartTimeRef a' = 0%Q /\
  trace (V2.world a')
  = trace (V2.world a) ++ V2_teardown_events a
    ++ [ContextNew n 16000; ContextNew (S n) 24000; GetUserMedia (S (S (S n)));
        Connect (S (S (S (S n)))) "Zephyr"; CaptureGraph n (S (S (S n)))] /\
  (exists m,
     V2.messages a' = V2.slice_last 50 (V2.messages a ++ [m]) /\
     role m = maya /\
     text m = "[System: Neural Link established. Talk to Maya.]"%string /\
     system_styled m = true) /\
  contexts (V2.world a') (S n) = (if starts_suspended P (S n) then suspended else running).
Proof.
  intros K Mic Hs. cbv zeta.
  unfold exec. rewrite (V2_startLiveSession_spec P a K). cbn [snd].
  unfold V2_started. rewrite Mic, Hs.
  destruct (V2_acquiring_facts a)
    as (Ai & Ao & An & Anh & Astr & Asess & Asrc & Amsg & Aact & Atr & Cout & _).
  cbv zeta in *. rewrite V2_torn_down_trace in Atr.
  assert (Acur : V2.nextStartTimeRef (V2_acquiring P a) = 0%Q) by reflexivity.
  revert Ai Ao An Anh Astr Asess Asrc Amsg Aact Atr Cout Acur.
  generalize (V2_acquiring P a). intro x.
  destruct x as [msgs md act thk spk lvl ictx octx node srcs cur sess strm w].
  destruct w as [ctxs clk nh tr dn rc ls].
  cbn. intros -> -> -> -> -> -> -> -> -> -> C ->.
  unfold V2_connected, V2_with_stream, exec. cbn -[V2.slice_last].
  rewrite <- !app_assoc. cbn [app].
  repeat split; try reflexivity; try assumption.
  eexists. repeat split; reflexivity.
Qed.

End Starts.

Lemma start_without_key_witness :
  trace (V1.world (exec (V1.startLiveSession keyless_platform) (V1.initial empty_world)))
  = [Alert "API Key missing"] /\
  trace (V2.world (exec (V2.startLiveSession keyless_platform) (V2_with_journal [])))
  = [Alert "API Key missing"].
Proof.
  destruct (@start_without_key keyless_platform (V1.initial empty_world)
              (V2_with_journal []) eq_refl) as (_ & _ & T1 & T2).
  split; [exact T1 | exact T2].
Defined.

Lemma V2_failed_start_releases_witness :
  V2_consistent V2_live /\
  V2_released (exec (V2.startLiveSession refusing_platform) V2_live) /\
  live_after microphones
    (trace (V2.world (exec (V2.startLiveSession offline_platform) V2_live))) = [].
Proof.
  assert (C : V2_consistent V2_live) by (split; vm_compute; reflexivity).
  split; [exact C |]. split.
  - destruct (@V2_failed_start_releases refusing_platform V2_live eq_refl
                (or_introl (fun _ => eq_refl)) C) as (_ & R & _).
    exact R.
  - destruct (@V2_failed_start_releases offline_platform V2_live eq_refl
                (or_intror (fun _ => eq_refl)) C) as (_ & _ & _ & _ & _ & _ & _ & _ & L & _).
    exact L.
Defined.

Lemma V2_start_succeeds_witness :
  V2.sessionRef V2_live = Some 4%nat /\
  trace (V2.world V2_live)
  = [ContextNew 0%nat 16000; ContextNew 1%nat 24000; GetUserMedia 3%nat;
     Connect 4%nat "Zephyr"; CaptureGraph 0%nat 3%nat] /\
  contexts (V2.world V2_live) 1%nat = suspended.
Proof.
  destruct (@V2_start_succeeds reference_platform
              (V2.initial reference_platform empty_world) eq_refl
              (fun _ => eq_refl) (fun _ => eq_refl))
    as (_ & _ & _ & _ & _ & S & _ & _ & T & _ & C).
  split; [exact S |]. split; [exact T | exact C].
Defined.
(** ** The session lifecycle of the earlier revision *)

Section EarlierStart.
Variable P : Platform.

Lemma new_context_facts (rate : Z) (w : World) :
  contexts (new_context P rate w) (next_handle w)
  = (if starts_suspended P (next_handle w) then suspended else running) /\
  (forall c, c <> next_handle w -> contexts (new_context P rate w) c = contexts w c) /\
  next_handle (new_context P rate w) = S (next_handle w) /\
  trace (new_context P rate w) = trace w ++ [ContextNew (next_handle w) rate].
Proof.
  destruct w as [ctxs clk nh tr dn rc ls]. unfold new_context. cbn. unfold update.
  rewrite Nat.eqb_refl. repeat split.
  intros c N. apply Nat.eqb_neq in N. now rewrite N.
Qed.

Lemma resumed_rest (c : handle) (w : World) :
  next_handle (resumed c w) = next_handle w /\
  (contexts w c <> closed -> contexts (resumed c w) c = running) /\
  (forall d, d <> c -> contexts (resumed c w) d = contexts w d) /\
  exists r, trace (resumed c w) = trace w ++ r /\
            Forall (foreign microphones) r /\ Forall (foreign sessions) r.
Proof.
  unfold resumed. destruct w as [ctxs clk nh tr dn rc ls]. cbn.
  destruct (ctxs c) eqn:E; cbn; unfold update.
  - rewrite Nat.eqb_refl. repeat split; auto.
    + intros d N. apply Nat.eqb_neq in N. now rewrite N.
    + exists [ContextResume c]. repeat split; repeat constructor.
  - repeat split; auto. exists []. rewrite app_nil_r. repeat split; constructor.
  - repeat split; auto; try congruence. exists []. rewrite app_nil_r.
    repeat split; constructor.
Qed.

Lemma V1_resume_step (ref : V1.App -> option handle) (c : handle) (a : V1.App) :
  ref a = Some c ->
  bind (V1.deref ref)
       (fun ctx => bind (lift (ctx_state ctx))
          (fun st => when (AudioContextState_eqb st suspended) (lift (ctx_resume ctx)))) a
  = (Normal tt, V1.with_world (resumed c (V1.world a)) a).
Proof.
  intro R.
  rewrite (@bind_normal _ _ _ _ _ a c a)
    by (unfold V1.deref, bind, gets; rewrite R; reflexivity).
  destruct a as [msgs md act thk lvl ictx octx srcs cur sess strm cin cout w].
  destruct w as [ctxs clk nh tr dn rc ls]. unfold resumed. run.
  destruct (ctxs c) eqn:E; run; rewrite ?E; reflexivity.
Qed.

Lemma V1_start_contexts_spec (a : V1.App) :
  V1.start_contexts P a = (Normal tt, V1_contexts P a).
Proof.
  unfold V1.start_contexts, V1_contexts.
  set (w0 := V1.world a).
  set (w1 := new_context P 16000 w0).
  set (w2 := new_context P 24000 w1).
  set (w3 := resumed (next_handle w0) w2).
  set (a0 := V1.with_isActive true a).
  set (a1 := V1.with_inputAudioCtxRef (Some (next_handle w0)) (V1.with_world w1 a0)).
  set (a2 := V1.with_outputAudioCtxRef (Some (next_handle w1)) (V1.with_world w2 a1)).
  step_to tt a0; [reflexivity |].
  step_to tt a1.
  { subst a1 a0 w1 w0.
    destruct a as [msgs md act thk lvl ictx octx srcs cur sess strm cin cout w].
    destruct w as [ctxs clk nh tr dn rc ls]. reflexivity. }
  step_to tt a2.
  { subst a2 a1 a0 w2 w1 w0.
    destruct a as [msgs md act thk lvl ictx octx srcs cur sess strm cin cout w].
    destruct w as [ctxs clk nh tr dn rc ls]. reflexivity. }
  replace (V1.with_world w3 _)
    with (V1.with_world (resumed (next_handle w0) (V1.world a2)) a2)
    by (subst w3 a2 a1 a0; now destruct a).
  apply V1_resume_step. subst a2 a1 a0. now destruct a.
Qed.

Lemma V1_start_resumed_spec (a : V1.App) :
  V1.start_resumed (V1_contexts P a) = (Normal tt, V1_acquiring P a).
Proof.
  unfold V1.start_resumed.
  replace (V1_acquiring P a)
    with (V1.with_world
            (resumed (next_handle (new_context P 16000 (V1.world a)))
                     (V1.world (V1_contexts P a))) (V1_contexts P a))
    by (unfold V1_acquiring, V1_contexts; now destruct a).
  apply V1_resume_step. unfold V1_contexts. now destruct a.
Qed.

Lemma V1_start_stream_spec (x : V1.App) :
  V1.start_stream P x
  = if microphone_granted P (V1.world x)
    then (Normal (next_handle (V1.world x)), V1_with_stream x)
    else (Throw NotAllowedError, x).
Proof.
  unfold V1.start_stream, V1_with_stream.
  destruct x as [msgs md act thk lvl ictx octx srcs cur sess strm cin cout w].
  destruct w as [ctxs clk nh tr dn rc ls]. run.
  destruct (microphone_granted P _); reflexivity.
Qed.

Lemma V1_startLiveSession_spec (a : V1.App) :
  truthy_opt_string (API_KEY P) = true ->
  V1.startLiveSession P a = (Normal tt, V1_started P a).
Proof.
  intro K. unfold V1.startLiveSession. rewrite K. cbn [negb].
  unfold try_catch at 1.
  rewrite (bind_normal _ _ _ (V1_start_contexts_spec a)).
  rewrite (bind_normal _ _ _ (V1_start_resumed_spec a)).
  unfold V1_started, V1_with_stream, V1_connected.
  generalize (V1_acquiring P a). intro x.
  destruct x as [msgs md act thk lvl ictx octx srcs cur sess strm cin cout w].
  destruct w as [ctxs clk nh tr dn rc ls].
  unfold V1.start_stream, V1.start_session, V1.onopen. run.
  destruct (microphone_granted P _) eqn:Mic; run.
  - destruct (handshake_succeeds P _) eqn:Hs; run.
    + destruct ictx; reflexivity.
    + rewrite V1_stopSession_spec. reflexivity.
  - rewrite V1_stopSession_spec. reflexivity.
Qed.

Lemma V1_startLiveSession_no_key (a : V1.App) :
  truthy_opt_string (API_KEY P) = false ->
  V1.startLiveSession P a
  = (Normal tt, V1.with_world (log (Alert "API Key missing") (V1.world a)) a).
Proof.
  intro K. unfold V1.startLiveSession. rewrite K.
  destruct a as [msgs md act thk lvl ictx octx srcs cur sess strm cin cout w].
  destruct w as [ctxs clk nh tr dn rc ls]. reflexivity.
Qed.

Lemma V1_acquiring_facts (a : V1.App) :
  exists pre,
    trace (V1.world (V1_acquiring P a)) = trace (V1.world a) ++ pre /\
    Forall (foreign microphones) pre /\ Forall (foreign sessions) pre /\
    V1.streamRef (V1_acquiring P a) = V1.streamRef a /\
    V1.sessionRef (V1_acquiring P a) = V1.sessionRef a /\
    V1.isActive (V1_acquiring P a) = true.
Proof.
  unfold V1_acquiring.
  set (w0 := V1.world a).
  set (w1 := new_context P 16000 w0).
  set (w2 := new_context P 24000 w1).
  set (w3 := resumed (next_handle w0) w2).
  destruct (new_context_facts 16000 w0) as (_ & _ & _ & T1).
  destruct (new_context_facts 24000 w1) as (_ & _ & _ & T2).
  destruct (resumed_rest (next_handle w0) w2) as (_ & _ & _ & r1 & T3 & F1 & G1).
  destruct (resumed_rest (next_handle w1) w3) as (_ & _ & _ & r2 & T4 & F2 & G2).
  fold w1 in T1. fold w2 in T2. fold w3 in T3.
  exists ([ContextNew (next_handle w0) 16000; ContextNew (next_handle w1) 24000]
          ++ r1 ++ r2).
  split.
  - replace (V1.world _) with (resumed (next_handle w1) w3) by now destruct a.
    rewrite T4, T3, T2, T1. now rewrite <- !app_assoc.
  - split; [| split].
    + repeat (apply Forall_app; split); auto; repeat constructor.
    + repeat (apply Forall_app; split); auto; repeat constructor.
    + now destruct a.
Qed.

Lemma V1_acquiring_handle (a : V1.App) :
  next_handle (V1.world (V1_acquiring P a)) = S (S (next_handle (V1.world a))).
Proof.
  unfold V1_acquiring.
  set (w0 := V1.world a).
  set (w1 := new_context P 16000 w0).
  set (w2 := new_context P 24000 w1).
  set (w3 := resumed (next_handle w0) w2).
  destruct (new_context_facts 16000 w0) as (_ & _ & N1 & _).
  destruct (new_context_facts 24000 w1) as (_ & _ & N2 & _).
  destruct (resumed_rest (next_handle w0) w2) as (N3 & _).
  destruct (resumed_rest (next_handle w1) w3) as (N4 & _).
  fold w1 in N1. fold w2 in N2. fold w3 in N3.
  replace (V1.world _) with (resumed (next_handle w1) w3) by now destruct a.
  now rewrite N4, N3, N2, N1.
Qed.

(** X28.  [startLiveSession] of the earlier revision releases nothing: called
    on a state that holds a live microphone stream and a live session (which
    the main button never does), a start that succeeds leaves the earlier
    stream and session live beside the new ones, and the state refers to
    the new ones only, so that no later teardown releases the earlier
    ones. *)
Theorem V1_start_keeps_what_is_live (a : V1.App) (m0 s0 : handle) :
  truthy_opt_string (API_KEY P) = true ->
  (forall w, microphone_granted P w = true) ->
  (forall w, handshake_succeeds P w = true) ->
  V1_consistent a ->
  V1.streamRef a = Some m0 ->
  V1.sessionRef a = Some s0 ->
  (m0 < next_handle (V1.world a))%nat ->
  (s0 < next_handle (V1.world a))%nat ->
  let a' := exec (V1.startLiveSession P) a in
  let n := next_handle (V1.world a) in
  V1.streamRef a' = Some (S (S n)) /\
  V1.sessionRef a' = Some (S (S (S n))) /\
  live_after microphones (trace (V1.world a')) = [m0; S (S n)] /\
  live_after sessions (trace (V1.world a')) = [s0; S (S (S n))] /\
  live_after microphones (trace (V1.world (exec (V1.stopSession P) a'))) = [m0] /\
  live_after sessions (trace (V1.world (exec (V1.stopSession P) a'))) = [s0].
Proof.
  intros K Mic Hs [Cm Cs] Sm Ss Lm Ls. cbv zeta.
  assert (E : exec (V1.startLiveSession P) a
              = V1_connected (V1_with_stream (V1_acquiring P a))).
  { unfold exec. rewrite (V1_startLiveSession_spec a K). cbn [snd].
    unfold V1_started. now rewrite Mic, Hs. }
  rewrite E. clear E.
  assert (E2 : forall x, exec (V1.stopSession P) x = V1_torn_down x)
    by (intro x; unfold exec; now rewrite V1_stopSession_spec).
  rewrite E2, V1_torn_down_trace.
  destruct (V1_acquiring_facts a) as (pre & T1 & F1 & G1 & St1 & Se1 & _).
  pose proof (V1_acquiring_handle a) as N.
  unfold live_after in *. rewrite Sm in Cm. rewrite Ss in Cs.
  cbn [option_list] in Cm, Cs.
  rewrite Sm in St1. rewrite Ss in Se1.
  revert T1 St1 Se1 N. generalize (V1_acquiring P a). intro x.
  destruct x as [msgs md act thk lvl ictx octx srcs cur sess strm cin cout w].
  destruct w as [ctxs clk nh tr dn rc ls].
  intros T1 St1 Se1 N. cbn in T1, St1, Se1, N. subst tr strm sess nh.
  set (n := next_handle (V1.world a)) in *.
  assert (Tail : exists tail,
            trace (V1.world (V1_connected (V1_with_stream
              {| V1.messages := msgs; V1.mode := md; V1.isActive := act;
                 V1.isThinking := thk; V1.inputLevel := lvl; V1.inputAudioCtxRef := ictx;
                 V1.outputAudioCtxRef := octx; V1.sourcesRef := srcs;
                 V1.nextStartTimeRef := cur; V1.sessionRef := Some s0;
                 V1.streamRef := Some m0; V1.currentInputTranscription := cin;
                 V1.currentOutputTranscription := cout;
                 V1.world := {| contexts := ctxs; currentTime := clk;
                                next_handle := S (S n);
                                trace := trace (V1.world a) ++ pre; Date_now := dn;
                                random_calls := rc; localStorage := ls |} |})))
            = trace (V1.world a)
              ++ pre ++ [GetUserMedia (S (S n))] ++ [Connect (S (S (S n))) "Kore"] ++ tail /\
            Forall (foreign microphones) tail /\ Forall (foreign sessions) tail).
  { destruct ictx as [i |]; cbn.
    - exists [CaptureGraph i (S (S n))]. rewrite <- !app_assoc.
      repeat split; repeat constructor.
    - exists []. rewrite <- !app_assoc. repeat split; repeat constructor. }
  destruct Tail as (tail & T & F3 & G3).
  assert (D1 : Nat.eqb (S (S n)) m0 = false) by (apply Nat.eqb_neq; lia).
  assert (D2 : Nat.eqb (S (S (S n))) s0 = false) by (apply Nat.eqb_neq; lia).
  assert (D3 : Nat.eqb m0 (S (S n)) = false) by (apply Nat.eqb_neq; lia).
  assert (D4 : Nat.eqb s0 (S (S (S n))) = false) by (apply Nat.eqb_neq; lia).
  assert (LiveM : live_from microphones []
                    (trace (V1.world a) ++ pre ++ [GetUserMedia (S (S n))]
                     ++ [Connect (S (S (S n))) "Kore"] ++ tail) = [m0; S (S n)]).
  { rewrite !live_from_app, Cm, (@live_from_foreign microphones pre _ F1).
    cbn [live_from fold_left live_step acquired released microphones].
    unfold Set_add. cbn [existsb]. rewrite D1. cbn [orb app].
    apply (@live_from_foreign microphones tail _ F3). }
  assert (LiveS : live_from sessions []
                    (trace (V1.world a) ++ pre ++ [GetUserMedia (S (S n))]
                     ++ [Connect (S (S (S n))) "Kore"] ++ tail) = [s0; S (S (S n))]).
  { rewrite !live_from_app, Cs, (@live_from_foreign sessions pre _ G1).
    cbn [live_from fold_left live_step acquired released sessions].
    unfold Set_add. cbn [existsb]. rewrite D2. cbn [orb app].
    apply (@live_from_foreign sessions tail _ G3). }
  rewrite T.
  split; [reflexivity |]. split; [reflexivity |].
  split; [exact LiveM |]. split; [exact LiveS |].
  rewrite !(live_from_app _ _ _ (V1_teardown_events _)), LiveM, LiveS.
  unfold V1_teardown_events, teardown_events.
  cbn [V1_connected V1_with_stream V1.sessionRef V1.streamRef V1.with_sessionRef
       V1.with_streamRef V1.with_world option_list map V1.world next_handle
       set_next_handle log set_trace].
  assert (C1 : forall c w', Forall (foreign microphones) (closing c w'))
    by (intros; apply closing_shape; intro; split; reflexivity).
  assert (C2 : forall c w', Forall (foreign sessions) (closing c w'))
    by (intros; apply closing_shape; intro; split; reflexivity).
  assert (S1 : forall l, Forall (foreign microphones) (map SourceStop l))
    by (intro; apply Forall_map_effect; intro; split; reflexivity).
  assert (S2 : forall l, Forall (foreign sessions) (map SourceStop l))
    by (intro; apply Forall_map_effect; intro; split; reflexivity).
  split.
  - rewrite !live_from_app. cbn [live_from fold_left live_step acquired released microphones].
    unfold Set_delete. cbn [filter]. rewrite D3, Nat.eqb_refl. cbn [negb].
    rewrite (@live_from_foreign microphones _ _ (C1 _ _)).
    rewrite (@live_from_foreign microphones _ _ (C1 _ _)).
    apply (@live_from_foreign microphones _ _ (S1 _)).
  - rewrite !live_from_app. cbn [live_from fold_left live_step acquired released sessions].
    unfold Set_delete. cbn [filter]. rewrite D4, Nat.eqb_refl. cbn [negb].
    rewrite (@live_from_foreign sessions _ _ (C2 _ _)).
    rewrite (@live_from_foreign sessions _ _ (C2 _ _)).
    apply (@live_from_foreign sessions _ _ (S2 _)).
Qed.

Lemma resumed_trace (c : handle) (w : World) :
  trace (resumed c w)
  = trace w ++ match contexts w c with suspended => [ContextResume c] | _ => [] end.
Proof.
  unfold resumed. destruct w as [ctxs clk nh tr dn rc ls]. cbn.
  destruct (ctxs c); cbn; now rewrite ?app_nil_r.
Qed.

Lemma V1_acquiring_contexts (a : V1.App) :
  let n := next_handle (V1.world a) in
  V1.inputAudioCtxRef (V1_acquiring P a) = Some n /\
  V1.outputAudioCtxRef (V1_acquiring P a) = Some (S n) /\
  contexts (V1.world (V1_acquiring P a)) n = running /\
  contexts (V1.world (V1_acquiring P a)) (S n) = running /\
  trace (V1.world (V1_acquiring P a))
  = trace (V1.world a)
    ++ [ContextNew n 16000; ContextNew (S n) 24000]
    ++ (if starts_suspended P n then [ContextResume n] else [])
    ++ (if starts_suspended P (S n) then [ContextResume (S n)] else []) /\
  V1.messages (V1_acquiring P a) = V1.messages a /\
  V1.sourcesRef (V1_acquiring P a) = V1.sourcesRef a /\
  V1.nextStartTimeRef (V1_acquiring P a) = V1.nextStartTimeRef a.
Proof.
  cbv zeta. unfold V1_acquiring.
  set (w0 := V1.world a).
  set (n := next_handle w0).
  set (w1 := new_context P 16000 w0).
  set (w2 := new_context P 24000 w1).
  set (w3 := resumed (next_handle w0) w2).
  destruct (new_context_facts 16000 w0) as (C1 & _ & N1 & T1).
  destruct (new_context_facts 24000 w1) as (C2 & K2 & N2 & T2).
  destruct (resumed_rest (next_handle w0) w2) as (N3 & R3 & K3 & _).
  destruct (resumed_rest (next_handle w1) w3) as (N4 & R4 & K4 & _).
  pose proof (resumed_trace (next_handle w0) w2) as T3.
  pose proof (resumed_trace (next_handle w1) w3) as T4.
  fold w1 in C1, N1, T1. fold w2 in C2, K2, N2, T2, T3. fold w3 in N3, R3, K3, T3, T4.
  fold n in C1, N1, T1, R3, K3, T3 |- *.
  rewrite N1 in *.
  assert (S2n : contexts w2 n = (if starts_suspended P n then suspended else running))
    by (rewrite K2 by lia; exact C1).
  assert (S3o : contexts w3 (S n) = (if starts_suspended P (S n) then suspended else running))
    by (rewrite K3 by lia; exact C2).
  replace (V1.world (V1.with_world _ _)) with (resumed (S n) w3) by now destruct a.
  split; [now destruct a |]. split; [now destruct a |].
  split.
  { rewrite K4 by lia. apply R3. rewrite S2n. now destruct (starts_suspended P n). }
  split.
  { apply R4. rewrite S3o. now destruct (starts_suspended P (S n)). }
  split.
  { rewrite T4, T3, T2, T1, S2n, S3o. rewrite <- !app_assoc. cbn [app].
    destruct (starts_suspended P n), (starts_suspended P (S n)); reflexivity. }
  now destruct a.
Qed.

(** X29.  A start that succeeds in the earlier revision: on the state as
    it is (nothing is torn down, the source set and the cursor are kept),
    the two contexts are created, each is resumed if the browser created
    it suspended, the microphone is requested, the session is connected
    with the voice Kore and the capture graph is wired.  Both contexts are
    running afterwards, the state refers to the new objects, the component
    is active and the journal is unchanged. *)
Theorem V1_start_succeeds (a : V1.App) :
  truthy_opt_string (API_KEY P) = true ->
  (forall w, microphone_granted P w = true) ->
  (forall w, handshake_succeeds P w = true) ->
  let a' := exec (V1.startLiveSession P) a in
  let n := next_handle (V1.world a) in
  V1.isActive a' = true /\
  V1.inputAudioCtxRef a' = Some n /\
  V1.outputAudioCtxRef a' = Some (S n) /\
  V1.streamRef a' = Some (S (S n)) /\
  V1.sessionRef a' = Some (S (S (S n))) /\
  contexts (V1.world a') n = running /\
  contexts (V1.world a') (S n) = running /\
  trace (V1.world a')
  = trace (V1.world a)
    ++ [ContextNew n 16000; ContextNew (S n) 24000]
    ++ (if starts_suspended P n then [ContextResume n] else [])
    ++ (if starts_suspended P (S n) then [ContextResume (S n)] else [])
    ++ [GetUserMedia (S (S n)); Connect (S (S (S n))) "Kore"; CaptureGraph n (S (S n))] /\
  V1.messages a' = V1.messages a /\
  V1.sourcesRef a' = V1.sourcesRef a /\
  V1.nextStartTimeRef a' = V1.nextStartTimeRef a.
Proof.
  intros K Mic Hs. cbv zeta.
  unfold exec. rewrite (V1_startLiveSession_spec a K). cbn [snd].
  unfold V1_started. rewrite Mic, Hs.
  destruct (V1_acquiring_contexts a) as (Ai & Ao & Ci & Co & T & Ms & Ss & Cs).
  destruct (V1_acquiring_facts a) as (_ & _ & _ & _ & _ & _ & Act).
  pose proof (V1_acquiring_handle a) as N.
  cbv zeta in *.
  revert Ai Ao Ci Co T Ms Ss Cs Act N. generalize (V1_acquiring P a). intro x.
  destruct x as [msgs md act thk lvl ictx octx srcs cur sess strm cin cout w].
  destruct w as [ctxs clk nh tr dn rc ls].
  intros Ai Ao Ci Co T Ms Ss Cs Act N. cbn in Ai, Ao, Ci, Co, T, Ms, Ss, Cs, Act, N.
  subst ictx octx tr msgs srcs cur act nh.
  cbn. rewrite <- !app_assoc. cbn [app].
  repeat split; try assumption.
  destruct (starts_suspended P (next_handle (V1.world a))),
    (starts_suspended P (S (next_handle (V1.world a)))); reflexivity.
Qed.

End EarlierStart.

Lemma V1_start_keeps_what_is_live_witness :
  V1.streamRef V1_live = Some 2%nat /\
  V1.streamRef (exec (V1.startLiveSession reference_platform) V1_live) = Some 6%nat /\
  live_after microphones
    (trace (V1.world (exec (V1.startLiveSession reference_platform) V1_live)))
  = [2%nat; 6%nat] /\
  live_after microphones
    (trace (V1.world (exec (V1.stopSession reference_platform)
                           (exec (V1.startLiveSession reference_platform) V1_live))))
  = [2%nat].
Proof.
  assert (C : V1_consistent V1_live) by (split; vm_compute; reflexivity).
  destruct (@V1_start_keeps_what_is_live reference_platform V1_live 2%nat 3%nat eq_refl
              (fun _ => eq_refl) (fun _ => eq_refl) C eq_refl eq_refl
              ltac:(vm_compute; lia) ltac:(vm_compute; lia))
    as (S & _ & L & _ & R & _).
  split; [reflexivity |]. split; [exact S |]. split; [exact L | exact R].
Defined.

Lemma V1_start_succeeds_witness :
  V1.sessionRef V1_live = Some 3%nat /\
  trace (V1.world V1_live)
  = [ContextNew 0%nat 16000; ContextNew 1%nat 24000; ContextResume 0%nat;
     ContextResume 1%nat; GetUserMedia 2%nat; Connect 3%nat "Kore";
     CaptureGraph 0%nat 2%nat] /\
  contexts (V1.world V1_live) 1%nat = running.
Proof.
  destruct (@V1_start_succeeds reference_platform (V1.initial empty_world) eq_refl
              (fun _ => eq_refl) (fun _ => eq_refl))
    as (_ & _ & _ & _ & S & _ & C & T & _).
  split; [exact S |]. split; [exact T | exact C].
Defined.

(** ** Suspended contexts *)

Section Suspended.
Variable P : Platform.

(** X30.  The audio context and the player.  In the earlier revision a
    chunk that arrives while the output context is suspended first resumes
    the context and then starts its source, so the context is running
    afterwards.  In the later revision the message handler never touches a
    context: whatever the message, the state of every context is as
    before, and the only calls it makes start or stop buffer sources (a
    chunk scheduled on a suspended context is not preceded by a resume). *)
Theorem chunk_resumes_context (c : handle) (b : string) (message : LiveServerMessage)
  (a1 : V1.App) (a2 : V2.App) :
  V1.outputAudioCtxRef a1 = Some c ->
  contexts (V1.world a1) c = suspended ->
  truthy_string b = true ->
  (contexts (V1.world (exec (V1.onmessage P (audio_message b)) a1)) c = running /\
   exists start,
     trace (V1.world (exec (V1.onmessage P (audio_message b)) a1))
     = trace (V1.world a1)
       ++ [ContextResume c;
           SourceStart (next_handle (V1.world a1))
             (decodeAudioData P (decode P b) 24000 1) start]) /\
  ((forall x, contexts (V2.world (exec (V2.onmessage P c message) a2)) x
              = contexts (V2.world a2) x) /\
   exists calls,
     trace (V2.world (exec (V2.onmessage P c message) a2)) = trace (V2.world a2) ++ calls /\
     forallb player_call calls = true).
Proof.
  intros O S T. split.
  - unfold exec. rewrite (V1_onmessage_audio P b a1 O), T. cbn [snd].
    destruct a1 as [msgs md act thk lvl ictx octx srcs cur sess strm cin cout w].
    destruct w as [ctxs clk nh tr dn rc ls]. cbn in O, S. subst octx.
    unfold V1_played, resumed. cbn. rewrite S. cbn. unfold update.
    rewrite Nat.eqb_refl. split; [reflexivity |].
    eexists. rewrite <- app_assoc. reflexivity.
  - unfold exec. rewrite V2_onmessage_spec. cbn [snd]. unfold V2_onmessage_result.
    destruct a2 as [msgs md act thk spk lvl ictx octx node srcs cur sess strm w].
    destruct w as [ctxs clk nh tr dn rc ls].
    assert (Stops : forall l, forallb player_call (map SourceStop l) = true)
      by (induction l; [reflexivity | assumption]).
    destruct (first_audio (serverContent message)) as [b' |];
      destruct (truthy_opt_bool (opt_chain (serverContent message) interrupted)); cbn.
    + split; [reflexivity |]. eexists. rewrite <- app_assoc. split; [reflexivity |].
      cbn. apply Stops.
    + split; [reflexivity |]. eexists. split; reflexivity.
    + split; [reflexivity |]. eexists. split; [reflexivity | apply Stops].
    + split; [reflexivity |]. exists []. now rewrite app_nil_r.
Qed.

End Suspended.

Lemma chunk_resumes_context_witness :
  contexts (V1.world (exec (V1.onmessage reference_platform (audio_message "AAAA"))
                           (V1.with_world (set_contexts (fun _ => suspended) empty_world)
                              V1_playing))) 0%nat
  = running.
Proof.
  destruct (@chunk_resumes_context reference_platform 0%nat "AAAA" (audio_message "AAAA")
              (V1.with_world (set_contexts (fun _ => suspended) empty_world) V1_playing)
              (V2_with_journal []) eq_refl eq_refl eq_refl) as ((R & _) & _).
  exact R.
Defined.

(** ** Calls of [startLiveSession] that overlap *)

Section Runs.
Variable P : Platform.

(** The two runs of a call, one after the other with nothing in between,
    are the function. *)
Lemma V2_startLiveSession_runs (a : V2.App) :
  V2.startLiveSession P a
  = bind (V2.start_begin P)
         (fun first => match first with
                       | Some ctxs => V2.start_resume P ctxs
                       | None => ret tt
                       end) a.
Proof.
  unfold V2.startLiveSession, V2.start_begin, V2.start_resume.
  destruct (negb (truthy_opt_string (API_KEY P))).
  - destruct a as [msgs md act thk spk lvl ictx octx node srcs cur sess strm w].
    destruct w as [ctxs clk nh tr dn rc ls]. reflexivity.
  - unfold try_catch, bind.
    destruct (V2.stopSession P a) as [[[] | e] s1].
    + destruct (V2.start_contexts P s1) as [[c | e] s2]; cbn [ret].
      * reflexivity.
      * destruct (V2.unawaited (V2.stopSession P) s2) as [[[] | e'] s3]; reflexivity.
    + destruct (V2.unawaited (V2.stopSession P) s1) as [[[] | e'] s3]; reflexivity.
Qed.

Lemma V1_startLiveSession_runs (a : V1.App) :
  V1.startLiveSession P a
  = bind (V1.start_begin P)
         (fun first => if first then V1.start_resume P else ret tt) a.
Proof.
  unfold V1.startLiveSession, V1.start_begin, V1.start_resume.
  destruct (negb (truthy_opt_string (API_KEY P))).
  - destruct a as [msgs md act thk lvl ictx octx srcs cur sess strm cin cout w].
    destruct w as [ctxs clk nh tr dn rc ls]. reflexivity.
  - unfold try_catch, bind.
    destruct (V1.start_contexts P a) as [[[] | e] s1].
    + destruct (V1.start_resumed s1) as [[[] | e] s2]; cbn [ret].
      * reflexivity.
      * destruct (V1.stopSession P s2) as [[[] | e'] s3]; reflexivity.
    + destruct (V1.stopSession P s1) as [[[] | e'] s3]; reflexivity.
Qed.

(** What a teardown releases, whatever is live. *)
Lemma teardown_events_releases (session stream ictx octx : option handle)
  (srcs : list handle) (w : World) (live : list handle) :
  live_from microphones live (teardown_events session stream ictx octx srcs w)
  = match stream with Some m => Set_delete m live | None => live end /\
  live_from sessions live (teardown_events session stream ictx octx srcs w)
  = match session with Some s => Set_delete s live | None => live end.
Proof.
  unfold teardown_events.
  assert (C1 : forall c w', Forall (foreign microphones) (closing c w'))
    by (intros; apply closing_shape; intro; split; reflexivity).
  assert (C2 : forall c w', Forall (foreign sessions) (closing c w'))
    by (intros; apply closing_shape; intro; split; reflexivity).
  assert (S1 : Forall (foreign microphones) (map SourceStop srcs))
    by (apply Forall_map_effect; intro; split; reflexivity).
  assert (S2 : Forall (foreign sessions) (map SourceStop srcs))
    by (apply Forall_map_effect; intro; split; reflexivity).
  split.
  - rewrite live_from_app.
    rewrite (@live_from_foreign microphones (map SessionClose (option_list session)))
      by (apply Forall_map_effect; intro; split; reflexivity).
    rewrite live_from_app.
    rewrite (@live_from_foreign microphones (closing ictx w ++ _))
      by (repeat (apply Forall_app; split); auto).
    now destruct stream.
  - rewrite live_from_app.
    rewrite (@live_from_foreign sessions (map TrackStop (option_list stream) ++ _)).
    + now destruct session.
    + repeat (apply Forall_app; split); auto.
      apply Forall_map_effect; intro; split; reflexivity.
Qed.

Lemma V2_torn_down_live (x : V2.App) :
  live_after microphones (trace (V2.world (V2_torn_down x)))
  = match V2.streamRef x with
    | Some m => Set_delete m (live_after microphones (trace (V2.world x)))
    | None => live_after microphones (trace (V2.world x))
    end /\
  live_after sessions (trace (V2.world (V2_torn_down x)))
  = match V2.sessionRef x with
    | Some s => Set_delete s (live_after sessions (trace (V2.world x)))
    | None => live_after sessions (trace (V2.world x))
    end /\
  next_handle (V2.world (V2_torn_down x)) = next_handle (V2.world x).
Proof.
  unfold live_after. rewrite V2_torn_down_trace, !live_from_app.
  unfold V2_teardown_events.
  split; [apply teardown_events_releases |]. split; [apply teardown_events_releases |].
  apply teardown_world_rest.
Qed.

Lemma V1_torn_down_live (x : V1.App) :
  live_after microphones (trace (V1.world (V1_torn_down x)))
  = match V1.streamRef x with
    | Some m => Set_delete m (live_after microphones (trace (V1.world x)))
    | None => live_after microphones (trace (V1.world x))
    end /\
  live_after sessions (trace (V1.world (V1_torn_down x)))
  = match V1.sessionRef x with
    | Some s => Set_delete s (live_after sessions (trace (V1.world x)))
    | None => live_after sessions (trace (V1.world x))
    end /\
  next_handle (V1.world (V1_torn_down x)) = next_handle (V1.world x).
Proof.
  unfold live_after. rewrite V1_torn_down_trace, !live_from_app.
  unfold V1_teardown_events.
  split; [apply teardown_events_releases |]. split; [apply teardown_events_releases |].
  apply teardown_world_rest.
Qed.

Lemma V2_acquiring_live (x : V2.App) :
  live_after microphones (trace (V2.world (V2_acquiring P x)))
  = live_after microphones (trace (V2.world (V2_torn_down x))) /\
  live_after sessions (trace (V2.world (V2_acquiring P x)))
  = live_after sessions (trace (V2.world (V2_torn_down x))).
Proof.
  destruct (V2_acquiring_facts P x) as (_ & _ & _ & _ & _ & _ & _ & _ & _ & T & _).
  unfold live_after in *. rewrite T, !live_from_app. split; reflexivity.
Qed.

(** A teardown on a state that refers to all that is live leaves nothing
    live. *)
Lemma V2_torn_down_nothing_live (x : V2.App) :
  V2_consistent x ->
  live_after microphones (trace (V2.world (V2_torn_down x))) = [] /\
  live_after sessions (trace (V2.world (V2_torn_down x))) = [].
Proof.
  intros (Cm & Cs). destruct (V2_torn_down_live x) as (Lm & Ls & _).
  rewrite Lm, Ls, Cm, Cs.
  destruct (V2.streamRef x), (V2.sessionRef x); cbn [option_list];
    rewrite ?Set_delete_single; split; reflexivity.
Qed.

Lemma V2_with_stream_live (x : V2.App) :
  live_after microphones (trace (V2.world (V2_with_stream x)))
  = Set_add (next_handle (V2.world x)) (live_after microphones (trace (V2.world x))) /\
  live_after sessions (trace (V2.world (V2_with_stream x)))
  = live_after sessions (trace (V2.world x)) /\
  next_handle (V2.world (V2_with_stream x)) = S (next_handle (V2.world x)) /\
  V2.streamRef (V2_with_stream x) = Some (next_handle (V2.world x)) /\
  V2.sessionRef (V2_with_stream x) = V2.sessionRef x.
Proof.
  destruct (V2_with_stream_facts x) as (_ & _ & _ & T).
  unfold live_after. rewrite T, !live_from_app.
  destruct x as [msgs md act thk spk lvl ictx octx node srcs cur sess strm w].
  destruct w as [ctxs clk nh tr dn rc ls]. repeat split.
Qed.

Lemma V2_opened_live (inputCtx stream : handle) (x : V2.App) :
  live_after microphones (trace (V2.world (V2_opened P inputCtx stream x)))
  = live_after microphones (trace (V2.world x)) /\
  live_after sessions (trace (V2.world (V2_opened P inputCtx stream x)))
  = Set_add (next_handle (V2.world x)) (live_after sessions (trace (V2.world x))) /\
  next_handle (V2.world (V2_opened P inputCtx stream x)) = S (next_handle (V2.world x)) /\
  V2.streamRef (V2_opened P inputCtx stream x) = V2.streamRef x /\
  V2.sessionRef (V2_opened P inputCtx stream x) = Some (next_handle (V2.world x)) /\
  trace (V2.world (V2_opened P inputCtx stream x))
  = trace (V2.world x)
    ++ [Connect (next_handle (V2.world x)) "Zephyr"; CaptureGraph inputCtx stream].
Proof.
  assert (T : trace (V2.world (V2_opened P inputCtx stream x))
              = trace (V2.world x)
                ++ [Connect (next_handle (V2.world x)) "Zephyr";
                    CaptureGraph inputCtx stream]).
  { unfold V2_opened, exec. rewrite V2_addMessage_spec.
    destruct x as [msgs md act thk spk lvl ictx octx node srcs cur sess strm w].
    destruct w as [ctxs clk nh tr dn rc ls]. cbn. now rewrite <- app_assoc. }
  unfold live_after. rewrite T, !live_from_app.
  split; [reflexivity |]. split; [reflexivity |].
  unfold V2_opened, exec. rewrite V2_addMessage_spec.
  destruct x as [msgs md act thk spk lvl ictx octx node srcs cur sess strm w].
  destruct w as [ctxs clk nh tr dn rc ls]. cbn. repeat split.
Qed.

End Runs.

Ltac decide_handles :=
  repeat match goal with
         | |- context [Nat.eqb ?x ?y] =>
             first [ rewrite (Nat.eqb_refl x)
                   | replace (Nat.eqb x y) with false
                       by (symmetry; apply Nat.eqb_neq; lia) ]
         end.

Section OverlappingStarts.
Variable P : Platform.
Hypothesis Key : truthy_opt_string (API_KEY P) = true.
Hypothesis Mic : forall w, microphone_granted P w = true.
Hypothesis Hs : forall w, handshake_succeeds P w = true.

Lemma V2_start_begin_spec (a : V2.App) :
  V2.start_begin P a
  = (Normal (Some (next_handle (V2.world a), S (next_handle (V2.world a)))),
     V2_acquiring P a).
Proof.
  unfold V2.start_begin. rewrite Key. cbn [negb]. unfold try_catch.
  rewrite (bind_normal _ _ _ (V2_stopSession_spec P a)).
  destruct (V2_torn_down_live a) as (_ & _ & N). rewrite <- N.
  unfold V2_acquiring, new_context.
  set (a0 := V2_torn_down a).
  destruct a0 as [msgs md act thk spk lvl ictx octx node srcs cur sess strm w].
  destruct w as [ctxs clk nh tr dn rc ls].
  unfold V2.start_contexts. run. reflexivity.
Qed.

Lemma V2_start_resume_spec (ctxs : handle * handle) (x : V2.App) :
  V2.start_resume P ctxs x
  = (Normal tt, V2_opened P (fst ctxs) (next_handle (V2.world x)) (V2_with_stream x)).
Proof.
  unfold V2.start_resume, V2.start_stream, V2.start_session, V2.onopen, V2_opened,
    V2_with_stream, exec.
  destruct x as [msgs md act thk spk lvl ictx octx node srcs cur sess strm w].
  destruct w as [ctxs' clk nh tr dn rc ls]. run. rewrite Mic. run. rewrite Hs. run.
  reflexivity.
Qed.

Lemma V2_button_stops (x : V2.App) :
  V2.isActive x = true -> V2.button_onClick P x = (Normal tt, V2_torn_down x).
Proof.
  intro A. unfold V2.button_onClick.
  rewrite (@bind_normal _ _ _ _ _ x true x) by (unfold gets; now rewrite A).
  apply V2_unawaited_stopSession.
Qed.

(** The state the three clicks and the four answers lead to. *)
Lemma V2_overlapping_starts_spec (a : V2.App) :
  let n := next_handle (V2.world a) in
  let pending := V2_acquiring P (V2_torn_down (V2_acquiring P a)) in
  let first := V2_opened P n (6 + n)%nat (V2_with_stream pending) in
  V2.overlapping_starts P a
  = (Normal tt, V2_opened P (3 + n)%nat (8 + n)%nat (V2_with_stream first)) /\
  next_handle (V2.world pending) = (6 + n)%nat /\
  next_handle (V2.world first) = (8 + n)%nat.
Proof.
  cbv zeta.
  destruct (V2_acquiring_facts P a)
    as (_ & _ & _ & N1 & _ & _ & _ & _ & A1 & _). cbv zeta in N1.
  destruct (V2_torn_down_live (V2_acquiring P a)) as (_ & _ & N2).
  destruct (V2_acquiring_facts P (V2_torn_down (V2_acquiring P a)))
    as (_ & _ & _ & N3 & _). cbv zeta in N3. rewrite N2, N1 in N3.
  destruct (V2_with_stream_live (V2_acquiring P (V2_torn_down (V2_acquiring P a))))
    as (_ & _ & N4 & _). rewrite N3 in N4.
  destruct (V2_opened_live P (next_handle (V2.world a)) (6 + next_handle (V2.world a))%nat
              (V2_with_stream (V2_acquiring P (V2_torn_down (V2_acquiring P a)))))
    as (_ & _ & N5 & _). rewrite N4 in N5.
  split; [| split; [exact N3 | exact N5]].
  unfold V2.overlapping_starts.
  rewrite (bind_normal _ _ _ (V2_start_begin_spec a)).
  rewrite (bind_normal _ _ _ (V2_button_stops _ A1)).
  rewrite (bind_normal _ _ _ (V2_start_begin_spec _)).
  rewrite N2, N1.
  rewrite (bind_normal _ _ _ (V2_start_resume_spec _ _)).
  rewrite V2_start_resume_spec. cbn [fst]. rewrite N3.
  cbn [Nat.add] in N5 |- *. rewrite N5. reflexivity.
Qed.

(** C6.  In the later revision a second call of [startLiveSession] can
    begin while the first is waiting at an [await], and the teardown the
    second call begins with then finds nothing to release.  With a key,
    the microphone granted and the service answering, from any state that
    refers to all that is live: the first click runs a call up to its
    [await] of [getUserMedia] and leaves the component active, so the
    button offers to stop; that click tears down and leaves the component
    idle, so the button offers to start; the third click runs a second
    call up to its [await].  When the microphone and the service then
    answer the first call and after it the second, nothing throws, and two
    microphone streams and two sessions are live at once.  The state refers
    to those of the second call only, so a later [stopSession] releases
    these and leaves the stream and the session of the first call live. *)
Theorem overlapping_starts_leak (a : V2.App) :
  V2_consistent a ->
  let n := next_handle (V2.world a) in
  let pending := exec (V2.start_begin P) a in
  let stopped := exec (V2.button_onClick P) pending in
  let final := exec (V2.overlapping_starts P) a in
  (V2.isActive pending = true /\ V2.isActive stopped = false) /\
  completion (V2.overlapping_starts P) a = Normal tt /\
  live_after microphones (trace (V2.world final)) = [(6 + n)%nat; (8 + n)%nat] /\
  live_after sessions (trace (V2.world final)) = [(7 + n)%nat; (9 + n)%nat] /\
  V2.streamRef final = Some (8 + n)%nat /\
  V2.sessionRef final = Some (9 + n)%nat /\
  live_after microphones (trace (V2.world (exec (V2.stopSession P) final)))
  = [(6 + n)%nat] /\
  live_after sessions (trace (V2.world (exec (V2.stopSession P) final)))
  = [(7 + n)%nat].
Proof.
  intros C. cbv zeta.
  destruct (V2_overlapping_starts_spec a) as (R & N3 & N5). cbv zeta in R, N3, N5.
  destruct (V2_acquiring_facts P a)
    as (_ & _ & _ & _ & St1 & Se1 & _ & _ & A1 & _).
  unfold completion, exec. rewrite R. cbn [fst snd].
  rewrite V2_start_begin_spec. cbn [snd].
  rewrite (V2_button_stops _ A1), V2_stopSession_spec. cbn [snd].
  split; [split; [exact A1 | reflexivity] |]. split; [reflexivity |].
  set (stopped := V2_torn_down (V2_acquiring P a)) in *.
  set (pending := V2_acquiring P stopped) in *.
  set (first := V2_opened P _ _ (V2_with_stream pending)) in *.
  set (final := V2_opened P _ _ (V2_with_stream first)).
  (* nothing is live when the second call is pending *)
  destruct (V2_torn_down_nothing_live C) as (Lm0 & Ls0).
  destruct (V2_acquiring_live P a) as (Lm1 & Ls1). rewrite Lm0 in Lm1. rewrite Ls0 in Ls1.
  destruct (V2_torn_down_live (V2_acquiring P a)) as (Lm2 & Ls2 & _).
  rewrite St1, Lm1 in Lm2. rewrite Se1, Ls1 in Ls2. fold stopped in Lm2, Ls2.
  destruct (V2_torn_down_live stopped) as (Lm3 & Ls3 & _).
  change (V2.streamRef stopped) with (@None handle) in Lm3.
  change (V2.sessionRef stopped) with (@None handle) in Ls3.
  rewrite Lm2 in Lm3. rewrite Ls2 in Ls3.
  destruct (V2_acquiring_live P stopped) as (Lm4 & Ls4).
  rewrite Lm3 in Lm4. rewrite Ls3 in Ls4. fold pending in Lm4, Ls4.
  (* the answers to the first call, then to the second *)
  destruct (V2_with_stream_live pending) as (Lm5 & Ls5 & N4 & _).
  rewrite Lm4 in Lm5. rewrite Ls4 in Ls5. rewrite N3 in Lm5, N4.
  destruct (V2_opened_live P (next_handle (V2.world a)) (6 + next_handle (V2.world a))%nat
              (V2_with_stream pending)) as (Lm6 & Ls6 & _).
  fold first in Lm6, Ls6. rewrite Lm5 in Lm6. rewrite Ls5, N4 in Ls6.
  destruct (V2_with_stream_live first) as (Lm7 & Ls7 & N6 & St7 & _).
  rewrite Lm6 in Lm7. rewrite Ls6 in Ls7. rewrite N5 in Lm7, N6, St7.
  destruct (V2_opened_live P (3 + next_handle (V2.world a))%nat
              (8 + next_handle (V2.world a))%nat (V2_with_stream first))
    as (Lm8 & Ls8 & _ & St8 & Se8 & _).
  fold final in Lm8, Ls8, St8, Se8.
  rewrite Lm7 in Lm8. rewrite Ls7, N6 in Ls8. rewrite St7 in St8. rewrite N6 in Se8.
  destruct (V2_torn_down_live final) as (Lm9 & Ls9 & _).
  rewrite St8, Lm8 in Lm9. rewrite Se8, Ls8 in Ls9.
  rewrite Lm8, Ls8, St8, Se8, Lm9, Ls9.
  unfold Set_add, Set_delete. cbn [existsb filter orb negb app Nat.add].
  repeat (progress (decide_handles; cbn [existsb filter orb negb app])).
  repeat split; reflexivity.
Qed.

End OverlappingStarts.

Lemma overlapping_starts_leak_witness :
  live_after microphones
    (trace (V2.world (exec (V2.overlapping_starts reference_platform)
                           (V2.initial reference_platform empty_world))))
  = [6%nat; 8%nat] /\
  live_after sessions
    (trace (V2.world (exec (V2.overlapping_starts reference_platform)
                           (V2.initial reference_platform empty_world))))
  = [7%nat; 9%nat] /\
  live_after microphones
    (trace (V2.world (exec (V2.stopSession reference_platform)
                           (exec (V2.overlapping_starts reference_platform)
                                 (V2.initial reference_platform empty_world)))))
  = [6%nat].
Proof.
  destruct (@overlapping_starts_leak reference_platform eq_refl
              (fun _ => eq_refl) (fun _ => eq_refl)
              (V2.initial reference_platform empty_world))
    as (_ & _ & M & S & _ & _ & M' & _).
  - split; reflexivity.
  - split; [exact M |]. split; [exact S | exact M'].
Defined.

Section EarlierOverlappingStarts.
Variable P : Platform.
Hypothesis Key : truthy_opt_string (API_KEY P) = true.
Hypothesis Mic : forall w, microphone_granted P w = true.
Hypothesis Hs : forall w, handshake_succeeds P w = true.

Lemma V1_start_begin_spec (a : V1.App) :
  V1.start_begin P a = (Normal true, V1_acquiring P a).
Proof.
  unfold V1.start_begin. rewrite Key. cbn [negb]. unfold try_catch.
  rewrite (bind_normal _ _ _ (V1_start_contexts_spec P a)).
  rewrite (bind_normal _ _ _ (V1_start_resumed_spec P a)). reflexivity.
Qed.

Lemma V1_start_resume_spec (x : V1.App) :
  V1.start_resume P x = (Normal tt, V1_connected (V1_with_stream x)).
Proof.
  unfold V1.start_resume, V1.start_stream, V1.start_session, V1.onopen, V1_connected,
    V1_with_stream.
  destruct x as [msgs md act thk lvl ictx octx srcs cur sess strm cin cout w].
  destruct w as [ctxs clk nh tr dn rc ls]. run. rewrite Mic. run. rewrite Hs. run.
  destruct ictx; reflexivity.
Qed.

Lemma V1_button_stops (x : V1.App) :
  V1.isActive x = true -> V1.button_onClick P x = (Normal tt, V1_torn_down x).
Proof.
  intro A. unfold V1.button_onClick.
  rewrite (@bind_normal _ _ _ _ _ x true x) by (unfold gets; now rewrite A).
  apply V1_stopSession_spec.
Qed.

Lemma V1_acquiring_live (x : V1.App) :
  live_after microphones (trace (V1.world (V1_acquiring P x)))
  = live_after microphones (trace (V1.world x)) /\
  live_after sessions (trace (V1.world (V1_acquiring P x)))
  = live_after sessions (trace (V1.world x)).
Proof.
  destruct (V1_acquiring_facts P x) as (pre & T & F & G & _).
  unfold live_after. rewrite T, !live_from_app.
  rewrite (@live_from_foreign microphones pre _ F).
  rewrite (@live_from_foreign sessions pre _ G). split; reflexivity.
Qed.

Lemma V1_with_stream_live (x : V1.App) :
  live_after microphones (trace (V1.world (V1_with_stream x)))
  = Set_add (next_handle (V1.world x)) (live_after microphones (trace (V1.world x))) /\
  live_after sessions (trace (V1.world (V1_with_stream x)))
  = live_after sessions (trace (V1.world x)) /\
  next_handle (V1.world (V1_with_stream x)) = S (next_handle (V1.world x)) /\
  V1.streamRef (V1_with_stream x) = Some (next_handle (V1.world x)) /\
  V1.sessionRef (V1_with_stream x) = V1.sessionRef x.
Proof.
  assert (T : trace (V1.world (V1_with_stream x))
              = trace (V1.world x) ++ [GetUserMedia (next_handle (V1.world x))]).
  { destruct x as [msgs md act thk lvl ictx octx srcs cur sess strm cin cout w].
    now destruct w. }
  unfold live_after. rewrite T, !live_from_app.
  destruct x as [msgs md act thk lvl ictx octx srcs cur sess strm cin cout w].
  destruct w as [ctxs clk nh tr dn rc ls]. repeat split.
Qed.

Lemma V1_connected_live (x : V1.App) :
  live_after microphones (trace (V1.world (V1_connected x)))
  = live_after microphones (trace (V1.world x)) /\
  live_after sessions (trace (V1.world (V1_connected x)))
  = Set_add (next_handle (V1.world x)) (live_after sessions (trace (V1.world x))) /\
  next_handle (V1.world (V1_connected x)) = S (next_handle (V1.world x)) /\
  V1.streamRef (V1_connected x) = V1.streamRef x /\
  V1.sessionRef (V1_connected x) = Some (next_handle (V1.world x)).
Proof.
  assert (T : exists tail,
             trace (V1.world (V1_connected x))
             = trace (V1.world x) ++ [Connect (next_handle (V1.world x)) "Kore"] ++ tail /\
             Forall (foreign microphones) tail /\ Forall (foreign sessions) tail).
  { unfold V1_connected.
    destruct x as [msgs md act thk lvl ictx octx srcs cur sess strm cin cout w].
    destruct w as [ctxs clk nh tr dn rc ls].
    destruct ictx as [i |], strm as [m |]; cbn.
    1: exists [CaptureGraph i m].
    2-4: exists [].
    all: rewrite <- ?app_assoc; repeat split; repeat constructor. }
  destruct T as (tail & T & F & G).
  unfold live_after. rewrite T, !live_from_app.
  rewrite (@live_from_foreign microphones tail _ F).
  rewrite (@live_from_foreign sessions tail _ G).
  split; [reflexivity |]. split; [reflexivity |].
  unfold V1_connected.
  destruct x as [msgs md act thk lvl ictx octx srcs cur sess strm cin cout w].
  destruct w as [ctxs clk nh tr dn rc ls].
  destruct ictx, strm; repeat split.
Qed.

(** X27.  The earlier revision has no teardown in [startLiveSession]: it
    relies on the main button, which offers the start only while the
    component is idle.  That does not keep two calls from overlapping at
    an [await].  With a key, the microphone granted and the service
    answering, from an idle component that holds nothing and with nothing
    live: the first click runs a call up to its [await] of [getUserMedia]
    and leaves the component active, so the button offers to stop; that
    click tears down and leaves the component idle, so the button offers
    to start; the third click runs a second call up to its [await].  When
    the microphone and the service then answer the first call and after it
    the second, nothing throws, and two microphone streams and two
    sessions are live at once.  The state refers to those of the second
    call only, so a later [stopSession] releases these and leaves the
    stream and the session of the first call live. *)
Theorem V1_overlapping_starts_leak (a : V1.App) :
  V1_consistent a ->
  V1_released a ->
  let n := next_handle (V1.world a) in
  let pending := exec (V1.start_begin P) a in
  let stopped := exec (V1.button_onClick P) pending in
  let final := exec (V1.overlapping_starts P) a in
  (V1.isActive pending = true /\ V1.isActive stopped = false) /\
  completion (V1.overlapping_starts P) a = Normal tt /\
  live_after microphones (trace (V1.world final)) = [(4 + n)%nat; (6 + n)%nat] /\
  live_after sessions (trace (V1.world final)) = [(5 + n)%nat; (7 + n)%nat] /\
  V1.streamRef final = Some (6 + n)%nat /\
  V1.sessionRef final = Some (7 + n)%nat /\
  live_after microphones (trace (V1.world (exec (V1.stopSession P) final)))
  = [(4 + n)%nat] /\
  live_after sessions (trace (V1.world (exec (V1.stopSession P) final)))
  = [(5 + n)%nat].
Proof.
  intros (Cm & Cs) (Se0 & St0 & _). cbv zeta.
  rewrite St0 in Cm. rewrite Se0 in Cs. cbn [option_list] in Cm, Cs.
  destruct (V1_acquiring_facts P a) as (_ & _ & _ & _ & St1 & Se1 & A1).
  rewrite St0 in St1. rewrite Se0 in Se1.
  pose proof (V1_acquiring_handle P a) as N1.
  set (stopped := V1_torn_down (V1_acquiring P a)).
  set (pending := V1_acquiring P stopped).
  set (first := V1_connected (V1_with_stream pending)).
  set (final := V1_connected (V1_with_stream first)).
  assert (R : V1.overlapping_starts P a = (Normal tt, final)).
  { unfold V1.overlapping_starts.
    rewrite (bind_normal _ _ _ (V1_start_begin_spec a)).
    rewrite (bind_normal _ _ _ (V1_button_stops _ A1)).
    rewrite (bind_normal _ _ _ (V1_start_begin_spec _)).
    cbn [andb when].
    rewrite (bind_normal _ _ _ (V1_start_resume_spec _)).
    apply V1_start_resume_spec. }
  unfold completion, exec. rewrite R. cbn [fst snd].
  rewrite V1_start_begin_spec. cbn [snd].
  rewrite (V1_button_stops _ A1), V1_stopSession_spec. cbn [snd].
  split; [split; [exact A1 | reflexivity] |]. split; [reflexivity |].
  fold stopped.
  (* nothing is live when the second call is pending *)
  destruct (V1_acquiring_live a) as (Lm1 & Ls1). rewrite Cm in Lm1. rewrite Cs in Ls1.
  destruct (V1_torn_down_live (V1_acquiring P a)) as (Lm2 & Ls2 & N2).
  rewrite St1, Lm1 in Lm2. rewrite Se1, Ls1 in Ls2. rewrite N1 in N2.
  fold stopped in Lm2, Ls2, N2.
  destruct (V1_acquiring_live stopped) as (Lm4 & Ls4).
  rewrite Lm2 in Lm4. rewrite Ls2 in Ls4. fold pending in Lm4, Ls4.
  pose proof (V1_acquiring_handle P stopped) as N3. rewrite N2 in N3.
  fold pending in N3.
  (* the answers to the first call, then to the second *)
  destruct (V1_with_stream_live pending) as (Lm5 & Ls5 & N4 & _).
  rewrite Lm4 in Lm5. rewrite Ls4 in Ls5. rewrite N3 in Lm5, N4.
  destruct (V1_connected_live (V1_with_stream pending)) as (Lm6 & Ls6 & N5 & _).
  fold first in Lm6, Ls6, N5. rewrite Lm5 in Lm6. rewrite Ls5, N4 in Ls6.
  rewrite N4 in N5.
  destruct (V1_with_stream_live first) as (Lm7 & Ls7 & N6 & St7 & _).
  rewrite Lm6 in Lm7. rewrite Ls6 in Ls7. rewrite N5 in Lm7, N6, St7.
  destruct (V1_connected_live (V1_with_stream first)) as (Lm8 & Ls8 & _ & St8 & Se8).
  fold final in Lm8, Ls8, St8, Se8.
  rewrite Lm7 in Lm8. rewrite Ls7, N6 in Ls8. rewrite St7 in St8. rewrite N6 in Se8.
  destruct (V1_torn_down_live final) as (Lm9 & Ls9 & _).
  rewrite St8, Lm8 in Lm9. rewrite Se8, Ls8 in Ls9.
  rewrite Lm8, Ls8, St8, Se8, Lm9, Ls9.
  unfold Set_add, Set_delete. cbn [existsb filter orb negb app Nat.add].
  repeat (progress (decide_handles; cbn [existsb filter orb negb app])).
  repeat split; reflexivity.
Qed.

End EarlierOverlappingStarts.

Lemma V1_overlapping_starts_leak_witness :
  live_after microphones
    (trace (V1.world (exec (V1.overlapping_starts reference_platform)
                           (V1.initial empty_world))))
  = [4%nat; 6%nat] /\
  live_after sessions
    (trace (V1.world (exec (V1.overlapping_starts reference_platform)
                           (V1.initial empty_world))))
  = [5%nat; 7%nat] /\
  live_after microphones
    (trace (V1.world (exec (V1.stopSession reference_platform)
                           (exec (V1.overlapping_starts reference_platform)
                                 (V1.initial empty_world)))))
  = [4%nat].
Proof.
  destruct (@V1_overlapping_starts_leak reference_platform eq_refl
              (fun _ => eq_refl) (fun _ => eq_refl) (V1.initial empty_world))
    as (_ & _ & M & S & _ & _ & M' & _).
  - split; reflexivity.
  - repeat split.
  - split; [exact M |]. split; [exact S | exact M'].
Defined.
